(** * Dual N-Back: the trial engine

    A shallow embedding of the sequence generator and the scoring
    calculator ([utils/gameLogic.ts]), of the reducer behind the trial
    state machine ([hooks/useGameReducer.ts]), of the constants they use
    ([constants.ts], [types.ts]), of the numeric fields of the settings
    form ([components/Settings.tsx]) and of the driver that dispatches to
    the reducer ([components/Game.tsx]), followed by the properties of
    the engine.

    Conventions of the embedding.
    - A TypeScript [number] that holds a count, an index, a duration or a
      timestamp is a [Z]; a rate is a rational, see [number] below.
    - [null] is [None].
    - Reading a property of [undefined] throws a [TypeError] in
      JavaScript; every such place is a [deref] here, and functions that
      can throw return an [outcome].
    - [Math.random()] is a stream [rand : nat -> Q] of the successive
      values it returns, read through a cursor that the generator
      threads along; each [do ... while] of the generator runs on fuel.

    The embedding comes first, then the vocabulary of the statements and
    the sample data, then the lemmas and the properties of the engine. *)

From Stdlib Require Import ZArith QArith Qround Lia.
From stdpp Require Import base tactics option list list_numbers gmap strings.

Local Open Scope Z_scope.

(** ** Outcomes: a value, a thrown TypeError, or a loop cut off by its fuel *)

Inductive outcome (A : Type) : Type :=
  | Ok (a : A)
  | TypeError
  | OutOfFuel.
Arguments Ok {A} a.
Arguments TypeError {A}.
Arguments OutOfFuel {A}.

#[global] Instance outcome_ret : MRet outcome := fun _ a => Ok a.
#[global] Instance outcome_bind : MBind outcome := fun _ _ f m =>
  match m with
  | Ok a => f a
  | TypeError => TypeError
  | OutOfFuel => OutOfFuel
  end.
#[global] Instance outcome_fmap : FMap outcome := fun _ _ f m =>
  match m with
  | Ok a => Ok (f a)
  | TypeError => TypeError
  | OutOfFuel => OutOfFuel
  end.

(** [arr[i]] on a JavaScript array: [undefined] outside of [0 .. length-1]. *)
Definition js_index {A : Type} (arr : list A) (i : Z) : option A :=
  if decide (0 <= i) then arr !! Z.to_nat i else None.

(** [x.field] where [x] may be [undefined]. *)
Definition deref {A : Type} (x : option A) : outcome A :=
  match x with
  | Some a => Ok a
  | None => TypeError
  end.

(** ** types.ts *)

Inductive GameMode : Type := Visual | Audio | Dual.

#[global] Instance GameMode_eq_dec : EqDecision GameMode.
Proof. solve_decision. Defined.

Record GameSettings : Type := mkGameSettings {
  gameMode : GameMode;
  nLevel : Z;
  stimulusDuration : Z;
  interStimulusInterval : Z;
  sessionDuration : Z;
  visualMatchKey : string;
  audioMatchKey : string;
}.

Record Stimulus : Type := mkStimulus {
  visualPosition : option Z;
  audioLetter : option string;
}.

Inductive FeedbackType : Type := correct | miss | false_alarm.

#[global] Instance FeedbackType_eq_dec : EqDecision FeedbackType.
Proof. solve_decision. Defined.

(** A JavaScript number that results from a division: a rational, or the
    [NaN]/[Infinity] that dividing by zero gives. *)
Inductive number : Type :=
  | Finite (q : Q)
  | NotFinite.

Definition js_div (a b : Z) : number :=
  if decide (b = 0) then NotFinite else Finite (inject_Z a / inject_Z b)%Q.

Definition js_times100 (x : number) : number :=
  match x with
  | Finite q => Finite (q * 100)%Q
  | NotFinite => NotFinite
  end.

Record ModeResultMetrics : Type := mkMetrics {
  hits : Z;
  misses : Z;
  falseAlarms : Z;
  errors : Z;
  totalMatches : Z;
  rate : number;
}.

Record GameResults : Type := mkGameResults {
  results_settings : GameSettings;
  totalTrials : Z;
  visual : option ModeResultMetrics;
  audio : option ModeResultMetrics;
  overallSuccessRate : number;
}.

Inductive Status : Type := idle | settings_status | running | paused | finished.

(** One response slot: [true] is a press, [null] is no response yet. *)
Record Response : Type := mkResponse {
  r_visual : option bool;
  r_audio : option bool;
}.

Record Feedback : Type := mkFeedback {
  f_visual : option FeedbackType;
  f_audio : option FeedbackType;
}.

Inductive ResponseType : Type := visual_response | audio_response.

#[global] Instance ResponseType_eq_dec : EqDecision ResponseType.
Proof. solve_decision. Defined.

Record GameReducerState : Type := mkState {
  status : Status;
  settings : option GameSettings;
  stimulusSequence : list Stimulus;
  userResponses : gmap Z Response;
  currentTrial : Z;
  activeVisualStimulus : option Z;
  activeAudioStimulus : option string;
  feedback : Feedback;
  score : Z;
  elapsedTime : Z;
  results : option GameResults;
  showFeedbackUntil : Z;
}.

Inductive GameAction : Type :=
  | START_GAME (st : GameSettings) (sequence : list Stimulus)
  | RUN_GAME
  | STOP_GAME
  | PAUSE_GAME
  | RESUME_GAME
  | NEXT_TRIAL (currentTime : Z) (st : GameSettings)
  | REGISTER_RESPONSE (responseType : ResponseType) (currentTime : Z) (st : GameSettings)
  | SHOW_FEEDBACK (fb : Feedback) (duration : Z)
  | CLEAR_FEEDBACK
  | UPDATE_ELAPSED_TIME (payload : Z)
  | END_SESSION
  | CLEAR_VISUAL_STIMULUS.

(** ** constants.ts *)

Definition DEFAULT_SETTINGS : GameSettings :=
  {| gameMode := Dual;
     nLevel := 2;
     stimulusDuration := 1500;
     interStimulusInterval := 2500;
     sessionDuration := 120;
     visualMatchKey := "a";
     audioMatchKey := "l" |}.

Definition AUDIO_LETTERS : list string := ["C"; "H"; "K"; "L"; "Q"; "R"; "S"; "T"]%string.

Definition GRID_SIZE : Z := 3.
Definition GRID_CELL_COUNT : Z := GRID_SIZE * GRID_SIZE.

Definition FEEDBACK_DURATION_MS : Z := 500.

(** ** gameLogic.ts: generateSequence *)

Definition Qlt_bool (x y : Q) : bool := negb (Qle_bool y x).

(** The loop variables of [generateSequence] that live across trials: the
    array built so far, the two match counters and the cursor into the
    random stream. [decisions] is not in the source: it logs, for every
    trial, which of the two [if]s took its match branch, so that "a match
    was decided at trial i" can be stated. *)
Record GenState : Type := mkGenState {
  sequence : list Stimulus;
  visualMatchesCreated : Z;
  audioMatchesCreated : Z;
  cursor : nat;
  decisions : list (bool * bool);
}.

Section Generator.

(** [rand k] is what the k-th call of [Math.random()] returns. *)
Variable rand : nat -> Q.

Definition targetMatchProbability : Q := 25 # 100.

Definition getRandomVisual (mode : GameMode) (c : nat) : option Z * nat :=
  if decide (mode = Audio) then (None, c)
  else (Some (Qfloor (rand c * inject_Z GRID_CELL_COUNT)), S c).

Definition getRandomAudio (mode : GameMode) (c : nat) : option string * nat :=
  if decide (mode = Visual) then (None, c)
  else (js_index AUDIO_LETTERS
          (Qfloor (rand c * inject_Z (Z.of_nat (length AUDIO_LETTERS)))), S c).

(** The source writes the same code twice, once per channel. [enabled]
    is [gameMode !== GameMode.Audio] for the visual channel and
    [gameMode !== GameMode.Visual] for the audio one, [field] the
    property read from a stimulus, [getRandom] the channel's helper. *)
Section Channel.
Context {A : Type} `{EqDecision A}.
Variable enabled : bool.
Variable field : Stimulus -> option A.
Variable getRandom : nat -> option A * nat.
Variable built : list Stimulus.
Variable n i : Z.

(** [do { v = getRandom(); }
     while (i >= nLevel && enabled && v === sequence[i - nLevel].field && v !== null);] *)
Fixpoint redraw (fuel : nat) (c : nat) : outcome (option A * nat) :=
  match fuel with
  | O => OutOfFuel
  | S fuel' =>
      let '(v, c') := getRandom c in
      if (n <=? i) && enabled then
        nBack ← deref (js_index built (i - n));
        if bool_decide (v = field nBack) && bool_decide (v ≠ None)
        then redraw fuel' c'
        else Ok (v, c')
      else Ok (v, c')
  end.

(** [if (i >= nLevel && enabled && (force || Math.random() < targetMatchProbability))
      { v = sequence[i - nLevel].field; created++; }
    else { do ... while ... }]
    The result carries the value, whether the match branch was taken,
    and the cursor. [Math.random()] is only called when the tests
    before it hold and [force] does not. *)
Definition channel_value (fuel : nat) (force : bool) (c : nat)
  : outcome (option A * bool * nat) :=
  if (n <=? i) && enabled then
    let '(take, c1) :=
      if force then (true, c) else (Qlt_bool (rand c) targetMatchProbability, S c) in
    if take then
      nBack ← deref (js_index built (i - n));
      Ok (field nBack, true, c1)
    else
      '(v, c2) ← redraw fuel c1; Ok (v, false, c2)
  else
    '(v, c2) ← redraw fuel c; Ok (v, false, c2).
End Channel.

(** [gameMode !== disabling ? Math.ceil(sessionDuration / 30 * 3) : 0],
    computed on the rationals; for the 120 seconds of the default
    session the floating-point quotient and product are exact as well. *)
Definition minMatches (st : GameSettings) (disabling : GameMode) : Z :=
  if decide (gameMode st ≠ disabling)
  then Qceiling (inject_Z (sessionDuration st) / 30 * 3)
  else 0.

(** The body of the [for] loop at trial [i]. *)
Definition trial (fuel : nat) (st : GameSettings) (numTrials : Z) (i : Z) (g : GenState)
  : outcome GenState :=
  let mode := gameMode st in
  let minVisualMatches := minMatches st Audio in
  let minAudioMatches := minMatches st Visual in
  let remainingTrials := numTrials - i in
  let minRemainingVisual := Z.max 0 (minVisualMatches - visualMatchesCreated g) in
  let minRemainingAudio := Z.max 0 (minAudioMatches - audioMatchesCreated g) in
  let forceVisualMatch :=
    (nLevel st <=? i) && (remainingTrials <=? minRemainingVisual * 2)
    && (0 <? minRemainingVisual) && bool_decide (mode ≠ Audio) in
  let forceAudioMatch :=
    (nLevel st <=? i) && (remainingTrials <=? minRemainingAudio * 2)
    && (0 <? minRemainingAudio) && bool_decide (mode ≠ Visual) in
  '(visualPosition, vmatch, c1) ←
    channel_value (bool_decide (mode ≠ Audio)) visualPosition (getRandomVisual mode)
      (sequence g) (nLevel st) i fuel forceVisualMatch (cursor g);
  '(audioLetter, amatch, c2) ←
    channel_value (bool_decide (mode ≠ Visual)) audioLetter (getRandomAudio mode)
      (sequence g) (nLevel st) i fuel forceAudioMatch c1;
  Ok {| sequence := sequence g ++ [mkStimulus visualPosition audioLetter];
        visualMatchesCreated := visualMatchesCreated g + Z.b2z vmatch;
        audioMatchesCreated := audioMatchesCreated g + Z.b2z amatch;
        cursor := c2;
        decisions := decisions g ++ [(vmatch, amatch)] |}.

(** [for (let i = ...; i < numTrials; i++)], with [k] trials left. *)
Fixpoint trials (fuel : nat) (st : GameSettings) (numTrials : Z) (k : nat) (i : Z)
    (g : GenState) : outcome GenState :=
  match k with
  | O => Ok g
  | S k' => g' ← trial fuel st numTrials i g; trials fuel st numTrials k' (i + 1) g'
  end.

Definition initialGenState : GenState :=
  {| sequence := []; visualMatchesCreated := 0; audioMatchesCreated := 0;
     cursor := 0%nat; decisions := [] |}.

(** [Math.floor((sessionDuration * 1000) / trialDuration)], called with a
    positive [trialDuration] only. *)
Definition numTrialsOf (st : GameSettings) : Z :=
  (sessionDuration st * 1000) `div` (stimulusDuration st + interStimulusInterval st).

(** [generateSequence] together with its final loop variables. [fuel]
    bounds the iterations of each [do ... while]. *)
Definition generateTrace (fuel : nat) (st : GameSettings) : outcome GenState :=
  let trialDuration := stimulusDuration st + interStimulusInterval st in
  if decide (trialDuration <= 0) then Ok initialGenState
  else
    let numTrials := numTrialsOf st in
    trials fuel st numTrials (Z.to_nat numTrials) 0 initialGenState.

Definition generateSequence (fuel : nat) (st : GameSettings) : outcome (list Stimulus) :=
  sequence <$> generateTrace fuel st.

End Generator.

(** ** gameLogic.ts: calculateResults *)

Definition initResultCounters : ModeResultMetrics :=
  {| hits := 0; misses := 0; falseAlarms := 0; errors := 0; totalMatches := 0;
     rate := Finite 0 |}.

Definition blankResponse : Response := {| r_visual := None; r_audio := None |}.

(** One channel of the loop body, as for the generator: [res] is
    [visualResults] or [audioResults] (null for a disabled channel),
    [pressed] is [userResponse.channel === true].
    [if (res && current.field !== null && nBack.field !== null) ...]:
    [&&] reads [current] only when [res] is not null, and [nBack] only
    when [current.field] is not null. *)
Definition countTrial {A : Type} `{EqDecision A} (field : Stimulus -> option A)
    (pressed : bool) (currentStimulus nBackStimulus : option Stimulus)
    (res : option ModeResultMetrics) : outcome (option ModeResultMetrics) :=
  match res with
  | None => Ok None
  | Some m =>
      cur ← deref currentStimulus;
      match field cur with
      | None => Ok (Some m)
      | Some v =>
          nBack ← deref nBackStimulus;
          match field nBack with
          | None => Ok (Some m)
          | Some w =>
              if decide (v = w) then
                if pressed
                then Ok (Some {| hits := hits m + 1; misses := misses m;
                                 falseAlarms := falseAlarms m; errors := errors m;
                                 totalMatches := totalMatches m + 1; rate := rate m |})
                else Ok (Some {| hits := hits m; misses := misses m + 1;
                                 falseAlarms := falseAlarms m; errors := errors m;
                                 totalMatches := totalMatches m + 1; rate := rate m |})
              else
                if pressed
                then Ok (Some {| hits := hits m; misses := misses m;
                                 falseAlarms := falseAlarms m + 1; errors := errors m;
                                 totalMatches := totalMatches m; rate := rate m |})
                else Ok (Some m)
          end
      end
  end.

(** [for (let i = nLevel; i < numTrials; i++)], with [k] trials left. *)
Fixpoint countTrials (n : Z) (stimuli : list Stimulus) (responses : gmap Z Response)
    (k : nat) (i : Z) (vr ar : option ModeResultMetrics)
    : outcome (option ModeResultMetrics * option ModeResultMetrics) :=
  match k with
  | O => Ok (vr, ar)
  | S k' =>
      let currentStimulus := js_index stimuli i in
      let nBackStimulus := js_index stimuli (i - n) in
      let userResponse := default blankResponse (responses !! i) in
      vr' ← countTrial visualPosition (bool_decide (r_visual userResponse = Some true))
              currentStimulus nBackStimulus vr;
      ar' ← countTrial audioLetter (bool_decide (r_audio userResponse = Some true))
              currentStimulus nBackStimulus ar;
      countTrials n stimuli responses k' (i + 1) vr' ar'
  end.

(** [errors] and [rate] of one channel, once the loop is over. *)
Definition deriveMetrics (m : ModeResultMetrics) : ModeResultMetrics :=
  let errs := misses m + falseAlarms m in
  {| hits := hits m; misses := misses m; falseAlarms := falseAlarms m;
     errors := errs; totalMatches := totalMatches m;
     rate := if decide (0 < totalMatches m)
             then js_times100 (js_div (totalMatches m - errs) (totalMatches m))
             else if decide (errs = 0) then Finite 100 else Finite 0 |}.

Definition calculateResults (st : GameSettings) (gameState : GameReducerState)
    : outcome GameResults :=
  let numTrials := Z.of_nat (length (stimulusSequence gameState)) in
  let visualResults :=
    if decide (gameMode st ≠ Audio) then Some initResultCounters else None in
  let audioResults :=
    if decide (gameMode st ≠ Visual) then Some initResultCounters else None in
  '(vr, ar) ← countTrials (nLevel st) (stimulusSequence gameState) (userResponses gameState)
                (Z.to_nat (numTrials - nLevel st)) (nLevel st) visualResults audioResults;
  let vr := deriveMetrics <$> vr in
  let ar := deriveMetrics <$> ar in
  let totalOverallHits := from_option hits 0 vr + from_option hits 0 ar in
  let totalOverallMatches := from_option totalMatches 0 vr + from_option totalMatches 0 ar in
  Ok {| results_settings := st;
        totalTrials := numTrials;
        visual := vr;
        audio := ar;
        overallSuccessRate :=
          if decide (0 < totalOverallMatches)
          then js_times100 (js_div totalOverallHits totalOverallMatches)
          else Finite 0 |}.

Definition determineFeedback (isMatch : bool) (userPressedMatch : option bool)
    : option FeedbackType :=
  if isMatch then
    if bool_decide (userPressedMatch = Some true) then Some correct else None
  else
    if bool_decide (userPressedMatch = Some true) then Some false_alarm else None.

Definition determineMissFeedback (isMatch : bool) (userPressedMatch : option bool)
    : option FeedbackType :=
  if isMatch && bool_decide (userPressedMatch ≠ Some true) then Some miss else None.

(** ** useGameReducer.ts *)

Definition noFeedback : Feedback := {| f_visual := None; f_audio := None |}.

(** [new Array(len).fill(null).map(() => ({ visual: null, audio: null }))] *)
Definition blankResponses (len : nat) : gmap Z Response :=
  list_to_map ((λ i, (i, blankResponse)) <$> seqZ 0 (Z.of_nat len)).

Definition initialState : GameReducerState :=
  {| status := idle; score := 0; currentTrial := -1; elapsedTime := 0;
     stimulusSequence := []; userResponses := ∅;
     activeVisualStimulus := None; activeAudioStimulus := None;
     feedback := noFeedback; showFeedbackUntil := 0; results := None;
     settings := None |}.

Definition set_status (s : GameReducerState) (x : Status) : GameReducerState :=
  {| status := x; settings := settings s; stimulusSequence := stimulusSequence s;
     userResponses := userResponses s; currentTrial := currentTrial s;
     activeVisualStimulus := activeVisualStimulus s;
     activeAudioStimulus := activeAudioStimulus s; feedback := feedback s;
     score := score s; elapsedTime := elapsedTime s; results := results s;
     showFeedbackUntil := showFeedbackUntil s |}.

(** NEXT_TRIAL, one channel:
    [const matchOccurred = prev.field !== null && prev.field === nBack.field;
     missFeedback.channel = determineMissFeedback(matchOccurred, prevResponse.channel);] *)
Definition missFeedbackOf {A : Type} `{EqDecision A} (field : Stimulus -> option A)
    (resp : Response -> option bool) (prevStimulus nBackStimulus : option Stimulus)
    (prevResponse : option Response) : outcome (option FeedbackType) :=
  prev ← deref prevStimulus;
  matchOccurred ←
    match field prev with
    | None => Ok false
    | Some v => nBack ← deref nBackStimulus; Ok (bool_decide (Some v = field nBack))
    end;
  r ← deref prevResponse;
  Ok (determineMissFeedback matchOccurred (resp r)).

(** REGISTER_RESPONSE, one channel:
    [cur.field !== null && nBack.field !== null && cur.field === nBack.field] *)
Definition isMatchOf {A : Type} `{EqDecision A} (field : Stimulus -> option A)
    (currentStimulus nBackStimulus : option Stimulus) : outcome bool :=
  cur ← deref currentStimulus;
  match field cur with
  | None => Ok false
  | Some v =>
      nBack ← deref nBackStimulus;
      match field nBack with
      | None => Ok false
      | Some w => Ok (bool_decide (v = w))
      end
  end.

(** [state.userResponses[i]?.channel !== null]: true when the slot holds a
    response, and also when there is no slot at all ([undefined !== null]). *)
Definition notNull (slot : option Response) (resp : Response -> option bool) : bool :=
  match slot with
  | None => true
  | Some r => bool_decide (resp r ≠ None)
  end.

(** A string used as a condition: [null] and the empty string are falsy. *)
Definition truthy (x : option string) : option string :=
  match x with
  | Some s => if decide (s = EmptyString) then None else Some s
  | None => None
  end.

Definition scoreOf (fb : FeedbackType) : Z :=
  match fb with
  | correct => 1
  | false_alarm => -1
  | miss => 0
  end.

(** [now] is what [Date.now()] returns when the reducer runs. *)
Definition gameReducer (now : Z) (state : GameReducerState) (action : GameAction)
    : outcome GameReducerState :=
  match action with
  | START_GAME st sequence =>
      Ok {| status := idle; settings := Some st; stimulusSequence := sequence;
            userResponses := blankResponses (length sequence); currentTrial := -1;
            activeVisualStimulus := None; activeAudioStimulus := None;
            feedback := noFeedback; score := 0; elapsedTime := 0; results := None;
            showFeedbackUntil := 0 |}
  | RUN_GAME =>
      match status state with
      | idle => Ok (set_status state running)
      | _ => Ok state
      end
  | STOP_GAME =>
      Ok {| status := idle; settings := settings state;
            stimulusSequence := stimulusSequence state;
            userResponses := blankResponses (length (stimulusSequence state));
            currentTrial := -1;
            activeVisualStimulus := None; activeAudioStimulus := None;
            feedback := noFeedback; score := 0; elapsedTime := 0; results := None;
            showFeedbackUntil := 0 |}
  | PAUSE_GAME =>
      match status state with
      | running => Ok (set_status state paused)
      | _ => Ok state
      end
  | RESUME_GAME =>
      match status state with
      | paused => Ok (set_status state running)
      | _ => Ok state
      end
  | NEXT_TRIAL currentTime st =>
      let nextTrialIndex := currentTrial state + 1 in
      if decide (Z.of_nat (length (stimulusSequence state)) <= nextTrialIndex)
      then Ok (set_status state finished)
      else
        let currentStimulus := js_index (stimulusSequence state) nextTrialIndex in
        let n := nLevel st in
        missFeedback ←
          (if decide (n <= currentTrial state) then
             let prevTrialIndex := currentTrial state in
             let prevStimulus := js_index (stimulusSequence state) prevTrialIndex in
             let nBackStimulus := js_index (stimulusSequence state) (prevTrialIndex - n) in
             let prevResponse := userResponses state !! prevTrialIndex in
             v ← (if decide (gameMode st ≠ Audio)
                  then missFeedbackOf visualPosition r_visual prevStimulus nBackStimulus
                         prevResponse
                  else Ok None);
             a ← (if decide (gameMode st ≠ Visual)
                  then missFeedbackOf audioLetter r_audio prevStimulus nBackStimulus
                         prevResponse
                  else Ok None);
             Ok {| f_visual := v; f_audio := a |}
           else Ok noFeedback);
        let scoreDelta :=
          (if decide (f_visual missFeedback = Some miss) then -1 else 0)
          + (if decide (f_audio missFeedback = Some miss) then -1 else 0) in
        cur ← deref currentStimulus;
        let anyFeedback :=
          bool_decide (f_visual missFeedback ≠ None ∨ f_audio missFeedback ≠ None) in
        Ok {| status := status state; settings := settings state;
              stimulusSequence := stimulusSequence state;
              userResponses := userResponses state;
              currentTrial := nextTrialIndex;
              activeVisualStimulus := visualPosition cur;
              activeAudioStimulus := truthy (audioLetter cur);
              feedback := if anyFeedback then missFeedback else noFeedback;
              score := score state + scoreDelta;
              elapsedTime := elapsedTime state;
              results := results state;
              showFeedbackUntil :=
                if anyFeedback then currentTime + FEEDBACK_DURATION_MS else 0 |}
  | REGISTER_RESPONSE responseType currentTime _ =>
      st ← deref (settings state);
      let n := nLevel st in
      let currentTrialIndex := currentTrial state in
      if decide (currentTrialIndex < n) then Ok state
      else
        let slot := userResponses state !! currentTrialIndex in
        if bool_decide (responseType = visual_response) && notNull slot r_visual
        then Ok state
        else if bool_decide (responseType = audio_response) && notNull slot r_audio
        then Ok state
        else
          let currentStimulus := js_index (stimulusSequence state) currentTrialIndex in
          let nBackStimulus := js_index (stimulusSequence state) (currentTrialIndex - n) in
          let trialResponse := default blankResponse slot in
          (** [feedback] starts as a copy of [state.feedback]; a channel that
              produces feedback overwrites its own entry. *)
          '(updatedTrialResponse, fb, showFeedback, scoreDelta) ←
            (if bool_decide (responseType = visual_response)
                && bool_decide (gameMode st ≠ Audio) then
               isMatch ← isMatchOf visualPosition currentStimulus nBackStimulus;
               let updated := {| r_visual := Some true; r_audio := r_audio trialResponse |} in
               match determineFeedback isMatch (Some true) with
               | Some responseFeedback =>
                   Ok (updated,
                       {| f_visual := Some responseFeedback;
                          f_audio := f_audio (feedback state) |},
                       true, scoreOf responseFeedback)
               | None => Ok (updated, feedback state, false, 0)
               end
             else if bool_decide (responseType = audio_response)
                     && bool_decide (gameMode st ≠ Visual) then
               isMatch ← isMatchOf audioLetter currentStimulus nBackStimulus;
               let updated := {| r_visual := r_visual trialResponse; r_audio := Some true |} in
               match determineFeedback isMatch (Some true) with
               | Some responseFeedback =>
                   Ok (updated,
                       {| f_visual := f_visual (feedback state);
                          f_audio := Some responseFeedback |},
                       true, scoreOf responseFeedback)
               | None => Ok (updated, feedback state, false, 0)
               end
             else Ok (trialResponse, feedback state, false, 0));
          Ok {| status := status state; settings := settings state;
                stimulusSequence := stimulusSequence state;
                userResponses := <[currentTrialIndex := updatedTrialResponse]>
                                   (userResponses state);
                currentTrial := currentTrial state;
                activeVisualStimulus := activeVisualStimulus state;
                activeAudioStimulus := activeAudioStimulus state;
                feedback := if showFeedback : bool then fb else feedback state;
                score := score state + scoreDelta;
                elapsedTime := elapsedTime state;
                results := results state;
                showFeedbackUntil :=
                  if showFeedback then currentTime + FEEDBACK_DURATION_MS
                  else showFeedbackUntil state |}
  | SHOW_FEEDBACK fb duration =>
      Ok {| status := status state; settings := settings state;
            stimulusSequence := stimulusSequence state;
            userResponses := userResponses state; currentTrial := currentTrial state;
            activeVisualStimulus := activeVisualStimulus state;
            activeAudioStimulus := activeAudioStimulus state;
            feedback := fb; score := score state;
            elapsedTime := elapsedTime state; results := results state;
            showFeedbackUntil := now + duration |}
  | CLEAR_FEEDBACK =>
      if decide (showFeedbackUntil state <= now) then
        Ok {| status := status state; settings := settings state;
              stimulusSequence := stimulusSequence state;
              userResponses := userResponses state; currentTrial := currentTrial state;
              activeVisualStimulus := activeVisualStimulus state;
              activeAudioStimulus := activeAudioStimulus state;
              feedback := noFeedback; score := score state;
              elapsedTime := elapsedTime state; results := results state;
              showFeedbackUntil := 0 |}
      else Ok state
  | UPDATE_ELAPSED_TIME payload =>
      Ok {| status := status state; settings := settings state;
            stimulusSequence := stimulusSequence state;
            userResponses := userResponses state; currentTrial := currentTrial state;
            activeVisualStimulus := activeVisualStimulus state;
            activeAudioStimulus := activeAudioStimulus state;
            feedback := feedback state; score := score state;
            elapsedTime := payload; results := results state;
            showFeedbackUntil := showFeedbackUntil state |}
  | CLEAR_VISUAL_STIMULUS =>
      Ok {| status := status state; settings := settings state;
            stimulusSequence := stimulusSequence state;
            userResponses := userResponses state; currentTrial := currentTrial state;
            activeVisualStimulus := None;
            activeAudioStimulus := activeAudioStimulus state;
            feedback := feedback state; score := score state;
            elapsedTime := elapsedTime state; results := results state;
            showFeedbackUntil := showFeedbackUntil state |}
  | END_SESSION =>
      match settings state with
      | None => Ok (set_status state settings_status)
      | Some st =>
          finalResults ← calculateResults st state;
          Ok {| status := finished; settings := settings state;
                stimulusSequence := stimulusSequence state;
                userResponses := userResponses state;
                currentTrial := currentTrial state;
                activeVisualStimulus := None; activeAudioStimulus := None;
                feedback := noFeedback; score := score state;
                elapsedTime := elapsedTime state; results := Some finalResults;
                showFeedbackUntil := showFeedbackUntil state |}
      end
  end.

(** ** constants.ts: the ranges of the settings form *)

Definition MIN_N_LEVEL : Z := 1.
Definition MAX_N_LEVEL : Z := 5.
Definition MIN_STIMULUS_DURATION : Z := 500.
Definition MAX_STIMULUS_DURATION : Z := 3000.
Definition MIN_ISI : Z := 500.
Definition MAX_ISI : Z := 5000.
Definition MIN_SESSION_DURATION : Z := 30.
Definition MAX_SESSION_DURATION : Z := 600.

(** ** Settings.tsx: handleChange, the numeric fields *)

(** [Math.max(lo, Math.min(hi, v))] on what [parseInt] returned: a number,
    or [NaN] (here [None]), which both [Math.min] and [Math.max] pass on. *)
Definition clampNumber (lo hi : Z) (v : option Z) : option Z :=
  (λ x, Z.max lo (Z.min hi x)) <$> v.

(** The branch of [handleChange] taken for a numeric field: [name] is the
    name of the input, [parsed] is [parseInt(value, 10)]; the result is the
    value stored in the settings under [name]. *)
Definition handleChangeNumber (name : string) (parsed : option Z) : option Z :=
  let processedValue := parsed in
  let processedValue :=
    if decide (name = "nLevel"%string)
    then clampNumber MIN_N_LEVEL MAX_N_LEVEL processedValue else processedValue in
  let processedValue :=
    if decide (name = "stimulusDuration"%string)
    then clampNumber MIN_STIMULUS_DURATION MAX_STIMULUS_DURATION processedValue
    else processedValue in
  let processedValue :=
    if decide (name = "interStimulusInterval"%string)
    then clampNumber MIN_ISI MAX_ISI processedValue else processedValue in
  let processedValue :=
    if decide (name = "sessionDuration"%string)
    then clampNumber MIN_SESSION_DURATION MAX_SESSION_DURATION processedValue
    else processedValue in
  processedValue.

(** ** Game.tsx and App.tsx: the driver around the reducer *)

#[global] Instance Status_eq_dec : EqDecision Status.
Proof. solve_decision. Defined.

Section Driver.

(** [String.prototype.toLowerCase], whose case tables are not part of the
    repository. *)
Variable toLowerCase : string -> string.

(** App.tsx: the test that disables the Start button and the space bar. *)
Definition hasKeyConflict (st : GameSettings) : bool :=
  bool_decide (toLowerCase (visualMatchKey st) = toLowerCase (audioMatchKey st)).

(** Game.tsx, [handleKeyDown]: the response type that a key press
    dispatches, if any. [st] is the [settings] prop of the component and
    [eventKey] is [event.key]. *)
Definition handleKeyDown (statusNow : Status) (st : GameSettings) (eventKey : string)
  : option ResponseType :=
  if decide (statusNow ≠ running) then None
  else
    let key := toLowerCase eventKey in
    let responseType : option ResponseType := None in
    let responseType :=
      if (bool_decide (gameMode st = Visual) || bool_decide (gameMode st = Dual))
         && bool_decide (key = toLowerCase (visualMatchKey st))
      then Some visual_response else responseType in
    let responseType :=
      if (bool_decide (gameMode st = Audio) || bool_decide (gameMode st = Dual))
         && bool_decide (key = toLowerCase (audioMatchKey st))
      then
        if bool_decide (responseType = Some visual_response)
           && bool_decide (gameMode st = Dual)
           && bool_decide (visualMatchKey st = audioMatchKey st)
        then responseType
        else Some audio_response
      else responseType in
    responseType.

(** A key press as the reducer sees it: [handleKeyDown] followed by its
    [dispatch], when there is one. *)
Definition keyDown (now : Z) (state : GameReducerState) (st : GameSettings)
    (eventKey : string) (currentTime : Z) : outcome GameReducerState :=
  match handleKeyDown (status state) st eventKey with
  | Some responseType =>
      gameReducer now state (REGISTER_RESPONSE responseType currentTime st)
  | None => Ok state
  end.

(** Game.tsx, [gameTick], as the reducer sees it (its rescheduling is left
    to the timers). *)
Definition gameTick (now : Z) (state : GameReducerState) (st : GameSettings)
    (currentTime : Z) : outcome GameReducerState :=
  if decide (status state ≠ running) then Ok state
  else gameReducer now state (NEXT_TRIAL currentTime st).

(** Game.tsx, the effect on [isActive] when it turns true:
    [generateSequence], then START_GAME and RUN_GAME. *)
Definition startSession (rand : nat -> Q) (fuel : nat) (now : Z)
    (state : GameReducerState) (st : GameSettings) : outcome GameReducerState :=
  sequence ← generateSequence rand fuel st;
  state ← gameReducer now state (START_GAME st sequence);
  gameReducer now state RUN_GAME.

(** Game.tsx, the effect on [finished]: the results handed to [onGameEnd],
    if the effect fires. *)
Definition gameEndResults (st : GameSettings) (state : GameReducerState)
  : option (outcome GameResults) :=
  if decide (status state = finished) then Some (calculateResults st state) else None.

End Driver.

(** * Properties *)

(** ** Channels *)

(** A channel is named by the response type that answers it. *)
Definition channelEnabled (ch : ResponseType) (mode : GameMode) : Prop :=
  match ch with
  | visual_response => mode ≠ Audio
  | audio_response => mode ≠ Visual
  end.

#[global] Instance channelEnabled_dec ch mode : Decision (channelEnabled ch mode).
Proof. destruct ch; simpl; apply _. Defined.

Definition responseOn (ch : ResponseType) (r : Response) : option bool :=
  match ch with
  | visual_response => r_visual r
  | audio_response => r_audio r
  end.

Definition feedbackOn (ch : ResponseType) (f : Feedback) : option FeedbackType :=
  match ch with
  | visual_response => f_visual f
  | audio_response => f_audio f
  end.

Definition press (ch : ResponseType) (r : Response) : Response :=
  match ch with
  | visual_response => {| r_visual := Some true; r_audio := r_audio r |}
  | audio_response => {| r_visual := r_visual r; r_audio := Some true |}
  end.

(** The two stimuli carry the same non-null value on the channel. *)
Definition sameValue (ch : ResponseType) (a b : Stimulus) : Prop :=
  match ch with
  | visual_response => ∃ v, visualPosition a = Some v ∧ visualPosition b = Some v
  | audio_response => ∃ l, audioLetter a = Some l ∧ audioLetter b = Some l
  end.

#[global] Instance sameValue_dec ch a b : Decision (sameValue ch a b).
Proof.
  destruct ch; simpl.
  - destruct (visualPosition a) as [v|] eqn:Ha.
    + destruct (decide (visualPosition b = Some v)) as [Hb|Hb].
      * left. eauto.
      * right. intros (w & Hw & Hb'). congruence.
    + right. intros (w & Hw & _). congruence.
  - destruct (audioLetter a) as [v|] eqn:Ha.
    + destruct (decide (audioLetter b = Some v)) as [Hb|Hb].
      * left. eauto.
      * right. intros (w & Hw & Hb'). congruence.
    + right. intros (w & Hw & _). congruence.
Defined.

(** A trial is missed on a channel when the channel is enabled, the
    trial's stimulus carries the same non-null value as the one N trials
    before it, and the recorded response is not a press. *)
Definition missed (mode : GameMode) (ch : ResponseType) (prev nBack : Stimulus)
    (r : Response) : bool :=
  bool_decide (channelEnabled ch mode ∧ sameValue ch prev nBack
               ∧ responseOn ch r ≠ Some true).

(** ** Random streams *)

(** Every value of the random stream lies in [0, 1), as [Math.random()]
    promises. *)
Definition unitInterval (rand : nat → Q) : Prop :=
  ∀ k, (0 <= rand k)%Q ∧ (rand k < 1)%Q.

(** From every position on, the stream sooner or later yields a grid cell
    other than any given one and a letter other than any given one.
    [Math.random()] fails this with probability 0; a stream that fails it
    keeps a [do ... while] of the generator spinning forever. *)
Definition neverStuck (rand : nat → Q) : Prop :=
  ∀ c : nat,
    (∀ x : Z, ∃ k, Qfloor (rand (c + k)%nat * inject_Z GRID_CELL_COUNT) ≠ x)
    ∧ (∀ l : string,
         ∃ k, js_index AUDIO_LETTERS
                (Qfloor (rand (c + k)%nat * inject_Z (Z.of_nat (length AUDIO_LETTERS))))
              ≠ Some l).

(** ** The generator, channel by channel *)

(** The non-null value of a channel, the counter and the logged decision
    of a channel, and its minimum number of matches. *)
Definition hasValue (ch : ResponseType) (s : Stimulus) : Prop :=
  match ch with
  | visual_response => visualPosition s ≠ None
  | audio_response => audioLetter s ≠ None
  end.

Definition created (ch : ResponseType) (g : GenState) : Z :=
  match ch with
  | visual_response => visualMatchesCreated g
  | audio_response => audioMatchesCreated g
  end.

Definition decidedMatch (ch : ResponseType) (d : bool * bool) : bool :=
  match ch with
  | visual_response => d.1
  | audio_response => d.2
  end.

Definition minMatchesOn (ch : ResponseType) (st : GameSettings) : Z :=
  match ch with
  | visual_response => minMatches st Audio
  | audio_response => minMatches st Visual
  end.

(** A true match at index [i], re-derived from the sequence alone: [i] is
    at or past N and the stimuli at [i] and [i - N] carry the same
    non-null value on the channel. *)
Definition matchAt (ch : ResponseType) (n : Z) (stimuli : list Stimulus) (i : Z) : Prop :=
  n <= i
  ∧ ∃ cur nBack, js_index stimuli i = Some cur
                 ∧ js_index stimuli (i - n) = Some nBack
                 ∧ sameValue ch cur nBack.

#[global] Instance matchAt_dec ch n stimuli i : Decision (matchAt ch n stimuli i).
Proof.
  unfold matchAt.
  destruct (decide (n <= i)) as [Hn|Hn]; [|right; tauto].
  destruct (js_index stimuli i) as [cur|]; [|right; intros (_ & ? & ? & ? & _); discriminate].
  destruct (js_index stimuli (i - n)) as [nBack|];
    [|right; intros (_ & ? & ? & _ & ? & _); discriminate].
  destruct (decide (sameValue ch cur nBack)) as [Hs|Hs].
  - left. eauto 6.
  - right. intros (_ & ? & ? & [= <-] & [= <-] & ?). contradiction.
Defined.

(** The number of true matches of a sequence on a channel. *)
Definition countMatches (ch : ResponseType) (n : Z) (stimuli : list Stimulus) : nat :=
  length (filter (matchAt ch n stimuli) (seqZ 0 (Z.of_nat (length stimuli)))).

(** The two stimuli carry two different non-null values on the channel. *)
Definition valuesDiffer (ch : ResponseType) (a b : Stimulus) : Prop :=
  match ch with
  | visual_response =>
      ∃ v w, visualPosition a = Some v ∧ visualPosition b = Some w ∧ v ≠ w
  | audio_response =>
      ∃ v w, audioLetter a = Some v ∧ audioLetter b = Some w ∧ v ≠ w
  end.

(** What holds of an enabled channel before every trial [i]: the array
    has [i] entries and the log as many; every stimulus has a value on
    the channel; a trial logged without a decided match differs from
    its N-back trial; and every counted match is a true match. *)
Definition genInv (st : GameSettings) (ch : ResponseType) (i : Z) (g : GenState) : Prop :=
  i = Z.of_nat (length (sequence g))
  ∧ length (decisions g) = length (sequence g)
  ∧ (∀ j s, js_index (sequence g) j = Some s → hasValue ch s)
  ∧ (∀ j d, nLevel st <= j → js_index (decisions g) j = Some d →
            decidedMatch ch d = false →
            ∃ cur nBack, js_index (sequence g) j = Some cur
                         ∧ js_index (sequence g) (j - nLevel st) = Some nBack
                         ∧ valuesDiffer ch cur nBack)
  ∧ 0 <= created ch g <= Z.of_nat (countMatches ch (nLevel st) (sequence g)).

(** The forced matches keep the still-needed matches within reach:
    twice their number never exceeds the trials left plus one. *)
Definition forceInv (st : GameSettings) (numTrials : Z) (ch : ResponseType) (i : Z)
    (g : GenState) : Prop :=
  2 * Z.max 0 (minMatchesOn ch st - created ch g)
  <= numTrials - Z.max i (nLevel st) + 1.

(** What also holds of an enabled channel before every trial: each decided
    match is a true match, and no true match goes uncounted. *)
Definition decidedInv (st : GameSettings) (ch : ResponseType) (g : GenState) : Prop :=
  (∀ j d, js_index (decisions g) j = Some d → decidedMatch ch d = true →
          matchAt ch (nLevel st) (sequence g) j)
  ∧ Z.of_nat (countMatches ch (nLevel st) (sequence g)) <= created ch g.

(** ** States of the reducer *)

(** A state as the reducer builds them: the trial index is -1 or an index
    of the sequence, and every index of the sequence has a response slot. *)
Definition wellFormed (s : GameReducerState) : Prop :=
  -1 <= currentTrial s < Z.of_nat (length (stimulusSequence s))
  ∧ ∀ i, 0 <= i < Z.of_nat (length (stimulusSequence s)) →
         is_Some (userResponses s !! i).

(** ** Results *)

(** What [calculateResults] reports for a channel on which no trial was
    compared. *)
Definition zeroMetrics : ModeResultMetrics :=
  {| hits := 0; misses := 0; falseAlarms := 0; errors := 0; totalMatches := 0;
     rate := Finite 100 |}.

(** ** Sample data *)

(** A session of four trials in Dual mode with N = 2; the third trial
    repeats the first one on the visual channel and on no other. *)
Definition demoSettings : GameSettings :=
  {| gameMode := Dual; nLevel := 2; stimulusDuration := 1500;
     interStimulusInterval := 2500; sessionDuration := 12;
     visualMatchKey := "a"; audioMatchKey := "l" |}.

Definition demoSequence : list Stimulus :=
  [ mkStimulus (Some 4) (Some "C"%string);
    mkStimulus (Some 7) (Some "H"%string);
    mkStimulus (Some 4) (Some "K"%string);
    mkStimulus (Some 1) (Some "H"%string) ].

Definition demoState (st : Status) (trial : Z) : GameReducerState :=
  {| status := st; settings := Some demoSettings; stimulusSequence := demoSequence;
     userResponses := blankResponses 4; currentTrial := trial;
     activeVisualStimulus := Some 4; activeAudioStimulus := Some "K"%string;
     feedback := noFeedback; score := 5; elapsedTime := 9; results := None;
     showFeedbackUntil := 0 |}.

(** The same state under settings in Audio mode. *)
Definition audioOnly (s : GameReducerState) : GameReducerState :=
  {| status := status s;
     settings := Some {| gameMode := Audio; nLevel := 2; stimulusDuration := 1500;
                         interStimulusInterval := 2500; sessionDuration := 12;
                         visualMatchKey := "a"; audioMatchKey := "l" |};
     stimulusSequence := stimulusSequence s; userResponses := userResponses s;
     currentTrial := currentTrial s; activeVisualStimulus := activeVisualStimulus s;
     activeAudioStimulus := activeAudioStimulus s; feedback := feedback s;
     score := score s; elapsedTime := elapsedTime s; results := results s;
     showFeedbackUntil := showFeedbackUntil s |}.

(** Settings whose N equals the length of [demoSequence]. *)
Definition fourBackSettings : GameSettings :=
  {| gameMode := Dual; nLevel := 4; stimulusDuration := 1500;
     interStimulusInterval := 2500; sessionDuration := 120;
     visualMatchKey := "a"; audioMatchKey := "l" |}.

(** Two settings records outside of what the settings form lets through,
    but well typed: a negative session duration, and N = 0. *)
Definition negativeSession : GameSettings :=
  {| gameMode := Dual; nLevel := 2; stimulusDuration := 1500;
     interStimulusInterval := 2500; sessionDuration := -1;
     visualMatchKey := "a"; audioMatchKey := "l" |}.

Definition zeroBack : GameSettings :=
  {| gameMode := Dual; nLevel := 0; stimulusDuration := 1500;
     interStimulusInterval := 2500; sessionDuration := 120;
     visualMatchKey := "a"; audioMatchKey := "l" |}.

(** A random stream: 0, 1/4, 1/2, 3/4, 0, 1/4, ... *)
Definition cycle4 (k : nat) : Q := inject_Z (Z.of_nat (k mod 4)) / 4.

(** The scoring scenario: N = 2, visual positions A B A C A (here 0 1 0 2
    0) in Visual mode, one press, on the visual channel at index 2. *)
Definition scenarioSettings : GameSettings :=
  {| gameMode := Visual; nLevel := 2; stimulusDuration := 1500;
     interStimulusInterval := 2500; sessionDuration := 20;
     visualMatchKey := "a"; audioMatchKey := "l" |}.

Definition scenarioState : GameReducerState :=
  {| status := running; settings := Some scenarioSettings;
     stimulusSequence := (λ v, mkStimulus (Some v) None) <$> [0; 1; 0; 2; 0];
     userResponses := <[2 := {| r_visual := Some true; r_audio := None |}]>
                        (blankResponses 5);
     currentTrial := 4; activeVisualStimulus := None; activeAudioStimulus := None;
     feedback := noFeedback; score := 1; elapsedTime := 20; results := None;
     showFeedbackUntil := 0 |}.

(** The scoring scenario played without a fault: presses at the two true
    matches, indices 2 and 4. *)
Definition flawlessState : GameReducerState :=
  {| status := finished; settings := Some scenarioSettings;
     stimulusSequence := stimulusSequence scenarioState;
     userResponses := <[4 := {| r_visual := Some true; r_audio := None |}]>
                        (userResponses scenarioState);
     currentTrial := 4; activeVisualStimulus := None; activeAudioStimulus := None;
     feedback := noFeedback; score := 2; elapsedTime := 20; results := None;
     showFeedbackUntil := 0 |}.

(** Settings whose four numbers lie in the ranges of the settings form. *)
Definition inFormRange (st : GameSettings) : Prop :=
  MIN_N_LEVEL <= nLevel st <= MAX_N_LEVEL
  ∧ MIN_STIMULUS_DURATION <= stimulusDuration st <= MAX_STIMULUS_DURATION
  ∧ MIN_ISI <= interStimulusInterval st <= MAX_ISI
  ∧ MIN_SESSION_DURATION <= sessionDuration st <= MAX_SESSION_DURATION.

(** The range of the numeric field called [name], if it has one. *)
Definition formRange (name : string) : option (Z * Z) :=
  if decide (name = "nLevel"%string) then Some (MIN_N_LEVEL, MAX_N_LEVEL)
  else if decide (name = "stimulusDuration"%string)
       then Some (MIN_STIMULUS_DURATION, MAX_STIMULUS_DURATION)
  else if decide (name = "interStimulusInterval"%string) then Some (MIN_ISI, MAX_ISI)
  else if decide (name = "sessionDuration"%string)
       then Some (MIN_SESSION_DURATION, MAX_SESSION_DURATION)
  else None.

(** A slow session within the ranges of the form: 30 seconds of trials of
    8 seconds each, at N = 1. *)
Definition slowSettings : GameSettings :=
  {| gameMode := Dual; nLevel := 1; stimulusDuration := 3000;
     interStimulusInterval := 5000; sessionDuration := 30;
     visualMatchKey := "a"; audioMatchKey := "l" |}.

(** Dual mode with one key for both channels. *)
Definition conflictSettings : GameSettings :=
  {| gameMode := Dual; nLevel := 2; stimulusDuration := 1500;
     interStimulusInterval := 2500; sessionDuration := 120;
     visualMatchKey := "a"; audioMatchKey := "a" |}.

(** The scoring scenario before its first trial. *)
Definition scenarioStart : GameReducerState :=
  {| status := running; settings := Some scenarioSettings;
     stimulusSequence := stimulusSequence scenarioState;
     userResponses := blankResponses 5;
     currentTrial := -1; activeVisualStimulus := None; activeAudioStimulus := None;
     feedback := noFeedback; score := 0; elapsedTime := 0; results := None;
     showFeedbackUntil := 0 |}.

(** A short game on it: three trials pass, the player presses at the
    match of trial 2 and, wrongly, at trial 3. *)
Definition scenarioPlay : list (Z * GameAction) :=
  [(0, NEXT_TRIAL 0 scenarioSettings); (4000, NEXT_TRIAL 4000 scenarioSettings);
   (8000, NEXT_TRIAL 8000 scenarioSettings);
   (9000, REGISTER_RESPONSE visual_response 9000 scenarioSettings);
   (9600, CLEAR_FEEDBACK);
   (12000, NEXT_TRIAL 12000 scenarioSettings);
   (13000, REGISTER_RESPONSE visual_response 13000 scenarioSettings)].

(** Running the reducer over a list of events. *)
Fixpoint runEvents (now : Z) (s : GameReducerState) (events : list GameAction)
    : outcome GameReducerState :=
  match events with
  | [] => Ok s
  | a :: rest => s' ← gameReducer now s a; runEvents now s' rest
  end.

(** ** Sessions *)

(** The match key of a channel. *)
Definition matchKey (ch : ResponseType) (st : GameSettings) : string :=
  match ch with
  | visual_response => visualMatchKey st
  | audio_response => audioMatchKey st
  end.

(** Running the reducer over a list of events, each with the value of
    [Date.now()] at which it is reduced. *)
Fixpoint runTimed (s : GameReducerState) (events : list (Z * GameAction))
    : outcome GameReducerState :=
  match events with
  | [] => Ok s
  | (now, a) :: rest => s' ← gameReducer now s a; runTimed s' rest
  end.

(** The game loop on its own: one [gameTick] per element of [times], each
    at the time [Date.now()] it carries. *)
Fixpoint runTicks (st : GameSettings) (s : GameReducerState) (times : list Z)
    : outcome GameReducerState :=
  match times with
  | [] => Ok s
  | t :: rest => s' ← gameTick t s st t; runTicks st s' rest
  end.

(** The actions that the component of a session with settings [st]
    dispatches: whatever carries settings carries [st]. *)
Definition sessionAction (st : GameSettings) (a : GameAction) : Prop :=
  match a with
  | START_GAME st' _ => st' = st
  | NEXT_TRIAL _ st' => st' = st
  | REGISTER_RESPONSE _ _ st' => st' = st
  | _ => True
  end.

(** Feedback on display has a positive expiry time, which is what makes
    the component schedule its CLEAR_FEEDBACK. *)
Definition feedbackExpires (s : GameReducerState) : Prop :=
  feedback s = noFeedback ∨ 0 < showFeedbackUntil s.

(** The action carries no time before the epoch. *)
Definition afterEpoch (now : Z) (a : GameAction) : Prop :=
  match a with
  | NEXT_TRIAL currentTime _ => 0 <= currentTime
  | REGISTER_RESPONSE _ currentTime _ => 0 <= currentTime
  | SHOW_FEEDBACK _ duration => 0 < now + duration
  | _ => True
  end.

(** ** Scoring, trial by trial *)

#[global] Instance valuesDiffer_dec ch a b : Decision (valuesDiffer ch a b).
Proof.
  destruct ch; simpl.
  - destruct (visualPosition a) as [v|];
      [|right; intros (? & ? & ? & _); discriminate].
    destruct (visualPosition b) as [w|];
      [|right; intros (? & ? & _ & ? & _); discriminate].
    destruct (decide (v = w)) as [->|Hne].
    + right. intros (? & ? & [= <-] & [= <-] & ?). contradiction.
    + left. eauto.
  - destruct (audioLetter a) as [v|];
      [|right; intros (? & ? & ? & _); discriminate].
    destruct (audioLetter b) as [w|];
      [|right; intros (? & ? & _ & ? & _); discriminate].
    destruct (decide (v = w)) as [->|Hne].
    + right. intros (? & ? & [= <-] & [= <-] & ?). contradiction.
    + left. eauto.
Defined.

(** The response recorded for trial [i] on the channel is a press; a
    trial without a slot counts as unanswered, as in [calculateResults]. *)
Definition pressedOn (ch : ResponseType) (responses : gmap Z Response) (i : Z) : Prop :=
  responseOn ch (default blankResponse (responses !! i)) = Some true.

#[global] Instance pressedOn_dec ch responses i : Decision (pressedOn ch responses i).
Proof. unfold pressedOn. apply _. Defined.

(** Index [i] is at or past N and holds two different non-null values at
    [i] and [i - N]. *)
Definition differAt (ch : ResponseType) (n : Z) (stimuli : list Stimulus) (i : Z) : Prop :=
  n <= i
  ∧ ∃ cur nBack, js_index stimuli i = Some cur
                 ∧ js_index stimuli (i - n) = Some nBack
                 ∧ valuesDiffer ch cur nBack.

#[global] Instance differAt_dec ch n stimuli i : Decision (differAt ch n stimuli i).
Proof.
  unfold differAt.
  destruct (decide (n <= i)) as [Hn|Hn]; [|right; tauto].
  destruct (js_index stimuli i) as [cur|]; [|right; intros (_ & ? & ? & ? & _); discriminate].
  destruct (js_index stimuli (i - n)) as [nBack|];
    [|right; intros (_ & ? & ? & _ & ? & _); discriminate].
  destruct (decide (valuesDiffer ch cur nBack)) as [Hs|Hs].
  - left. eauto 6.
  - right. intros (_ & ? & ? & [= <-] & [= <-] & ?). contradiction.
Defined.

(** A hit, a miss and a false alarm at trial [i]. *)
Definition hitAt (ch : ResponseType) (n : Z) (stimuli : list Stimulus)
    (responses : gmap Z Response) (i : Z) : Prop :=
  matchAt ch n stimuli i ∧ pressedOn ch responses i.

Definition missAt (ch : ResponseType) (n : Z) (stimuli : list Stimulus)
    (responses : gmap Z Response) (i : Z) : Prop :=
  matchAt ch n stimuli i ∧ ¬ pressedOn ch responses i.

Definition falseAlarmAt (ch : ResponseType) (n : Z) (stimuli : list Stimulus)
    (responses : gmap Z Response) (i : Z) : Prop :=
  differAt ch n stimuli i ∧ pressedOn ch responses i.

#[global] Instance hitAt_dec ch n stimuli responses i :
  Decision (hitAt ch n stimuli responses i).
Proof. unfold hitAt. apply _. Defined.

#[global] Instance missAt_dec ch n stimuli responses i :
  Decision (missAt ch n stimuli responses i).
Proof. unfold missAt. apply _. Defined.

#[global] Instance falseAlarmAt_dec ch n stimuli responses i :
  Decision (falseAlarmAt ch n stimuli responses i).
Proof. unfold falseAlarmAt. apply _. Defined.

(** The number of indices from [from] on, [k] of them, that satisfy [P]. *)
Definition countFrom (P : Z → Prop) `{!∀ i, Decision (P i)} (from : Z) (k : nat) : Z :=
  Z.of_nat (length (filter P (seqZ from (Z.of_nat k)))).

(** The number of indices of a sequence that satisfy [P]. *)
Definition countAll (P : Z → Prop) `{!∀ i, Decision (P i)} (stimuli : list Stimulus) : Z :=
  countFrom P 0 (length stimuli).

(** The counters [r'] are the counters [r] plus the tallies of the [k]
    trials from [from] on; a disabled channel stays without counters. *)
Definition tallied (ch : ResponseType) (n : Z) (stimuli : list Stimulus)
    (responses : gmap Z Response) (from : Z) (k : nat)
    (r r' : option ModeResultMetrics) : Prop :=
  match r with
  | None => r' = None
  | Some m =>
      ∃ m', r' = Some m'
        ∧ hits m' = hits m + countFrom (hitAt ch n stimuli responses) from k
        ∧ misses m' = misses m + countFrom (missAt ch n stimuli responses) from k
        ∧ falseAlarms m'
          = falseAlarms m + countFrom (falseAlarmAt ch n stimuli responses) from k
        ∧ totalMatches m' = totalMatches m + countFrom (matchAt ch n stimuli) from k
        ∧ errors m' = errors m
        ∧ rate m' = rate m
  end.

(** What [calculateResults] makes of the counters of a channel: the rate
    as a rational. *)
Definition rateOf (total errs : Z) : Q :=
  if decide (0 < total) then ((inject_Z (total - errs) / inject_Z total) * 100)%Q
  else if decide (errs = 0) then 100%Q else 0%Q.

(** The counters that a channel ends with: those of an enabled channel
    count the hits, misses, false alarms and true matches of the whole
    sequence, with [errors] and [rate] derived from them; a disabled
    channel has none. *)
Definition scored (ch : ResponseType) (st : GameSettings) (s : GameReducerState)
    (r : option ModeResultMetrics) : Prop :=
  if decide (channelEnabled ch (gameMode st)) then
    ∃ m, r = Some m
      ∧ hits m = countAll (hitAt ch (nLevel st) (stimulusSequence s) (userResponses s))
                   (stimulusSequence s)
      ∧ misses m = countAll (missAt ch (nLevel st) (stimulusSequence s) (userResponses s))
                     (stimulusSequence s)
      ∧ falseAlarms m
        = countAll (falseAlarmAt ch (nLevel st) (stimulusSequence s) (userResponses s))
            (stimulusSequence s)
      ∧ totalMatches m
        = countAll (matchAt ch (nLevel st) (stimulusSequence s)) (stimulusSequence s)
      ∧ errors m = misses m + falseAlarms m
      ∧ rate m = Finite (rateOf (totalMatches m) (errors m))
  else r = None.

(** The counters of a channel in the results. *)
Definition metricsOn (ch : ResponseType) (res : GameResults) : option ModeResultMetrics :=
  match ch with
  | visual_response => visual res
  | audio_response => audio res
  end.

(** ** The live score *)

(** The actions of play: all but those that reset the session; a
    NEXT_TRIAL carries the settings of the session. *)
Definition playAction (st : GameSettings) (a : GameAction) : Prop :=
  match a with
  | START_GAME _ _ => False
  | STOP_GAME => False
  | NEXT_TRIAL _ st' => st' = st
  | _ => True
  end.

(** Every stimulus carries a value on every enabled channel, as the
    generated ones do. *)
Definition allValued (st : GameSettings) (stimuli : list Stimulus) : Prop :=
  ∀ ch i stim, channelEnabled ch (gameMode st) → js_index stimuli i = Some stim →
               hasValue ch stim.

(** No press is recorded on a disabled channel, before trial N or after
    the current trial. *)
Definition pressesInPlay (st : GameSettings) (s : GameReducerState) : Prop :=
  ∀ ch i, pressedOn ch (userResponses s) i →
          channelEnabled ch (gameMode st) ∧ nLevel st <= i <= currentTrial s.

(** A session before its first trial: a well-formed state with the
    settings, no trial shown, no score and no press. *)
Definition freshSession (st : GameSettings) (s : GameReducerState) : Prop :=
  wellFormed s ∧ settings s = Some st ∧ currentTrial s = -1 ∧ score s = 0
  ∧ ∀ ch i, ¬ pressedOn ch (userResponses s) i.

(** What a channel is worth so far: its hits minus its false alarms minus
    the misses of the trials left behind. *)
Definition liveScoreOn (ch : ResponseType) (st : GameSettings) (s : GameReducerState) : Z :=
  if decide (channelEnabled ch (gameMode st)) then
    countAll (hitAt ch (nLevel st) (stimulusSequence s) (userResponses s))
      (stimulusSequence s)
    - countAll (falseAlarmAt ch (nLevel st) (stimulusSequence s) (userResponses s))
        (stimulusSequence s)
    - countFrom (missAt ch (nLevel st) (stimulusSequence s) (userResponses s)) 0
        (Z.to_nat (currentTrial s))
  else 0.

(** The misses of a channel that are still open: those of the current
    trial and of the trials to come. *)
Definition pendingMisses (ch : ResponseType) (st : GameSettings) (s : GameReducerState)
  : Z :=
  if decide (channelEnabled ch (gameMode st)) then
    countFrom (missAt ch (nLevel st) (stimulusSequence s) (userResponses s))
      (Z.max 0 (currentTrial s))
      (Z.to_nat (Z.of_nat (length (stimulusSequence s)) - Z.max 0 (currentTrial s)))
  else 0.

(** Hits minus errors of a channel of the results; 0 for a channel
    without counters. *)
Definition netScore (r : option ModeResultMetrics) : Z :=
  from_option (λ m, hits m - errors m) 0 r.

(** ** Helper lemmas *)

Lemma bind_Ok {A B : Type} (m : outcome A) (f : A → outcome B) (b : B) :
  m ≫= f = Ok b → ∃ a, m = Ok a ∧ f a = Ok b.
Proof. destruct m as [a| |]; simpl; [eauto | discriminate | discriminate]. Qed.

Lemma js_index_Some {A : Type} (arr : list A) (i : Z) (x : A) :
  js_index arr i = Some x ↔ 0 <= i < Z.of_nat (length arr) ∧ arr !! Z.to_nat i = Some x.
Proof.
  unfold js_index. case_decide as Hi.
  - split.
    + intros Hx. split; [|done]. apply lookup_lt_Some in Hx. lia.
    + intros [_ Hx]. done.
  - split; [discriminate | lia].
Qed.

Lemma js_index_is_Some {A : Type} (arr : list A) (i : Z) :
  0 <= i < Z.of_nat (length arr) → ∃ x, js_index arr i = Some x.
Proof.
  intros Hi. destruct (lookup_lt_is_Some_2 arr (Z.to_nat i)) as [x Hx]; [lia|].
  exists x. apply js_index_Some. done.
Qed.

Lemma js_index_app_l {A : Type} (arr : list A) (x : A) (i : Z) :
  i < Z.of_nat (length arr) → js_index (arr ++ [x]) i = js_index arr i.
Proof.
  intros Hi. unfold js_index. case_decide; [|done].
  apply lookup_app_l. lia.
Qed.

Lemma js_index_app_last {A : Type} (arr : list A) (x : A) :
  js_index (arr ++ [x]) (Z.of_nat (length arr)) = Some x.
Proof.
  unfold js_index. case_decide; [|lia].
  rewrite Nat2Z.id. rewrite lookup_app_r by lia.
  rewrite Nat.sub_diag. done.
Qed.

Lemma blankResponses_lookup (len : nat) (i : Z) :
  blankResponses len !! i
  = if decide (0 <= i < Z.of_nat len) then Some blankResponse else None.
Proof.
  unfold blankResponses. case_decide as Hi.
  - apply elem_of_list_to_map_1.
    + rewrite <- list_fmap_compose.
      replace (fst ∘ (λ i0 : Z, (i0, blankResponse))) with (@id Z) by reflexivity.
      rewrite list_fmap_id. apply NoDup_seqZ.
    + apply list_elem_of_fmap. exists i. split; [reflexivity|].
      apply elem_of_seqZ. lia.
  - apply not_elem_of_list_to_map_1.
    rewrite <- list_fmap_compose.
    replace (fst ∘ (λ i0 : Z, (i0, blankResponse))) with (@id Z) by reflexivity.
    rewrite list_fmap_id. rewrite elem_of_seqZ. lia.
Qed.

Lemma isMatchOf_visual (cur nb : Stimulus) :
  isMatchOf visualPosition (Some cur) (Some nb)
  = Ok (bool_decide (sameValue visual_response cur nb)).
Proof.
  destruct (bool_decide_reflect (sameValue visual_response cur nb)) as [Hm|Hm];
    unfold sameValue in Hm; unfold isMatchOf; simpl.
  - destruct Hm as (v & -> & ->). simpl.
    rewrite bool_decide_eq_true_2; done.
  - destruct (visualPosition cur) as [v|]; simpl; [|done].
    destruct (visualPosition nb) as [w|]; simpl; [|done].
    rewrite bool_decide_eq_false_2; [done|]. intros ->. apply Hm. eauto.
Qed.

Lemma isMatchOf_audio (cur nb : Stimulus) :
  isMatchOf audioLetter (Some cur) (Some nb)
  = Ok (bool_decide (sameValue audio_response cur nb)).
Proof.
  destruct (bool_decide_reflect (sameValue audio_response cur nb)) as [Hm|Hm];
    unfold sameValue in Hm; unfold isMatchOf; simpl.
  - destruct Hm as (v & -> & ->). simpl.
    rewrite bool_decide_eq_true_2; done.
  - destruct (audioLetter cur) as [v|]; simpl; [|done].
    destruct (audioLetter nb) as [w|]; simpl; [|done].
    rewrite bool_decide_eq_false_2; [done|]. intros ->. apply Hm. eauto.
Qed.

Lemma missFeedbackOf_visual (prev nb : Stimulus) (r : Response) :
  missFeedbackOf visualPosition r_visual (Some prev) (Some nb) (Some r)
  = Ok (determineMissFeedback (bool_decide (sameValue visual_response prev nb))
          (r_visual r)).
Proof.
  destruct (bool_decide_reflect (sameValue visual_response prev nb)) as [Hm|Hm];
    unfold sameValue in Hm; unfold missFeedbackOf; simpl.
  - destruct Hm as (v & -> & ->). simpl.
    rewrite bool_decide_eq_true_2; done.
  - destruct (visualPosition prev) as [v|] eqn:Hp; simpl; [|done].
    rewrite bool_decide_eq_false_2; [done|]. intros Heq. apply Hm. eauto.
Qed.

Lemma missFeedbackOf_audio (prev nb : Stimulus) (r : Response) :
  missFeedbackOf audioLetter r_audio (Some prev) (Some nb) (Some r)
  = Ok (determineMissFeedback (bool_decide (sameValue audio_response prev nb))
          (r_audio r)).
Proof.
  destruct (bool_decide_reflect (sameValue audio_response prev nb)) as [Hm|Hm];
    unfold sameValue in Hm; unfold missFeedbackOf; simpl.
  - destruct Hm as (v & -> & ->). simpl.
    rewrite bool_decide_eq_true_2; done.
  - destruct (audioLetter prev) as [v|] eqn:Hp; simpl; [|done].
    rewrite bool_decide_eq_false_2; [done|]. intros Heq. apply Hm. eauto.
Qed.

(** ** The trial state machine *)

(** C8. STOP_GAME, from any state whatsoever, returns to [idle] with score
    0, trial index -1, elapsed time 0, one unanswered response slot per
    stimulus of the sequence (and no other slot), no active stimulus, no
    feedback, feedback expiry 0 and no results. *)
Theorem stop_game_resets (now : Z) (s : GameReducerState) :
  ∃ s', gameReducer now s STOP_GAME = Ok s'
    ∧ status s' = idle
    ∧ score s' = 0
    ∧ currentTrial s' = -1
    ∧ elapsedTime s' = 0
    ∧ (∀ i : Z, userResponses s' !! i
         = if decide (0 <= i < Z.of_nat (length (stimulusSequence s)))
           then Some {| r_visual := None; r_audio := None |} else None)
    ∧ activeVisualStimulus s' = None
    ∧ activeAudioStimulus s' = None
    ∧ feedback s' = {| f_visual := None; f_audio := None |}
    ∧ showFeedbackUntil s' = 0
    ∧ results s' = None.
Proof.
  eexists. split; [reflexivity|]. simpl.
  repeat split. intros i. apply blankResponses_lookup.
Qed.

(** Only END_SESSION attaches results: every other event keeps the
    results of the old state or clears them. *)
Lemma results_only_from_end_session (now : Z) (s s' : GameReducerState)
    (a : GameAction) :
  gameReducer now s a = Ok s' →
  results s' = results s ∨ results s' = None ∨ a = END_SESSION.
Proof.
  destruct a; simpl; try (intros [= <-]; simpl; tauto).
  - destruct (status s); intros [= <-]; simpl; tauto.
  - destruct (status s); intros [= <-]; simpl; tauto.
  - destruct (status s); intros [= <-]; simpl; tauto.
  - case_decide as Hend; [intros [= <-]; simpl; tauto|].
    intros Hrun. apply bind_Ok in Hrun. destruct Hrun as (mf & _ & Hrun).
    apply bind_Ok in Hrun. destruct Hrun as (cur & _ & [= <-]). simpl. tauto.
  - intros Hrun. apply bind_Ok in Hrun. destruct Hrun as (st0 & _ & Hrun).
    case_decide; [injection Hrun as <-; tauto|].
    destruct (_ && _); [injection Hrun as <-; tauto|].
    destruct (_ && _); [injection Hrun as <-; tauto|].
    apply bind_Ok in Hrun. destruct Hrun as ([[[r fb] sf] sd] & _ & [= <-]). simpl.
    tauto.
  - case_decide; intros [= <-]; simpl; tauto.
  - tauto.
Qed.

(** C6. When NEXT_TRIAL finds that the next index has reached or passed
    the end of the sequence, the new state is [finished] and every other
    field, [results] included, is the one of the old state: no results are
    computed on this path. The reducer does not read [status] here, so the
    statement holds from every state, the running ones among them. And of
    all events only END_SESSION can leave new, non-null results in a
    state. *)
Theorem next_trial_at_end_only_finishes (now : Z) (s : GameReducerState)
    (currentTime : Z) (st : GameSettings) :
  Z.of_nat (length (stimulusSequence s)) <= currentTrial s + 1 →
  ∃ s', gameReducer now s (NEXT_TRIAL currentTime st) = Ok s'
    ∧ status s' = finished
    ∧ results s' = results s
    ∧ settings s' = settings s
    ∧ stimulusSequence s' = stimulusSequence s
    ∧ userResponses s' = userResponses s
    ∧ currentTrial s' = currentTrial s
    ∧ activeVisualStimulus s' = activeVisualStimulus s
    ∧ activeAudioStimulus s' = activeAudioStimulus s
    ∧ feedback s' = feedback s
    ∧ score s' = score s
    ∧ elapsedTime s' = elapsedTime s
    ∧ showFeedbackUntil s' = showFeedbackUntil s
    ∧ ∀ a s1 s1', gameReducer now s1 a = Ok s1' →
        results s1' ≠ results s1 → results s1' ≠ None → a = END_SESSION.
Proof.
  intros Hend. exists (set_status s finished). split.
  - unfold gameReducer. case_decide; [reflexivity | lia].
  - do 12 (split; [reflexivity|]).
    intros a s1 s1' Hrun Hnew Hsome.
    destruct (results_only_from_end_session now s1 s1' a Hrun) as [H|[H|H]];
      [contradiction|contradiction|exact H].
Qed.

Lemma next_trial_at_end_only_finishes_witness :
  ∃ s', gameReducer 0 (demoState running 3) (NEXT_TRIAL 1000 demoSettings) = Ok s'
    ∧ status s' = finished
    ∧ results s' = results (demoState running 3)
    ∧ settings s' = settings (demoState running 3)
    ∧ stimulusSequence s' = stimulusSequence (demoState running 3)
    ∧ userResponses s' = userResponses (demoState running 3)
    ∧ currentTrial s' = currentTrial (demoState running 3)
    ∧ activeVisualStimulus s' = activeVisualStimulus (demoState running 3)
    ∧ activeAudioStimulus s' = activeAudioStimulus (demoState running 3)
    ∧ feedback s' = feedback (demoState running 3)
    ∧ score s' = score (demoState running 3)
    ∧ elapsedTime s' = elapsedTime (demoState running 3)
    ∧ showFeedbackUntil s' = showFeedbackUntil (demoState running 3)
    ∧ ∀ a s1 s1', gameReducer 0 s1 a = Ok s1' →
        results s1' ≠ results s1 → results s1' ≠ None → a = END_SESSION.
Proof.
  apply (next_trial_at_end_only_finishes 0 (demoState running 3) 1000 demoSettings).
  simpl. lia.
Defined.

(** C4, as the reducer has it. REGISTER_RESPONSE leaves the state exactly
    as it was when the current trial index is below N, when the channel
    already holds a response for the current trial, or when the current
    trial has no response slot at all. The reducer does not look at
    [status]: that gate is in the keyboard handler, which only dispatches
    while the game is running. *)
Theorem register_response_ignored (now : Z) (s : GameReducerState) (st a : GameSettings)
    (ch : ResponseType) (currentTime : Z) :
  settings s = Some st →
  currentTrial s < nLevel st
  ∨ (∃ r, userResponses s !! currentTrial s = Some r ∧ responseOn ch r ≠ None)
  ∨ userResponses s !! currentTrial s = None →
  gameReducer now s (REGISTER_RESPONSE ch currentTime a) = Ok s.
Proof.
  intros Hst Hcase. unfold gameReducer. rewrite Hst. simpl.
  case_decide as Hn; [reflexivity|].
  destruct Hcase as [Hlt | [(r & Hr & Hne) | Hnone]]; [lia | |].
  - rewrite Hr. destruct ch; simpl in *.
    + rewrite bool_decide_eq_true_2 by done. reflexivity.
    + rewrite bool_decide_eq_true_2 by done. reflexivity.
  - rewrite Hnone. destruct ch; reflexivity.
Qed.

Lemma register_response_ignored_witness :
  gameReducer 0 (demoState running 1) (REGISTER_RESPONSE visual_response 1000 demoSettings)
  = Ok (demoState running 1).
Proof.
  apply (register_response_ignored 0 (demoState running 1) demoSettings demoSettings
           visual_response 1000).
  - reflexivity.
  - left. simpl. lia.
Defined.

(** C4 as stated fails: in a paused state whose current trial is at N and
    unanswered, a visual REGISTER_RESPONSE is recorded and scored. *)
Lemma register_response_status_not_checked :
  status (demoState paused 2) ≠ running
  ∧ ∃ s', gameReducer 0 (demoState paused 2)
            (REGISTER_RESPONSE visual_response 1000 demoSettings) = Ok s'
          ∧ score s' = score (demoState paused 2) + 1
          ∧ userResponses s' !! 2 = Some {| r_visual := Some true; r_audio := None |}
          ∧ s' ≠ demoState paused 2.
Proof.
  split; [discriminate|].
  eexists. split; [vm_compute; reflexivity|].
  split; [reflexivity|]. split; [vm_compute; reflexivity|].
  intros Heq. apply (f_equal score) in Heq. vm_compute in Heq. discriminate.
Qed.

(** C10. With settings present, a REGISTER_RESPONSE for the channel that
    the game mode disables changes nothing when the current trial has an
    unanswered slot on that channel: score, feedback and feedback expiry
    are the old ones, the slot is still unanswered, and indeed the whole
    state is the old one. *)
Theorem disabled_channel_response_ignored (now : Z) (s : GameReducerState)
    (st a : GameSettings) (ch : ResponseType) (currentTime : Z) (r : Response) :
  settings s = Some st →
  ¬ channelEnabled ch (gameMode st) →
  nLevel st <= currentTrial s →
  userResponses s !! currentTrial s = Some r →
  responseOn ch r = None →
  ∃ s', gameReducer now s (REGISTER_RESPONSE ch currentTime a) = Ok s'
    ∧ score s' = score s
    ∧ feedback s' = feedback s
    ∧ showFeedbackUntil s' = showFeedbackUntil s
    ∧ userResponses s' !! currentTrial s = Some r
    ∧ s' = s.
Proof.
  intros Hst Hdis Hn Hr Hnone. exists s.
  split; [|repeat split; done].
  unfold gameReducer. rewrite Hst. simpl.
  case_decide; [lia|]. rewrite Hr.
  destruct ch; simpl in *; rewrite Hnone; simpl.
  - rewrite (bool_decide_eq_false_2 (gameMode st ≠ Audio)) by done. simpl.
    rewrite insert_id by done. rewrite Z.add_0_r, <- Hst. destruct s; reflexivity.
  - rewrite (bool_decide_eq_false_2 (gameMode st ≠ Visual)) by done. simpl.
    rewrite insert_id by done. rewrite Z.add_0_r, <- Hst. destruct s; reflexivity.
Qed.

Lemma disabled_channel_response_ignored_witness :
  ∃ s', gameReducer 0 (audioOnly (demoState running 2))
          (REGISTER_RESPONSE visual_response 1000 demoSettings) = Ok s'
    ∧ score s' = score (audioOnly (demoState running 2))
    ∧ feedback s' = feedback (audioOnly (demoState running 2))
    ∧ showFeedbackUntil s' = showFeedbackUntil (audioOnly (demoState running 2))
    ∧ userResponses s' !! currentTrial (audioOnly (demoState running 2))
      = Some blankResponse
    ∧ s' = audioOnly (demoState running 2).
Proof.
  eapply (disabled_channel_response_ignored 0 (audioOnly (demoState running 2))).
  - reflexivity.
  - simpl. intros H. apply H. reflexivity.
  - simpl. lia.
  - vm_compute. reflexivity.
  - reflexivity.
Defined.

(** C3. With settings present, the current trial at or past N, the channel
    enabled by the game mode and still unanswered for the current trial
    (the current and the N-back stimulus being in the sequence),
    REGISTER_RESPONSE records a press on that channel whatever the match
    outcome; the channel's feedback is [correct] and the score goes up by
    one when the two stimuli carry the same non-null value, and
    [false-alarm] with the score down by one otherwise; the feedback
    expires at [currentTime + FEEDBACK_DURATION_MS]. The other channel's
    response and feedback stay as they were. [status] is not read by the
    reducer, so the running states are covered. *)
Theorem register_response_accepted (now : Z) (s : GameReducerState) (st a : GameSettings)
    (ch : ResponseType) (currentTime : Z) (r : Response) (cur nBack : Stimulus) :
  settings s = Some st →
  nLevel st <= currentTrial s →
  channelEnabled ch (gameMode st) →
  userResponses s !! currentTrial s = Some r →
  responseOn ch r = None →
  js_index (stimulusSequence s) (currentTrial s) = Some cur →
  js_index (stimulusSequence s) (currentTrial s - nLevel st) = Some nBack →
  ∃ s', gameReducer now s (REGISTER_RESPONSE ch currentTime a) = Ok s'
    ∧ userResponses s' !! currentTrial s = Some (press ch r)
    ∧ responseOn ch (press ch r) = Some true
    ∧ feedbackOn ch (feedback s')
      = Some (if decide (sameValue ch cur nBack) then correct else false_alarm)
    ∧ score s' = score s + (if decide (sameValue ch cur nBack) then 1 else -1)
    ∧ showFeedbackUntil s' = currentTime + FEEDBACK_DURATION_MS
    ∧ (∀ ch', ch' ≠ ch →
         responseOn ch' (press ch r) = responseOn ch' r
         ∧ feedbackOn ch' (feedback s') = feedbackOn ch' (feedback s)).
Proof.
  intros Hst Hn Hen Hr Hnone Hcur Hnb.
  destruct (decide (sameValue ch cur nBack)) as [Hm|Hm];
    unfold gameReducer; rewrite Hst; simpl;
    (case_decide; [lia|]); rewrite Hr, Hcur, Hnb;
    destruct ch; simpl in Hen, Hnone |- *; rewrite Hnone; simpl;
    try rewrite (bool_decide_eq_true_2 (gameMode st ≠ Audio)) by done;
    try rewrite (bool_decide_eq_true_2 (gameMode st ≠ Visual)) by done;
    try (destruct (bool_decide (gameMode st ≠ Audio)); simpl);
    rewrite ?isMatchOf_visual, ?isMatchOf_audio; simpl;
    unfold determineFeedback;
    first [ rewrite (bool_decide_eq_true_2 _ Hm)
          | rewrite (bool_decide_eq_false_2 _ Hm) ]; simpl;
    (eexists; split; [reflexivity|]); simpl;
    rewrite lookup_insert_eq; do 5 (split; [done|]);
    intros [|] Hne; try done; split; reflexivity.
Qed.

Lemma register_response_accepted_witness :
  ∃ s', gameReducer 0 (demoState running 2)
          (REGISTER_RESPONSE visual_response 1000 demoSettings) = Ok s'
    ∧ userResponses s' !! 2 = Some {| r_visual := Some true; r_audio := None |}
    ∧ Some true = Some true
    ∧ f_visual (feedback s') = Some correct
    ∧ score s' = 5 + 1
    ∧ showFeedbackUntil s' = 1000 + FEEDBACK_DURATION_MS
    ∧ (∀ ch', ch' ≠ visual_response →
         responseOn ch' (press visual_response blankResponse)
         = responseOn ch' blankResponse
         ∧ feedbackOn ch' (feedback s') = feedbackOn ch' noFeedback).
Proof.
  apply (register_response_accepted 0 (demoState running 2) demoSettings demoSettings
           visual_response 1000 blankResponse
           (mkStimulus (Some 4) (Some "K"%string))
           (mkStimulus (Some 4) (Some "C"%string))).
  - reflexivity.
  - simpl. lia.
  - simpl. discriminate.
  - vm_compute. reflexivity.
  - reflexivity.
  - reflexivity.
  - reflexivity.
Defined.

Lemma determineMissFeedback_missed (mode : GameMode) (ch : ResponseType)
    (prev nBack : Stimulus) (r : Response) :
  channelEnabled ch mode →
  determineMissFeedback (bool_decide (sameValue ch prev nBack)) (responseOn ch r)
  = if missed mode ch prev nBack r then Some miss else None.
Proof.
  intros Hen. unfold determineMissFeedback, missed.
  destruct (bool_decide_reflect (sameValue ch prev nBack)) as [Hm|Hm]; simpl.
  - destruct (bool_decide_reflect (responseOn ch r ≠ Some true)) as [Hp|Hp].
    + rewrite bool_decide_eq_true_2; done.
    + rewrite bool_decide_eq_false_2; [done|]. tauto.
  - rewrite bool_decide_eq_false_2; [done|]. tauto.
Qed.

Lemma not_missed_when_disabled (mode : GameMode) (ch : ResponseType)
    (prev nBack : Stimulus) (r : Response) :
  ¬ channelEnabled ch mode → missed mode ch prev nBack r = false.
Proof. intros Hdis. apply bool_decide_eq_false_2. tauto. Qed.

(** C2. Take a state whose current trial is at or past N (N and the game
    mode being those of the settings that come with the event) and whose
    next index is still inside the sequence, the stimuli at the current
    index and N before it and the response slot of the current trial
    being there. NEXT_TRIAL then resolves the misses of the current trial:
    each channel's feedback is [miss] exactly when that trial was missed
    on it, and the score drops by one per missed channel. The stimulus at
    the next index becomes the active visual stimulus and, for a letter
    that is not the empty string, the active audio stimulus; the trial
    index moves to the next index; the feedback expires at
    [currentTime + FEEDBACK_DURATION_MS] when a miss was found, and the
    expiry is 0 otherwise. *)
Theorem next_trial_resolves_misses (now : Z) (s : GameReducerState) (currentTime : Z)
    (st : GameSettings) (prev nBack next : Stimulus) (r : Response) :
  nLevel st <= currentTrial s →
  js_index (stimulusSequence s) (currentTrial s) = Some prev →
  js_index (stimulusSequence s) (currentTrial s - nLevel st) = Some nBack →
  userResponses s !! currentTrial s = Some r →
  js_index (stimulusSequence s) (currentTrial s + 1) = Some next →
  let missedOn ch := missed (gameMode st) ch prev nBack r in
  ∃ s', gameReducer now s (NEXT_TRIAL currentTime st) = Ok s'
    ∧ f_visual (feedback s') = (if missedOn visual_response then Some miss else None)
    ∧ f_audio (feedback s') = (if missedOn audio_response then Some miss else None)
    ∧ score s' = score s - Z.b2z (missedOn visual_response)
                         - Z.b2z (missedOn audio_response)
    ∧ activeVisualStimulus s' = visualPosition next
    ∧ (∀ l, audioLetter next = Some l → l ≠ EmptyString →
            activeAudioStimulus s' = Some l)
    ∧ (audioLetter next = None → activeAudioStimulus s' = None)
    ∧ currentTrial s' = currentTrial s + 1
    ∧ showFeedbackUntil s'
      = (if missedOn visual_response || missedOn audio_response
         then currentTime + FEEDBACK_DURATION_MS else 0)
    ∧ status s' = status s
    ∧ userResponses s' = userResponses s.
Proof.
  intros Hn Hprev Hnb Hr Hnext missedOn.
  assert (Hlen : ¬ Z.of_nat (length (stimulusSequence s)) <= currentTrial s + 1).
  { unfold js_index in Hnext. case_decide; [|discriminate].
    apply lookup_lt_Some in Hnext. lia. }
  assert (Hv : (if decide (gameMode st ≠ Audio)
                then missFeedbackOf visualPosition r_visual (Some prev) (Some nBack) (Some r)
                else Ok None)
               = Ok (if missedOn visual_response then Some miss else None)).
  { unfold missedOn. destruct (decide (gameMode st ≠ Audio)) as [Hen|Hen].
    - rewrite missFeedbackOf_visual.
      rewrite <- (determineMissFeedback_missed (gameMode st) visual_response) by exact Hen.
      reflexivity.
    - rewrite not_missed_when_disabled by exact Hen. reflexivity. }
  assert (Ha : (if decide (gameMode st ≠ Visual)
                then missFeedbackOf audioLetter r_audio (Some prev) (Some nBack) (Some r)
                else Ok None)
               = Ok (if missedOn audio_response then Some miss else None)).
  { unfold missedOn. destruct (decide (gameMode st ≠ Visual)) as [Hen|Hen].
    - rewrite missFeedbackOf_audio.
      rewrite <- (determineMissFeedback_missed (gameMode st) audio_response) by exact Hen.
      reflexivity.
    - rewrite not_missed_when_disabled by exact Hen. reflexivity. }
  unfold gameReducer.
  destruct (decide (Z.of_nat (length (stimulusSequence s)) <= currentTrial s + 1));
    [contradiction|].
  destruct (decide (nLevel st <= currentTrial s)); [|contradiction].
  rewrite Hprev, Hnb, Hr, Hnext, Hv, Ha. simpl.
  eexists. split; [reflexivity|]. simpl.
  destruct (missedOn visual_response), (missedOn audio_response); simpl.
  all: do 4 (split; [first [reflexivity | lia]|]).
  all: split; [intros x Hx Hne; rewrite Hx; unfold truthy;
               destruct (decide (x = EmptyString)); [contradiction|reflexivity]|].
  all: split; [intros Hl; rewrite Hl; reflexivity|].
  all: repeat split; reflexivity.
Qed.

Lemma next_trial_resolves_misses_witness :
  ∃ s', gameReducer 0 (demoState running 2) (NEXT_TRIAL 1000 demoSettings) = Ok s'
    ∧ f_visual (feedback s') = Some miss
    ∧ f_audio (feedback s') = None
    ∧ score s' = 5 - 1 - 0
    ∧ activeVisualStimulus s' = Some 1
    ∧ (∀ l, Some "H"%string = Some l → l ≠ EmptyString →
            activeAudioStimulus s' = Some l)
    ∧ (Some "H"%string = None → activeAudioStimulus s' = None)
    ∧ currentTrial s' = 2 + 1
    ∧ showFeedbackUntil s' = 1000 + FEEDBACK_DURATION_MS
    ∧ status s' = running
    ∧ userResponses s' = blankResponses 4.
Proof.
  apply (next_trial_resolves_misses 0 (demoState running 2) 1000 demoSettings
           (mkStimulus (Some 4) (Some "K"%string))
           (mkStimulus (Some 4) (Some "C"%string))
           (mkStimulus (Some 1) (Some "H"%string))
           blankResponse).
  - simpl. lia.
  - reflexivity.
  - reflexivity.
  - vm_compute. reflexivity.
  - reflexivity.
Defined.

(** *** States the reducer can reach *)

(** Every transition keeps a state well formed; the initial state and
    every state after START_GAME are well formed. *)
Lemma gameReducer_wellFormed (now : Z) (s s' : GameReducerState) (a : GameAction) :
  wellFormed s → gameReducer now s a = Ok s' → wellFormed s'.
Proof.
  intros [Hcur Hslots]. unfold wellFormed.
  destruct a; simpl.
  - intros [= <-]. simpl. split; [lia|]. intros i Hi.
    rewrite blankResponses_lookup. rewrite decide_True by exact Hi. eauto.
  - destruct (status s); intros [= <-]; simpl; auto.
  - intros [= <-]. simpl. split; [lia|]. intros i Hi.
    rewrite blankResponses_lookup. rewrite decide_True by exact Hi. eauto.
  - destruct (status s); intros [= <-]; simpl; auto.
  - destruct (status s); intros [= <-]; simpl; auto.
  - case_decide as Hend; [intros [= <-]; simpl; auto|].
    intros Hrun. apply bind_Ok in Hrun. destruct Hrun as (mf & _ & Hrun).
    apply bind_Ok in Hrun. destruct Hrun as (cur & _ & [= <-]). simpl.
    split; [lia|exact Hslots].
  - intros Hrun. apply bind_Ok in Hrun. destruct Hrun as (st0 & _ & Hrun).
    case_decide; [injection Hrun as <-; auto|].
    destruct (_ && _); [injection Hrun as <-; auto|].
    destruct (_ && _); [injection Hrun as <-; auto|].
    apply bind_Ok in Hrun. destruct Hrun as ([[[r fb] sf] sd] & _ & [= <-]). simpl.
    split; [exact Hcur|]. intros i Hi.
    destruct (decide (currentTrial s = i)) as [->|Hne].
    + rewrite lookup_insert_eq. eauto.
    + rewrite lookup_insert_ne by exact Hne. auto.
  - intros [= <-]. simpl. auto.
  - case_decide; intros [= <-]; simpl; auto.
  - intros [= <-]. simpl. auto.
  - destruct (settings s) as [st0|]; [|intros [= <-]; simpl; auto].
    intros Hrun. apply bind_Ok in Hrun. destruct Hrun as (res & _ & [= <-]).
    simpl. auto.
  - intros [= <-]. simpl. auto.
Qed.

Lemma initialState_wellFormed : wellFormed initialState.
Proof. split; simpl; [lia|]. intros i Hi. simpl in Hi. lia. Qed.

(** In a well-formed state whose current trial is at or past an N of at
    least 0, the current stimulus, its N-back stimulus and the response
    slot of the current trial are there. *)
Lemma wellFormed_trial_data (s : GameReducerState) (n : Z) :
  wellFormed s → 0 <= n <= currentTrial s →
  ∃ cur nBack r,
    js_index (stimulusSequence s) (currentTrial s) = Some cur
    ∧ js_index (stimulusSequence s) (currentTrial s - n) = Some nBack
    ∧ userResponses s !! currentTrial s = Some r.
Proof.
  intros [Hcur Hslots] Hn.
  destruct (js_index_is_Some (stimulusSequence s) (currentTrial s)) as [cur Hc]; [lia|].
  destruct (js_index_is_Some (stimulusSequence s) (currentTrial s - n)) as [nb Hnb]; [lia|].
  destruct (Hslots (currentTrial s)) as [r Hr]; [lia|].
  eauto 6.
Qed.

(** ** The scoring calculator *)

(** C7. When the N-level is at least the length of the sequence, the loop
    of [calculateResults] has no trial to look at: the call returns
    without a thrown error, the metrics of every enabled channel are all 0
    with a rate of 100 (a finite number, no quotient by zero was taken),
    a disabled channel has [null] metrics, and the overall success rate
    is 0. *)
Theorem calculateResults_no_window (st : GameSettings) (gameState : GameReducerState) :
  Z.of_nat (length (stimulusSequence gameState)) <= nLevel st →
  ∃ res, calculateResults st gameState = Ok res
    ∧ (gameMode st ≠ Audio → visual res = Some zeroMetrics)
    ∧ (gameMode st ≠ Visual → audio res = Some zeroMetrics)
    ∧ (gameMode st = Audio → visual res = None)
    ∧ (gameMode st = Visual → audio res = None)
    ∧ overallSuccessRate res = Finite 0
    ∧ totalTrials res = Z.of_nat (length (stimulusSequence gameState)).
Proof.
  intros Hlen. unfold calculateResults.
  replace (Z.to_nat (Z.of_nat (length (stimulusSequence gameState)) - nLevel st))
    with 0%nat by lia.
  simpl. eexists. split; [reflexivity|]. simpl.
  destruct (decide (gameMode st ≠ Audio)) as [Hv|Hv],
           (decide (gameMode st ≠ Visual)) as [Ha|Ha]; simpl.
  all: repeat split; try reflexivity; intros; try contradiction; try congruence.
  all: exfalso; first [apply Hv | apply Ha]; congruence.
Qed.

Lemma calculateResults_no_window_witness :
  ∃ res, calculateResults fourBackSettings (demoState finished 1) = Ok res
    ∧ (Dual ≠ Audio → visual res = Some zeroMetrics)
    ∧ (Dual ≠ Visual → audio res = Some zeroMetrics)
    ∧ (Dual = Audio → visual res = None)
    ∧ (Dual = Visual → audio res = None)
    ∧ overallSuccessRate res = Finite 0
    ∧ totalTrials res = 4.
Proof.
  apply (calculateResults_no_window fourBackSettings (demoState finished 1)).
  simpl. lia.
Defined.

(** ** The sequence generator *)

Section ChannelFacts.
Context {A : Type} `{EqDecision A}.
Variable rand : nat → Q.
Variable enabled : bool.
Variable field : Stimulus → option A.
Variable getRandom : nat → option A * nat.
Variable built : list Stimulus.
Variable n i : Z.

(** What is known of a value that left the redraw loop: it was drawn,
    and when the loop's test was live it is null or differs from the
    N-back value. *)
Lemma redraw_inv (fuel c : nat) (v : option A) (c' : nat) :
  redraw enabled field getRandom built n i fuel c = Ok (v, c') →
  (∃ c0, v = (getRandom c0).1)
  ∧ ((n <=? i) && enabled = true →
     ∃ nBack, js_index built (i - n) = Some nBack ∧ ¬ (v = field nBack ∧ v ≠ None)).
Proof.
  revert c. induction fuel as [|fuel IH]; intros c; simpl; [discriminate|].
  destruct (getRandom c) as [v0 c0] eqn:Hdraw.
  destruct ((n <=? i) && enabled) eqn:Hlive.
  - destruct (js_index built (i - n)) as [nBack|] eqn:Hnb; simpl; [|discriminate].
    destruct (bool_decide (v0 = field nBack) && bool_decide (v0 ≠ None)) eqn:Hsame.
    + apply IH.
    + intros [= <- <-]. split.
      * exists c. rewrite Hdraw. reflexivity.
      * intros _. exists nBack. split; [reflexivity|].
        intros [Heq Hne]. apply andb_false_iff in Hsame.
        destruct Hsame as [Hs|Hs]; apply bool_decide_eq_false in Hs; contradiction.
  - intros [= <- <-]. split.
    + exists c. rewrite Hdraw. reflexivity.
    + discriminate.
Qed.

(** What is known of one channel after one trial. *)
Lemma channel_value_inv (fuel : nat) (force : bool) (c : nat)
    (v : option A) (b : bool) (c' : nat) :
  channel_value rand enabled field getRandom built n i fuel force c = Ok (v, b, c') →
  (b = true →
     (n <=? i) && enabled = true
     ∧ ∃ nBack, js_index built (i - n) = Some nBack ∧ v = field nBack)
  ∧ (b = false →
     (∃ c0, v = (getRandom c0).1)
     ∧ ((n <=? i) && enabled = true →
        ∃ nBack, js_index built (i - n) = Some nBack
                 ∧ ¬ (v = field nBack ∧ v ≠ None)))
  ∧ (force = true → (n <=? i) && enabled = true → b = true).
Proof.
  unfold channel_value.
  destruct ((n <=? i) && enabled) eqn:Hlive.
  - destruct force; simpl.
    + destruct (js_index built (i - n)) as [nBack|] eqn:Hnb; simpl; [|discriminate].
      intros [= <- <- <-]. split; [|split]; [eauto|discriminate|done].
    + destruct (Qlt_bool (rand c) targetMatchProbability).
      * destruct (js_index built (i - n)) as [nBack|] eqn:Hnb; simpl; [|discriminate].
        intros [= <- <- <-]. split; [|split]; [eauto|discriminate|discriminate].
      * destruct (redraw enabled field getRandom built n i fuel (S c))
          as [[v0 c0]| |] eqn:Hre; simpl; try discriminate.
        intros [= <- <- <-]. apply redraw_inv in Hre. rewrite Hlive in Hre.
        split; [|split]; [discriminate| |discriminate]. intros _. exact Hre.
  - destruct (redraw enabled field getRandom built n i fuel c)
      as [[v0 c0]| |] eqn:Hre; simpl; try discriminate.
    intros [= <- <- <-]. apply redraw_inv in Hre. rewrite Hlive in Hre.
    split; [|split]; [discriminate| |discriminate]. intros _. exact Hre.
Qed.

(** More fuel does not change a result. *)
Lemma redraw_mono (fuel fuel' c : nat) (r : option A * nat) :
  redraw enabled field getRandom built n i fuel c = Ok r →
  (fuel <= fuel')%nat →
  redraw enabled field getRandom built n i fuel' c = Ok r.
Proof.
  revert fuel' c. induction fuel as [|fuel IH]; intros fuel' c; simpl; [discriminate|].
  intros Hr Hle. destruct fuel' as [|fuel']; [lia|]. simpl.
  destruct (getRandom c) as [v0 c0].
  destruct ((n <=? i) && enabled); [|exact Hr].
  destruct (js_index built (i - n)) as [nBack|]; simpl in *; [|discriminate].
  destruct (bool_decide (v0 = field nBack) && bool_decide (v0 ≠ None)); [|exact Hr].
  apply IH; [exact Hr | lia].
Qed.

Lemma channel_value_mono (fuel fuel' : nat) (force : bool) (c : nat)
    (r : option A * bool * nat) :
  channel_value rand enabled field getRandom built n i fuel force c = Ok r →
  (fuel <= fuel')%nat →
  channel_value rand enabled field getRandom built n i fuel' force c = Ok r.
Proof.
  unfold channel_value. intros Hr Hle.
  destruct ((n <=? i) && enabled).
  - destruct (if force then (true, c)
              else (Qlt_bool (rand c) targetMatchProbability, S c)) as [take c1].
    destruct take; [exact Hr|].
    destruct (redraw enabled field getRandom built n i fuel c1) as [p| |] eqn:Hre;
      simpl in Hr; try discriminate.
    rewrite (redraw_mono fuel fuel' c1 p Hre Hle). exact Hr.
  - destruct (redraw enabled field getRandom built n i fuel c) as [p| |] eqn:Hre;
      simpl in Hr; try discriminate.
    rewrite (redraw_mono fuel fuel' c p Hre Hle). exact Hr.
Qed.

Lemma redraw_S (fuel c : nat) :
  redraw enabled field getRandom built n i (S fuel) c
  = let '(v, c') := getRandom c in
    if (n <=? i) && enabled then
      nBack ← deref (js_index built (i - n));
      if bool_decide (v = field nBack) && bool_decide (v ≠ None)
      then redraw enabled field getRandom built n i fuel c'
      else Ok (v, c')
    else Ok (v, c').
Proof. reflexivity. Qed.

(** The redraw loop ends as soon as the stream offers a value other than
    the N-back one, when each draw moves the cursor by one. *)
Lemma redraw_total (nBack : Stimulus) (c k : nat) :
  js_index built (i - n) = Some nBack →
  (∀ c0, (getRandom c0).2 = S c0) →
  (getRandom (c + k)).1 ≠ field nBack →
  ∃ r, redraw enabled field getRandom built n i (S k) c = Ok r.
Proof.
  intros Hnb Hstep. revert c. induction k as [|k IH]; intros c Hk.
  - rewrite Nat.add_0_r in Hk. rewrite redraw_S.
    destruct (getRandom c) as [v0 c0] eqn:Hdraw. simpl in Hk.
    destruct ((n <=? i) && enabled); [|eauto].
    rewrite Hnb. simpl. rewrite (bool_decide_eq_false_2 _ Hk). simpl. eauto.
  - rewrite redraw_S. pose proof (Hstep c) as Hc.
    destruct (getRandom c) as [v0 c0] eqn:Hdraw. simpl in Hc. subst c0.
    destruct ((n <=? i) && enabled); [|eauto].
    rewrite Hnb. cbn [deref mbind outcome_bind].
    destruct (bool_decide (v0 = field nBack) && bool_decide (v0 ≠ None)); [|eauto].
    apply IH. replace (S c + k)%nat with (c + S k)%nat by lia. exact Hk.
Qed.

Lemma redraw_idle (c : nat) :
  (n <=? i) && enabled = false →
  ∃ r, redraw enabled field getRandom built n i 1 c = Ok r.
Proof.
  intros Hlive. simpl. destruct (getRandom c) as [v0 c0].
  rewrite Hlive. eauto.
Qed.

(** The redraw loop never ends on a stream that keeps offering the
    N-back value. *)
Lemma redraw_stuck (nBack : Stimulus) :
  (n <=? i) && enabled = true →
  js_index built (i - n) = Some nBack →
  (∀ c, (getRandom c).1 = field nBack) →
  field nBack ≠ None →
  ∀ fuel c, redraw enabled field getRandom built n i fuel c = OutOfFuel.
Proof.
  intros Hlive Hnb Hsame Hval. induction fuel as [|fuel IH]; intros c; [reflexivity|].
  rewrite redraw_S. pose proof (Hsame c) as Hc.
  destruct (getRandom c) as [v c']. simpl in Hc. subst v.
  rewrite Hlive, Hnb. cbn [deref mbind outcome_bind].
  rewrite bool_decide_eq_true_2 by reflexivity.
  rewrite bool_decide_eq_true_2 by exact Hval.
  apply IH.
Qed.

End ChannelFacts.

Lemma scaled_floor_range (q : Q) (m : Z) :
  0 < m → (0 <= q)%Q → (q < 1)%Q → 0 <= Qfloor (q * inject_Z m) < m.
Proof.
  intros Hm H0 H1.
  assert (Hm' : (inject_Z 0 < inject_Z m)%Q) by (rewrite <- Zlt_Qlt; exact Hm).
  split.
  - change 0 with (Qfloor 0). apply Qfloor_resp_le.
    apply Qmult_le_0_compat; [exact H0 | apply Qlt_le_weak; exact Hm'].
  - rewrite Zlt_Qlt. eapply Qle_lt_trans; [apply Qfloor_le|].
    rewrite <- (Qmult_1_l (inject_Z m)) at 2.
    apply Qmult_lt_compat_r; assumption.
Qed.

Lemma getRandomVisual_hasValue (rand : nat → Q) (mode : GameMode) (c : nat) :
  mode ≠ Audio → (getRandomVisual rand mode c).1 ≠ None.
Proof.
  intros Hm. unfold getRandomVisual.
  destruct (decide (mode = Audio)); [contradiction|]. discriminate.
Qed.

Lemma getRandomAudio_hasValue (rand : nat → Q) (mode : GameMode) (c : nat) :
  unitInterval rand → mode ≠ Visual → (getRandomAudio rand mode c).1 ≠ None.
Proof.
  intros Hu Hm. unfold getRandomAudio.
  destruct (decide (mode = Visual)); [contradiction|].
  change (Z.of_nat (length AUDIO_LETTERS)) with 8.
  destruct (Hu c) as [H0 H1].
  pose proof (scaled_floor_range (rand c) 8 ltac:(lia) H0 H1) as Hr.
  destruct (js_index_is_Some AUDIO_LETTERS (Qfloor (rand c * inject_Z 8))) as [l Hl].
  - exact Hr.
  - cbn [fst]. rewrite Hl. discriminate.
Qed.

Lemma live_iff (n i : Z) (P : Prop) `{Decision P} :
  (n <=? i) && bool_decide P = true ↔ n <= i ∧ P.
Proof.
  rewrite andb_true_iff, Z.leb_le, bool_decide_eq_true. reflexivity.
Qed.

(** What one pass through the loop body does, channel by channel: the
    array and the log grow by one entry; a decided match copies the N-back
    stimulus, which exists; a trial without a decided match on an enabled
    channel holds a drawn value that is not the N-back one; and a forced
    match is a decided match. *)
Lemma trial_inv (rand : nat → Q) (fuel : nat) (st : GameSettings) (numTrials i : Z)
    (g g' : GenState) :
  trial rand fuel st numTrials i g = Ok g' →
  ∃ stim d,
    sequence g' = sequence g ++ [stim]
    ∧ decisions g' = decisions g ++ [d]
    ∧ ∀ ch,
        created ch g' = created ch g + Z.b2z (decidedMatch ch d)
        ∧ (decidedMatch ch d = true →
           nLevel st <= i ∧ channelEnabled ch (gameMode st)
           ∧ ∃ nBack, js_index (sequence g) (i - nLevel st) = Some nBack
                      ∧ (hasValue ch nBack → sameValue ch stim nBack))
        ∧ (decidedMatch ch d = false → channelEnabled ch (gameMode st) →
           (unitInterval rand → hasValue ch stim)
           ∧ (nLevel st <= i →
              ∃ nBack, js_index (sequence g) (i - nLevel st) = Some nBack
                       ∧ ¬ sameValue ch stim nBack))
        ∧ (channelEnabled ch (gameMode st) → nLevel st <= i →
           numTrials - i <= Z.max 0 (minMatchesOn ch st - created ch g) * 2 →
           0 < Z.max 0 (minMatchesOn ch st - created ch g) →
           decidedMatch ch d = true).
Proof.
  unfold trial.
  match goal with
  | |- context [channel_value rand ?e visualPosition ?gr ?b ?n ?i ?f ?force ?c] =>
      destruct (channel_value rand e visualPosition gr b n i f force c)
        as [[[vp vb] c1]| |] eqn:Hv; simpl; try discriminate;
      pose proof (channel_value_inv rand _ _ _ _ _ _ _ _ _ _ _ _ Hv) as (Hv1 & Hv2 & Hv3)
  end.
  match goal with
  | |- context [channel_value rand ?e audioLetter ?gr ?b ?n ?i ?f ?force ?c] =>
      destruct (channel_value rand e audioLetter gr b n i f force c)
        as [[[al ab] c2]| |] eqn:Ha; simpl; try discriminate;
      pose proof (channel_value_inv rand _ _ _ _ _ _ _ _ _ _ _ _ Ha) as (Ha1 & Ha2 & Ha3)
  end.
  clear Hv Ha. intros [= <-]. simpl.
  exists (mkStimulus vp al), (vb, ab).
  split; [reflexivity|]. split; [reflexivity|].
  rewrite live_iff in Hv1, Hv2, Hv3, Ha1, Ha2, Ha3.
  intros [|]; simpl; (split; [reflexivity|]); (split; [|split]).
  - intros Hb. destruct (Hv1 Hb) as ((Hn & Hen) & nBack & Hnb & Heq).
    split; [exact Hn|]. split; [exact Hen|]. exists nBack. split; [exact Hnb|].
    simpl. intros Hhas. destruct (visualPosition nBack) as [w|]; [|contradiction].
    exists w. simpl. auto.
  - intros Hb Hen. destruct (Hv2 Hb) as ((c0 & Hdrawn) & Hdiff). split.
    + intros _. simpl. rewrite Hdrawn. apply getRandomVisual_hasValue. exact Hen.
    + intros Hn. destruct (Hdiff (conj Hn Hen)) as (nBack & Hnb & Hne).
      exists nBack. split; [exact Hnb|]. simpl. intros (w & Hw & Hw').
      apply Hne. split; congruence.
  - intros Hen Hn Hrem Hneed. apply Hv3; [|split; assumption].
    rewrite !andb_true_iff, Z.leb_le, Z.leb_le, Z.ltb_lt, bool_decide_eq_true. auto.
  - intros Hb. destruct (Ha1 Hb) as ((Hn & Hen) & nBack & Hnb & Heq).
    split; [exact Hn|]. split; [exact Hen|]. exists nBack. split; [exact Hnb|].
    simpl. intros Hhas. destruct (audioLetter nBack) as [w|]; [|contradiction].
    exists w. simpl. auto.
  - intros Hb Hen. destruct (Ha2 Hb) as ((c0 & Hdrawn) & Hdiff). split.
    + intros Hu. simpl. rewrite Hdrawn. apply getRandomAudio_hasValue; assumption.
    + intros Hn. destruct (Hdiff (conj Hn Hen)) as (nBack & Hnb & Hne).
      exists nBack. split; [exact Hnb|]. simpl. intros (w & Hw & Hw').
      apply Hne. split; congruence.
  - intros Hen Hn Hrem Hneed. apply Ha3; [|split; assumption].
    rewrite !andb_true_iff, Z.leb_le, Z.leb_le, Z.ltb_lt, bool_decide_eq_true. auto.
Qed.

Lemma sameValue_hasValue (ch : ResponseType) (a b : Stimulus) :
  sameValue ch a b → hasValue ch a.
Proof. destruct ch; simpl; intros (v & Ha & _); congruence. Qed.

Lemma not_same_differ (ch : ResponseType) (a b : Stimulus) :
  hasValue ch a → hasValue ch b → ¬ sameValue ch a b → valuesDiffer ch a b.
Proof.
  destruct ch; simpl; intros Ha Hb Hne.
  - destruct (visualPosition a) as [v|]; [|contradiction].
    destruct (visualPosition b) as [w|]; [|contradiction].
    exists v, w. do 2 (split; [reflexivity|]). intros ->. apply Hne. eauto.
  - destruct (audioLetter a) as [v|]; [|contradiction].
    destruct (audioLetter b) as [w|]; [|contradiction].
    exists v, w. do 2 (split; [reflexivity|]). intros ->. apply Hne. eauto.
Qed.

Lemma filter_length_mono {A : Type} (P Q : A → Prop)
    `{∀ x, Decision (P x)} `{∀ x, Decision (Q x)} (l : list A) :
  (∀ x, P x → Q x) → (length (filter P l) <= length (filter Q l))%nat.
Proof.
  intros HPQ. induction l as [|x l IH]; [done|].
  rewrite !filter_cons.
  destruct (decide (P x)) as [HP|HP], (decide (Q x)) as [HQ|HQ]; simpl; try lia.
  exfalso. auto.
Qed.

Lemma matchAt_app (ch : ResponseType) (n : Z) (stimuli : list Stimulus) (x : Stimulus)
    (i : Z) :
  matchAt ch n stimuli i → matchAt ch n (stimuli ++ [x]) i.
Proof.
  intros (Hn & cur & nBack & Hcur & Hnb & Hs). split; [exact Hn|].
  exists cur, nBack. split; [|split; [|exact Hs]].
  - rewrite js_index_app_l; [exact Hcur|]. apply js_index_Some in Hcur. lia.
  - rewrite js_index_app_l; [exact Hnb|]. apply js_index_Some in Hnb. lia.
Qed.

Lemma countMatches_snoc (ch : ResponseType) (n : Z) (stimuli : list Stimulus)
    (x : Stimulus) :
  (countMatches ch n stimuli
   + (if decide (matchAt ch n (stimuli ++ [x]) (Z.of_nat (length stimuli)))
      then 1 else 0)
   <= countMatches ch n (stimuli ++ [x]))%nat.
Proof.
  unfold countMatches. rewrite length_app. simpl.
  rewrite Nat.add_1_r, seqZ_S, filter_app, length_app, Z.add_0_l.
  apply Nat.add_le_mono.
  - apply filter_length_mono. intros i. apply matchAt_app.
  - rewrite filter_cons, filter_nil. case_decide; simpl; lia.
Qed.

(** Induction along the [for] loop: a property kept by the body on every
    trial below [hi] holds when the loop is left. *)
Lemma trials_ind (rand : nat → Q) (fuel : nat) (st : GameSettings) (numTrials hi : Z)
    (P : Z → GenState → Prop) :
  (∀ i g g', i < hi → P i g → trial rand fuel st numTrials i g = Ok g' → P (i + 1) g') →
  ∀ k i g g', i + Z.of_nat k <= hi → P i g →
    trials rand fuel st numTrials k i g = Ok g' → P (i + Z.of_nat k) g'.
Proof.
  intros Hstep. induction k as [|k IH]; intros i g g' Hhi HP; simpl.
  - intros [= <-]. rewrite Z.add_0_r. exact HP.
  - destruct (trial rand fuel st numTrials i g) as [g1| |] eqn:Ht; simpl;
      try discriminate.
    intros Hrest.
    replace (i + Z.of_nat (S k)) with ((i + 1) + Z.of_nat k) by lia.
    apply (IH (i + 1) g1 g'); [lia| |exact Hrest].
    apply (Hstep i g g1); [lia|exact HP|exact Ht].
Qed.

Section LoopInvariant.
Variable rand : nat → Q.
Variable fuel : nat.
Variable st : GameSettings.
Variable numTrials : Z.
Variable ch : ResponseType.
Hypothesis Hen : channelEnabled ch (gameMode st).
Hypothesis Hu : unitInterval rand.

Lemma js_index_snoc_inv {A : Type} (arr : list A) (x y : A) (j : Z) :
  js_index (arr ++ [x]) j = Some y →
  (j < Z.of_nat (length arr) ∧ js_index arr j = Some y)
  ∨ (j = Z.of_nat (length arr) ∧ y = x).
Proof.
  intros Hj. pose proof Hj as Hb. apply js_index_Some in Hb.
  rewrite length_app in Hb. simpl in Hb.
  destruct (decide (j < Z.of_nat (length arr))) as [Hlt|Hge].
  - left. split; [exact Hlt|]. rewrite js_index_app_l in Hj; assumption.
  - right. assert (j = Z.of_nat (length arr)) as -> by lia.
    rewrite js_index_app_last in Hj. split; congruence.
Qed.

Lemma genInv_step (i : Z) (g g' : GenState) :
  genInv st ch i g → trial rand fuel st numTrials i g = Ok g' → genInv st ch (i + 1) g'.
Proof.
  intros (Hi & Hlen & Hval & Hdiff & Hc0 & Hcnt) Ht.
  destruct (trial_inv _ _ _ _ _ _ _ Ht) as (stim & d & Hseq & Hdec & Hch).
  destruct (Hch ch) as (Hcr & Hyes & Hno & _). clear Hch.
  (* the new stimulus has a value, and is a true match when decided *)
  assert (Hstim : hasValue ch stim
                  ∧ (decidedMatch ch d = true →
                     matchAt ch (nLevel st) (sequence g ++ [stim]) i)).
  { destruct (decidedMatch ch d) eqn:Hd.
    - destruct (Hyes eq_refl) as (Hn & _ & nBack & Hnb & Hsame).
      specialize (Hsame (Hval _ _ Hnb)). split.
      + eapply sameValue_hasValue. exact Hsame.
      + intros _. split; [exact Hn|]. exists stim, nBack.
        split; [rewrite Hi; apply js_index_app_last|].
        split; [|exact Hsame].
        rewrite js_index_app_l; [exact Hnb|]. apply js_index_Some in Hnb. lia.
    - split; [|discriminate]. apply (Hno eq_refl Hen). exact Hu. }
  destruct Hstim as [Hstim Hmatch].
  unfold genInv. rewrite Hseq, Hdec, !length_app. simpl.
  split; [lia|]. split; [lia|]. split; [|split].
  - intros j s Hj. destruct (js_index_snoc_inv _ _ _ _ Hj) as [[_ Hold]|[_ ->]].
    + eapply Hval. exact Hold.
    + exact Hstim.
  - intros j d0 Hn Hj Hd0.
    destruct (js_index_snoc_inv _ _ _ _ Hj) as [[Hlt Hold]|[Hjeq ->]].
    + destruct (Hdiff j d0 Hn Hold Hd0) as (cur & nBack & Hcur & Hnb & Hvd).
      exists cur, nBack. split; [|split; [|exact Hvd]].
      * rewrite js_index_app_l; [exact Hcur|]. apply js_index_Some in Hcur. lia.
      * rewrite js_index_app_l; [exact Hnb|]. apply js_index_Some in Hnb. lia.
    + assert (j = i) as -> by lia.
      destruct (Hno Hd0 Hen) as [_ Hne].
      destruct (Hne Hn) as (nBack & Hnb & Hns).
      exists stim, nBack. split; [rewrite Hi; apply js_index_app_last|]. split.
      * rewrite js_index_app_l; [exact Hnb|]. apply js_index_Some in Hnb. lia.
      * apply not_same_differ; [exact Hstim| |exact Hns]. eapply Hval. exact Hnb.
  - rewrite Hcr.
    pose proof (countMatches_snoc ch (nLevel st) (sequence g) stim) as Hsn.
    rewrite <- Hi in Hsn.
    destruct (decidedMatch ch d) eqn:Hd; simpl.
    + specialize (Hmatch eq_refl).
      destruct (decide (matchAt ch (nLevel st) (sequence g ++ [stim]) i));
        [|contradiction]. lia.
    + lia.
Qed.

Lemma forceInv_step (i : Z) (g g' : GenState) :
  i < numTrials →
  forceInv st numTrials ch i g → trial rand fuel st numTrials i g = Ok g' → forceInv st numTrials ch (i + 1) g'.
Proof.
  unfold forceInv. intros Hlt Hinv Ht.
  destruct (trial_inv _ _ _ _ _ _ _ Ht) as (stim & d & _ & _ & Hch).
  destruct (Hch ch) as (Hcr & Hyes & _ & Hforce). clear Hch.
  rewrite Hcr. destruct (decidedMatch ch d) eqn:Hd; simpl.
  - destruct (Hyes eq_refl) as (Hn & _). lia.
  - destruct (decide (nLevel st <= i)) as [Hn|Hn]; [|lia].
    destruct (decide (numTrials - i
                      <= Z.max 0 (minMatchesOn ch st - created ch g) * 2)) as [Hr|Hr];
      [|lia].
    destruct (decide (0 < Z.max 0 (minMatchesOn ch st - created ch g))) as [Hp|Hp];
      [|lia].
    specialize (Hforce Hen Hn Hr Hp). discriminate.
Qed.

Lemma genInv_init : genInv st ch 0 initialGenState.
Proof.
  unfold genInv. simpl. split; [reflexivity|]. split; [reflexivity|].
  split; [|split].
  - intros j s Hj. apply js_index_Some in Hj. simpl in Hj. lia.
  - intros j d _ Hj. apply js_index_Some in Hj. simpl in Hj. lia.
  - destruct ch; simpl; lia.
Qed.

(** Both invariants hold when the loop is left. *)
Lemma trials_invariants (g' : GenState) :
  0 <= numTrials →
  2 * Z.max 0 (minMatchesOn ch st) <= numTrials - Z.max 0 (nLevel st) + 1 →
  trials rand fuel st numTrials (Z.to_nat numTrials) 0 initialGenState = Ok g' →
  genInv st ch numTrials g' ∧ forceInv st numTrials ch numTrials g'.
Proof.
  intros HT Hroom Hrun.
  assert (Hstart : genInv st ch 0 initialGenState ∧ forceInv st numTrials ch 0 initialGenState).
  { split; [apply genInv_init|]. unfold forceInv.
    replace (created ch initialGenState) with 0 by (destruct ch; reflexivity).
    rewrite Z.sub_0_r. exact Hroom. }
  pose proof (trials_ind rand fuel st numTrials numTrials
                (λ i g, genInv st ch i g ∧ forceInv st numTrials ch i g)) as Hind.
  cbv beta in Hind.
  specialize (Hind ltac:(intros i g g1 Hlt [H1 H2] Ht; split;
                         [eapply genInv_step | eapply forceInv_step]; eassumption)
                (Z.to_nat numTrials) 0 initialGenState g' ltac:(lia) Hstart Hrun).
  replace (0 + Z.of_nat (Z.to_nat numTrials)) with numTrials in Hind by lia.
  exact Hind.
Qed.

Lemma trials_genInv (g' : GenState) :
  0 <= numTrials →
  trials rand fuel st numTrials (Z.to_nat numTrials) 0 initialGenState = Ok g' →
  genInv st ch numTrials g'.
Proof.
  intros HT Hrun.
  pose proof (trials_ind rand fuel st numTrials numTrials (genInv st ch)
                ltac:(intros i g g1 _ H1 Ht; eapply genInv_step; eassumption)
                (Z.to_nat numTrials) 0 initialGenState g' ltac:(lia)
                genInv_init Hrun) as Hind.
  replace (0 + Z.of_nat (Z.to_nat numTrials)) with numTrials in Hind by lia.
  exact Hind.
Qed.

End LoopInvariant.

(** *** Termination of the redraw loops *)

Section Termination.
Variable rand : nat → Q.
Hypothesis Hu : unitInterval rand.
Hypothesis Hfair : neverStuck rand.

Lemma channel_value_total {A : Type} `{EqDecision A} (enabled : bool)
    (field : Stimulus → option A) (getRandom : nat → option A * nat)
    (built : list Stimulus) (n i : Z) (force : bool) (c : nat) :
  (enabled = true → ∀ c0, (getRandom c0).2 = S c0) →
  ((n <=? i) && enabled = true →
   ∃ nBack, js_index built (i - n) = Some nBack
            ∧ ∀ c0, ∃ k, (getRandom (c0 + k)%nat).1 ≠ field nBack) →
  ∃ fuel r, channel_value rand enabled field getRandom built n i fuel force c = Ok r.
Proof.
  intros Hstep Hlive. unfold channel_value.
  destruct ((n <=? i) && enabled) eqn:Hl.
  - destruct (Hlive eq_refl) as (nBack & Hnb & Hdraw).
    apply andb_true_iff in Hl. destruct Hl as [_ ->].
    destruct (if force then (true, c)
              else (Qlt_bool (rand c) targetMatchProbability, S c)) as [take c1].
    destruct take.
    + exists 0%nat. rewrite Hnb. simpl. eauto.
    + destruct (Hdraw c1) as [k Hk].
      destruct (redraw_total true field getRandom built n i nBack c1 k Hnb
                  (Hstep eq_refl) Hk) as [[v c2] Hr].
      exists (S k). rewrite Hr. simpl. eauto.
  - destruct (redraw_idle enabled field getRandom built n i c Hl) as [[v c2] Hr].
    exists 1%nat. rewrite Hr. simpl. eauto.
Qed.

Lemma trial_mono (fuel fuel' : nat) (st : GameSettings) (numTrials i : Z)
    (g g' : GenState) :
  trial rand fuel st numTrials i g = Ok g' → (fuel <= fuel')%nat →
  trial rand fuel' st numTrials i g = Ok g'.
Proof.
  unfold trial. intros Ht Hle.
  match type of Ht with
  | context [channel_value rand ?e visualPosition ?gr ?b ?n ?i ?f ?force ?c] =>
      destruct (channel_value rand e visualPosition gr b n i f force c)
        as [[[vp vb] c1]| |] eqn:Hv; simpl in Ht; try discriminate;
      rewrite (channel_value_mono rand _ _ _ _ _ _ _ fuel' _ _ _ Hv Hle); simpl
  end.
  match type of Ht with
  | context [channel_value rand ?e audioLetter ?gr ?b ?n ?i ?f ?force ?c] =>
      destruct (channel_value rand e audioLetter gr b n i f force c)
        as [[[al ab] c2]| |] eqn:Ha; simpl in Ht; try discriminate;
      rewrite (channel_value_mono rand _ _ _ _ _ _ _ fuel' _ _ _ Ha Hle); simpl
  end.
  exact Ht.
Qed.

Lemma trials_mono (fuel fuel' : nat) (st : GameSettings) (numTrials : Z) (k : nat)
    (i : Z) (g g' : GenState) :
  trials rand fuel st numTrials k i g = Ok g' → (fuel <= fuel')%nat →
  trials rand fuel' st numTrials k i g = Ok g'.
Proof.
  revert i g. induction k as [|k IH]; intros i g; simpl; [done|].
  destruct (trial rand fuel st numTrials i g) as [g1| |] eqn:Ht; simpl;
    try discriminate.
  intros Hrest Hle. rewrite (trial_mono _ _ _ _ _ _ _ Ht Hle). simpl.
  apply IH; assumption.
Qed.

Lemma trial_total (st : GameSettings) (numTrials i : Z) (g : GenState) :
  1 <= nLevel st → i = Z.of_nat (length (sequence g)) →
  ∃ fuel g', trial rand fuel st numTrials i g = Ok g'.
Proof.
  intros HN Hi.
  assert (Hnb : nLevel st <= i → ∃ nBack, js_index (sequence g) (i - nLevel st) = Some nBack).
  { intros Hle. apply js_index_is_Some. lia. }
  set (mode := gameMode st).
  set (fv := (nLevel st <=? i) && (numTrials - i <=? Z.max 0 (minMatches st Audio
                - visualMatchesCreated g) * 2)
             && (0 <? Z.max 0 (minMatches st Audio - visualMatchesCreated g))
             && bool_decide (mode ≠ Audio)).
  destruct (channel_value_total (bool_decide (mode ≠ Audio)) visualPosition
              (getRandomVisual rand mode) (sequence g) (nLevel st) i fv (cursor g))
    as (f1 & [[vp vb] c1] & Hv).
  { intros Hen c0. apply bool_decide_eq_true in Hen. unfold getRandomVisual.
    destruct (decide (mode = Audio)); [contradiction|reflexivity]. }
  { intros Hlive. apply live_iff in Hlive. destruct Hlive as [Hle Hen].
    destruct (Hnb Hle) as [nBack HnBack]. exists nBack. split; [exact HnBack|].
    intros c0. unfold getRandomVisual.
    destruct (decide (mode = Audio)); [contradiction|]. cbn [fst].
    destruct (visualPosition nBack) as [x|].
    - destruct (proj1 (Hfair c0) x) as [k Hk]. exists k.
      intros [= Heq]. exact (Hk Heq).
    - exists 0%nat. discriminate. }
  set (fa := (nLevel st <=? i) && (numTrials - i <=? Z.max 0 (minMatches st Visual
                - audioMatchesCreated g) * 2)
             && (0 <? Z.max 0 (minMatches st Visual - audioMatchesCreated g))
             && bool_decide (mode ≠ Visual)).
  destruct (channel_value_total (bool_decide (mode ≠ Visual)) audioLetter
              (getRandomAudio rand mode) (sequence g) (nLevel st) i fa c1)
    as (f2 & [[al ab] c2] & Ha).
  { intros Hen c0. apply bool_decide_eq_true in Hen. unfold getRandomAudio.
    destruct (decide (mode = Visual)); [contradiction|reflexivity]. }
  { intros Hlive. apply live_iff in Hlive. destruct Hlive as [Hle Hen].
    destruct (Hnb Hle) as [nBack HnBack]. exists nBack. split; [exact HnBack|].
    intros c0.
    destruct (audioLetter nBack) as [l|].
    - destruct (proj2 (Hfair c0) l) as [k Hk]. exists k. unfold getRandomAudio.
      destruct (decide (mode = Visual)); [contradiction|]. exact Hk.
    - exists 0%nat. apply getRandomAudio_hasValue; assumption. }
  exists (Nat.max f1 f2). unfold trial. fold mode. fold fv. fold fa.
  rewrite (channel_value_mono rand _ _ _ _ _ _ _ (Nat.max f1 f2) _ _ _ Hv) by lia.
  simpl.
  rewrite (channel_value_mono rand _ _ _ _ _ _ _ (Nat.max f1 f2) _ _ _ Ha) by lia.
  simpl. eauto.
Qed.

Lemma trials_total (st : GameSettings) (numTrials : Z) (k : nat) (i : Z)
    (g : GenState) :
  1 <= nLevel st → i = Z.of_nat (length (sequence g)) →
  ∃ fuel g', trials rand fuel st numTrials k i g = Ok g'.
Proof.
  intros HN. revert i g. induction k as [|k IH]; intros i g Hi.
  - exists 0%nat, g. reflexivity.
  - destruct (trial_total st numTrials i g HN Hi) as (f1 & g1 & Ht).
    destruct (trial_inv _ _ _ _ _ _ _ Ht) as (stim & d & Hseq & _).
    destruct (IH (i + 1) g1) as (f2 & g2 & Hrest).
    { rewrite Hseq, length_app. simpl. lia. }
    exists (Nat.max f1 f2), g2. simpl.
    rewrite (trial_mono _ (Nat.max f1 f2) _ _ _ _ _ Ht) by lia. simpl.
    apply (trials_mono f2); [exact Hrest | lia].
Qed.

(** With N at least 1 the generator returns, given fuel enough. *)
Lemma generateTrace_total (st : GameSettings) :
  1 <= nLevel st → ∃ fuel g, generateTrace rand fuel st = Ok g.
Proof.
  intros HN. unfold generateTrace. case_decide.
  - exists 0%nat. eauto.
  - apply trials_total; [exact HN | reflexivity].
Qed.

End Termination.

Lemma trials_S (rand : nat → Q) (fuel : nat) (st : GameSettings) (numTrials : Z)
    (k : nat) (i : Z) (g : GenState) :
  trials rand fuel st numTrials (S k) i g
  = trial rand fuel st numTrials i g ≫= trials rand fuel st numTrials k (i + 1).
Proof. reflexivity. Qed.

Lemma generateSequence_Ok (rand : nat → Q) (fuel : nat) (st : GameSettings)
    (stimuli : list Stimulus) :
  generateSequence rand fuel st = Ok stimuli ↔
  ∃ g, generateTrace rand fuel st = Ok g ∧ sequence g = stimuli.
Proof.
  unfold generateSequence. destruct (generateTrace rand fuel st) as [g| |]; simpl.
  - split.
    + intros [= <-]. exists g. split; reflexivity.
    + intros (g0 & [= <-] & <-). reflexivity.
  - split; [discriminate | intros (g0 & Hg & _); discriminate Hg].
  - split; [discriminate | intros (g0 & Hg & _); discriminate Hg].
Qed.

(** The invariant of a channel holds of whatever the generator returns. *)
Lemma generateTrace_genInv (rand : nat → Q) (fuel : nat) (st : GameSettings)
    (ch : ResponseType) (g : GenState) :
  channelEnabled ch (gameMode st) → unitInterval rand →
  generateTrace rand fuel st = Ok g →
  ∃ i, genInv st ch i g.
Proof.
  intros Hen Hu. unfold generateTrace. case_decide.
  - intros [= <-]. exists 0. apply genInv_init; exact Hen.
  - destruct (decide (0 <= numTrialsOf st)) as [HT|HT].
    + intros Hrun. exists (numTrialsOf st).
      eapply trials_genInv; eassumption.
    + replace (Z.to_nat (numTrialsOf st)) with 0%nat by lia. simpl.
      intros [= <-]. exists 0. apply genInv_init; exact Hen.
Qed.

(** *** The stream [cycle4] *)

Lemma cycle4_cases (k : nat) :
  cycle4 k = (0 / 4)%Q ∨ cycle4 k = (1 / 4)%Q ∨ cycle4 k = (2 / 4)%Q ∨ cycle4 k = (3 / 4)%Q.
Proof.
  unfold cycle4. pose proof (Nat.mod_upper_bound k 4 ltac:(lia)) as Hk.
  destruct (k mod 4)%nat as [|[|[|[|r]]]]; [tauto..|lia].
Qed.

Lemma cycle4_unitInterval : unitInterval cycle4.
Proof.
  intros k. destruct (cycle4_cases k) as [-> | [-> | [-> | ->]]];
    split; vm_compute; congruence.
Qed.

Lemma cycle4_next (c : nat) :
  (cycle4 c = (0 / 4)%Q ∧ cycle4 (c + 1) = (1 / 4)%Q)
  ∨ (cycle4 c = (1 / 4)%Q ∧ cycle4 (c + 1) = (2 / 4)%Q)
  ∨ (cycle4 c = (2 / 4)%Q ∧ cycle4 (c + 1) = (3 / 4)%Q)
  ∨ (cycle4 c = (3 / 4)%Q ∧ cycle4 (c + 1) = (0 / 4)%Q).
Proof.
  unfold cycle4. rewrite <- (Nat.Div0.add_mod_idemp_l c 1 4).
  pose proof (Nat.mod_upper_bound c 4 ltac:(lia)) as Hc.
  destruct (c mod 4)%nat as [|[|[|[|r]]]]; [tauto..|lia].
Qed.

Lemma cycle4_neverStuck : neverStuck cycle4.
Proof.
  intros c. split.
  - intros x.
    destruct (decide (Qfloor (cycle4 c * inject_Z GRID_CELL_COUNT) = x)) as [Heq|Hne].
    + exists 1%nat. subst x.
      destruct (cycle4_next c) as [[-> ->] | [[-> ->] | [[-> ->] | [-> ->]]]];
        vm_compute; congruence.
    + exists 0%nat. rewrite Nat.add_0_r. exact Hne.
  - intros l.
    destruct (decide (js_index AUDIO_LETTERS
                (Qfloor (cycle4 c * inject_Z (Z.of_nat (length AUDIO_LETTERS))))
              = Some l)) as [Heq|Hne].
    + exists 1%nat. rewrite <- Heq.
      destruct (cycle4_next c) as [[-> ->] | [[-> ->] | [[-> ->] | [-> ->]]]];
        vm_compute; congruence.
    + exists 0%nat. rewrite Nat.add_0_r. exact Hne.
Qed.

(** *** The engine on concrete inputs *)

Example scenario_scores :
  ∃ res m q,
    calculateResults scenarioSettings scenarioState = Ok res
    ∧ visual res = Some m ∧ audio res = None
    ∧ totalMatches m = 2 ∧ hits m = 1 ∧ misses m = 1 ∧ falseAlarms m = 0
    ∧ errors m = 1
    ∧ rate m = Finite q ∧ (q == 50)%Q.
Proof.
  do 3 eexists. split; [vm_compute; reflexivity|].
  repeat (split; [reflexivity|]). reflexivity.
Qed.

Example session_run :
  ∃ s, runEvents 0 initialState
         [ START_GAME demoSettings demoSequence; RUN_GAME;
           NEXT_TRIAL 1000 demoSettings; NEXT_TRIAL 5000 demoSettings;
           NEXT_TRIAL 9000 demoSettings;
           REGISTER_RESPONSE visual_response 9500 demoSettings;
           REGISTER_RESPONSE visual_response 9600 demoSettings;
           REGISTER_RESPONSE audio_response 9700 demoSettings;
           NEXT_TRIAL 13000 demoSettings; NEXT_TRIAL 17000 demoSettings ] = Ok s
       ∧ status s = finished ∧ currentTrial s = 3 ∧ score s = 0
       ∧ userResponses s !! 2 = Some {| r_visual := Some true; r_audio := Some true |}
       ∧ results s = None.
Proof.
  eexists. split; [vm_compute; reflexivity|].
  repeat (split; [reflexivity|]). reflexivity.
Qed.

Example generated_prefix :
  take 4 <$> generateSequence cycle4 5 DEFAULT_SETTINGS
  = Ok [ mkStimulus (Some 0) (Some "K"%string); mkStimulus (Some 4) (Some "S"%string);
         mkStimulus (Some 0) (Some "Q"%string); mkStimulus (Some 0) (Some "Q"%string) ].
Proof. vm_compute. reflexivity. Qed.

(** A stream that is stuck on 1/2 never decides a match by chance and
    redraws cell 4 forever at the third trial: no fuel is enough. *)
Example stuck_stream_spins (fuel : nat) :
  generateSequence (λ _, (1 # 2)%Q) fuel DEFAULT_SETTINGS = OutOfFuel.
Proof.
  unfold generateSequence, generateTrace.
  destruct (decide _) as [Hbad|_]; [simpl in Hbad; lia|].
  change (Z.to_nat (numTrialsOf DEFAULT_SETTINGS)) with 30%nat.
  destruct fuel as [|fuel]; [reflexivity|].
  rewrite trials_S.
  change (trial _ (S fuel) DEFAULT_SETTINGS (numTrialsOf DEFAULT_SETTINGS) 0 initialGenState)
    with (Ok {| sequence := [mkStimulus (Some 4) (Some "Q"%string)];
                visualMatchesCreated := 0; audioMatchesCreated := 0;
                cursor := 2; decisions := [(false, false)] |}).
  cbn [mbind outcome_bind]. rewrite trials_S.
  change (trial _ (S fuel) DEFAULT_SETTINGS (numTrialsOf DEFAULT_SETTINGS) (0 + 1) _)
    with (Ok {| sequence := [mkStimulus (Some 4) (Some "Q"%string);
                             mkStimulus (Some 4) (Some "Q"%string)];
                visualMatchesCreated := 0; audioMatchesCreated := 0;
                cursor := 4; decisions := [(false, false); (false, false)] |}).
  cbn [mbind outcome_bind]. rewrite trials_S.
  set (half := λ _ : nat, (1 # 2)%Q).
  set (s4 := mkStimulus (Some 4) (Some "Q"%string)).
  assert (Hv : channel_value half (bool_decide (Dual ≠ Audio)) visualPosition
                 (getRandomVisual half Dual) [s4; s4] 2 2 (S fuel) false 4
               = OutOfFuel).
  { unfold channel_value.
    change ((2 <=? 2) && bool_decide (Dual ≠ Audio)) with true. cbv iota.
    change (Qlt_bool (half 4%nat) targetMatchProbability) with false. cbv iota.
    rewrite (redraw_stuck true visualPosition (getRandomVisual half Dual)
               [s4; s4] 2 2 s4); [reflexivity..|discriminate]. }
  unfold trial.
  match goal with
  | |- context [channel_value ?r ?e visualPosition ?gr ?b ?n ?i ?f ?force ?c] =>
      change (channel_value r e visualPosition gr b n i f force c)
        with (channel_value half (bool_decide (Dual ≠ Audio)) visualPosition
                (getRandomVisual half Dual) [s4; s4] 2 2 (S fuel) false 4)
  end.
  rewrite Hv. reflexivity.
Qed.


(** *** Length of the generated sequence *)

Lemma trials_length (rand : nat → Q) (fuel : nat) (st : GameSettings) (numTrials : Z)
    (k : nat) (i : Z) (g g' : GenState) :
  trials rand fuel st numTrials k i g = Ok g' →
  length (sequence g') = (length (sequence g) + k)%nat.
Proof.
  revert i g. induction k as [|k IH]; intros i g; simpl.
  - intros [= <-]. lia.
  - destruct (trial rand fuel st numTrials i g) as [g1| |] eqn:Ht; simpl;
      try discriminate.
    intros Hrest. rewrite (IH _ _ Hrest).
    destruct (trial_inv _ _ _ _ _ _ _ Ht) as (stim & d & -> & _).
    rewrite length_app. simpl. lia.
Qed.

(** C5, as the generator has it. With a trial period of 0 or less the
    generator returns the empty sequence. With a positive trial period,
    whatever it returns has exactly
    [max 0 (floor (sessionDuration * 1000 / trialPeriod))] elements; and
    it does return (for fuel enough) when N is at least 1 and the random
    stream is within [0, 1) and never stuck. *)
Theorem generateSequence_length (rand : nat → Q) (st : GameSettings) :
  (stimulusDuration st + interStimulusInterval st <= 0 →
   ∀ fuel, generateSequence rand fuel st = Ok [])
  ∧ (0 < stimulusDuration st + interStimulusInterval st →
     (unitInterval rand → neverStuck rand → 1 <= nLevel st →
      ∃ fuel stimuli, generateSequence rand fuel st = Ok stimuli)
     ∧ ∀ fuel stimuli, generateSequence rand fuel st = Ok stimuli →
         Z.of_nat (length stimuli)
         = Z.max 0 ((sessionDuration st * 1000)
                    `div` (stimulusDuration st + interStimulusInterval st))).
Proof.
  split.
  - intros Hbad fuel. unfold generateSequence, generateTrace.
    case_decide; [reflexivity|contradiction].
  - intros Hpos. split.
    + intros Hu Hfair HN.
      destruct (generateTrace_total rand Hu Hfair st HN) as (fuel & g & Hg).
      exists fuel, (sequence g). apply generateSequence_Ok. eauto.
    + intros fuel stimuli Hrun. apply generateSequence_Ok in Hrun.
      destruct Hrun as (g & Hg & <-). unfold generateTrace in Hg.
      case_decide; [lia|]. apply trials_length in Hg. rewrite Hg. simpl.
      unfold numTrialsOf. lia.
Qed.

Lemma generateSequence_length_witness :
  (∃ fuel stimuli, generateSequence cycle4 fuel DEFAULT_SETTINGS = Ok stimuli)
  ∧ ∃ stimuli, generateSequence cycle4 5 DEFAULT_SETTINGS = Ok stimuli
               ∧ Z.of_nat (length stimuli) = Z.max 0 ((120 * 1000) `div` (1500 + 2500)).
Proof.
  pose proof (proj2 (generateSequence_length cycle4 DEFAULT_SETTINGS)) as H.
  destruct H as [Hret Hlen]; [simpl; lia|]. split.
  - apply Hret; [exact cycle4_unitInterval | exact cycle4_neverStuck | simpl; lia].
  - eexists. split; [vm_compute; reflexivity|].
    apply (Hlen 5%nat). vm_compute. reflexivity.
Defined.

(** C5 as stated fails on settings the generator accepts. With a session
    of -1 seconds the trial period is positive and the floor is -1, yet
    the sequence returned is empty; with N = 0 and a session of 120
    seconds the first trial reads [sequence[0]] of the empty array and the
    call throws, whatever the random stream. *)
Lemma generateSequence_length_not_floor :
  (0 < stimulusDuration negativeSession + interStimulusInterval negativeSession
   ∧ (sessionDuration negativeSession * 1000)
       `div` (stimulusDuration negativeSession + interStimulusInterval negativeSession)
     = -1
   ∧ ∀ rand fuel, generateSequence rand fuel negativeSession = Ok []
   ∧ Z.of_nat (length (@nil Stimulus)) ≠ -1)
  ∧ (0 < stimulusDuration zeroBack + interStimulusInterval zeroBack
     ∧ ∀ rand fuel, generateSequence rand (S fuel) zeroBack = TypeError).
Proof.
  split.
  - split; [simpl; lia|]. split; [reflexivity|].
    intros rand fuel. split; [reflexivity | simpl; lia].
  - split; [simpl; lia|]. intros rand fuel.
    unfold generateSequence, generateTrace.
    destruct (decide (stimulusDuration zeroBack + interStimulusInterval zeroBack <= 0))
      as [Hbad|_]; [simpl in Hbad; lia|].
    change (Z.to_nat (numTrialsOf zeroBack)) with 30%nat.
    rewrite trials_S.
    assert (Ht : trial rand (S fuel) zeroBack (numTrialsOf zeroBack) 0 initialGenState
                 = TypeError).
    { unfold trial, channel_value. simpl.
      destruct (Qlt_bool (rand 0%nat) targetMatchProbability); reflexivity. }
    rewrite Ht. reflexivity.
Qed.

(** *** No self-collision *)

(** C9. Let the random stream be within [0, 1). The generator returns for
    every N of at least 1 when the stream is never stuck; and in whatever
    it returns, the log has one decision per trial, and at every index
    [i >= N] where no match was decided on a channel that the game mode
    enables, the values at [i] and at [i - N] are two different non-null
    values. *)
Theorem no_self_collision (rand : nat → Q) (st : GameSettings) :
  unitInterval rand →
  (neverStuck rand → 1 <= nLevel st → ∃ fuel g, generateTrace rand fuel st = Ok g)
  ∧ ∀ fuel g, generateTrace rand fuel st = Ok g →
      generateSequence rand fuel st = Ok (sequence g)
      ∧ length (decisions g) = length (sequence g)
      ∧ ∀ ch i d,
          channelEnabled ch (gameMode st) →
          nLevel st <= i →
          js_index (decisions g) i = Some d →
          decidedMatch ch d = false →
          ∃ cur nBack,
            js_index (sequence g) i = Some cur
            ∧ js_index (sequence g) (i - nLevel st) = Some nBack
            ∧ valuesDiffer ch cur nBack.
Proof.
  intros Hu. split.
  - intros Hfair HN. apply generateTrace_total; assumption.
  - intros fuel g Hg. split; [apply generateSequence_Ok; eauto|].
    split.
    + destruct (decide (gameMode st = Audio)) as [Hm|Hm].
      * destruct (generateTrace_genInv rand fuel st audio_response g) as (i & _ & Hl & _);
          [simpl; congruence|exact Hu|exact Hg|exact Hl].
      * destruct (generateTrace_genInv rand fuel st visual_response g) as (i & _ & Hl & _);
          [exact Hm|exact Hu|exact Hg|exact Hl].
    + intros ch i d Hen HN Hd Hno.
      destruct (generateTrace_genInv rand fuel st ch g Hen Hu Hg)
        as (i0 & _ & _ & _ & Hdiff & _).
      exact (Hdiff i d HN Hd Hno).
Qed.

Lemma no_self_collision_witness :
  ∃ g, generateTrace cycle4 5 DEFAULT_SETTINGS = Ok g
       ∧ js_index (decisions g) 3 = Some (false, false)
       ∧ ∃ cur nBack,
           js_index (sequence g) 3 = Some cur
           ∧ js_index (sequence g) (3 - nLevel DEFAULT_SETTINGS) = Some nBack
           ∧ valuesDiffer visual_response cur nBack.
Proof.
  eexists. split; [vm_compute; reflexivity|].
  split; [vm_compute; reflexivity|].
  refine (proj2 (proj2 (proj2 (no_self_collision cycle4 DEFAULT_SETTINGS
                                 cycle4_unitInterval) 5%nat _ _))
            visual_response 3 (false, false) _ _ _ _).
  - vm_compute. reflexivity.
  - simpl. discriminate.
  - simpl. lia.
  - vm_compute. reflexivity.
  - reflexivity.
Defined.

(** *** Minimum number of matches *)

(** C1. Take any settings with a session of 120 seconds, a stimulus
    duration of 1500 ms, an inter-stimulus interval of 2500 ms and N = 2,
    in any game mode, and any random stream within [0, 1). The generator
    returns when the stream is never stuck; and whatever it returns has 30
    trials and, on each channel that the game mode enables, at least 12
    true matches, counted on the returned sequence alone. *)
Theorem minimum_match_guarantee (rand : nat → Q) (st : GameSettings) :
  sessionDuration st = 120 →
  stimulusDuration st = 1500 →
  interStimulusInterval st = 2500 →
  nLevel st = 2 →
  unitInterval rand →
  (neverStuck rand → ∃ fuel stimuli, generateSequence rand fuel st = Ok stimuli)
  ∧ ∀ fuel stimuli, generateSequence rand fuel st = Ok stimuli →
      length stimuli = 30%nat
      ∧ ∀ ch, channelEnabled ch (gameMode st) →
              (12 <= countMatches ch 2 stimuli)%nat.
Proof.
  intros Hsd Hstim Hisi HN Hu.
  assert (HT : numTrialsOf st = 30).
  { unfold numTrialsOf. rewrite Hsd, Hstim, Hisi. reflexivity. }
  split.
  - intros Hfair.
    destruct (generateTrace_total rand Hu Hfair st ltac:(lia)) as (fuel & g & Hg).
    exists fuel, (sequence g). apply generateSequence_Ok. eauto.
  - intros fuel stimuli Hrun. apply generateSequence_Ok in Hrun.
    destruct Hrun as (g & Hg & <-). unfold generateTrace in Hg.
    destruct (decide (stimulusDuration st + interStimulusInterval st <= 0)); [lia|].
    rewrite HT in Hg. split.
    + apply trials_length in Hg. rewrite Hg. reflexivity.
    + intros ch Hen.
      assert (Hmin : minMatchesOn ch st = 12).
      { destruct ch; simpl in *; unfold minMatches; rewrite Hsd;
          (case_decide; [reflexivity|contradiction]). }
      destruct (trials_invariants rand fuel st 30 ch Hen Hu g ltac:(lia)) as [Hinv Hforce].
      { rewrite Hmin, HN. lia. }
      { exact Hg. }
      destruct Hinv as (_ & _ & _ & _ & Hc0 & Hcnt).
      unfold forceInv in Hforce. rewrite Hmin, HN in Hforce.
      rewrite HN in Hcnt. lia.
Qed.

Lemma minimum_match_guarantee_witness :
  ∃ stimuli, generateSequence cycle4 5 DEFAULT_SETTINGS = Ok stimuli
             ∧ length stimuli = 30%nat
             ∧ ∀ ch, channelEnabled ch (gameMode DEFAULT_SETTINGS) →
                     (12 <= countMatches ch 2 stimuli)%nat.
Proof.
  eexists. split; [vm_compute; reflexivity|].
  refine (proj2 (minimum_match_guarantee cycle4 DEFAULT_SETTINGS _ _ _ _
                   cycle4_unitInterval) 5%nat _ _).
  - reflexivity.
  - reflexivity.
  - reflexivity.
  - reflexivity.
  - vm_compute. reflexivity.
Defined.

(** ** The scoring calculator, trial by trial *)

Lemma countFrom_0 (P : Z → Prop) `{!∀ i, Decision (P i)} (from : Z) :
  countFrom P from 0 = 0.
Proof. reflexivity. Qed.

Lemma countFrom_S (P : Z → Prop) `{!∀ i, Decision (P i)} (from : Z) (k : nat) :
  countFrom P from (S k)
  = (if decide (P from) then 1 else 0) + countFrom P (from + 1) k.
Proof.
  unfold countFrom. rewrite seqZ_cons by lia.
  replace (Z.pred (Z.of_nat (S k))) with (Z.of_nat k) by lia.
  replace (Z.succ from) with (from + 1) by lia.
  rewrite filter_cons. destruct (decide (P from)); simpl; lia.
Qed.

Lemma countFrom_snoc (P : Z → Prop) `{!∀ i, Decision (P i)} (from : Z) (k : nat) :
  countFrom P from (S k)
  = countFrom P from k + (if decide (P (from + Z.of_nat k)) then 1 else 0).
Proof.
  unfold countFrom. rewrite seqZ_S, filter_app, length_app.
  rewrite filter_cons, filter_nil. destruct (decide (P (from + Z.of_nat k))); simpl; lia.
Qed.

Lemma countFrom_ext (P Q : Z → Prop) `{!∀ i, Decision (P i)} `{!∀ i, Decision (Q i)}
    (from : Z) (k : nat) :
  (∀ i, from <= i < from + Z.of_nat k → (P i ↔ Q i)) →
  countFrom P from k = countFrom Q from k.
Proof.
  revert from. induction k as [|k IH]; intros from Hext; [reflexivity|].
  rewrite !countFrom_S. rewrite (IH (from + 1)) by (intros i Hi; apply Hext; lia).
  destruct (decide (P from)) as [HP|HP], (decide (Q from)) as [HQ|HQ]; try reflexivity.
  - exfalso. apply HQ. apply Hext; [lia|exact HP].
  - exfalso. apply HP. apply Hext; [lia|exact HQ].
Qed.

Lemma countFrom_nonneg (P : Z → Prop) `{!∀ i, Decision (P i)} (from : Z) (k : nat) :
  0 <= countFrom P from k <= Z.of_nat k.
Proof.
  unfold countFrom. pose proof (length_filter P (seqZ from (Z.of_nat k))) as Hlen.
  rewrite length_seqZ in Hlen. lia.
Qed.

Lemma countFrom_none (P : Z → Prop) `{!∀ i, Decision (P i)} (from : Z) (k : nat) :
  (∀ i, from <= i < from + Z.of_nat k → ¬ P i) → countFrom P from k = 0.
Proof.
  revert from. induction k as [|k IH]; intros from Hno; [reflexivity|].
  rewrite countFrom_S, (IH (from + 1)) by (intros i Hi; apply Hno; lia).
  destruct (decide (P from)) as [HP|HP]; [|reflexivity].
  exfalso. apply (Hno from); [lia|exact HP].
Qed.

Lemma countFrom_split (P : Z → Prop) `{!∀ i, Decision (P i)} (from : Z) (k1 k2 : nat) :
  countFrom P from (k1 + k2) = countFrom P from k1 + countFrom P (from + Z.of_nat k1) k2.
Proof.
  unfold countFrom. rewrite Nat2Z.inj_add, seqZ_app by lia.
  rewrite filter_app, length_app. lia.
Qed.

Lemma countMatches_countAll (ch : ResponseType) (n : Z) (stimuli : list Stimulus) :
  Z.of_nat (countMatches ch n stimuli) = countAll (matchAt ch n stimuli) stimuli.
Proof. reflexivity. Qed.

Lemma tallied_refl (ch : ResponseType) (n : Z) (stimuli : list Stimulus)
    (responses : gmap Z Response) (from : Z) (r : option ModeResultMetrics) :
  tallied ch n stimuli responses from 0 r r.
Proof.
  destruct r as [m|]; simpl; [|reflexivity].
  exists m. rewrite !countFrom_0. repeat split; lia.
Qed.

Lemma tallied_step (ch : ResponseType) (n : Z) (stimuli : list Stimulus)
    (responses : gmap Z Response) (from : Z) (k : nat)
    (r r1 r2 : option ModeResultMetrics) :
  tallied ch n stimuli responses from 1 r r1 →
  tallied ch n stimuli responses (from + 1) k r1 r2 →
  tallied ch n stimuli responses from (S k) r r2.
Proof.
  destruct r as [m|]; simpl.
  - intros (m1 & -> & H1 & H2 & H3 & H4 & H5 & H6). simpl.
    intros (m2 & -> & G1 & G2 & G3 & G4 & G5 & G6).
    exists m2. split; [reflexivity|].
    rewrite !(countFrom_S _ from k).
    rewrite (countFrom_S _ from 0), countFrom_0 in H1.
    rewrite (countFrom_S _ from 0), countFrom_0 in H2.
    rewrite (countFrom_S _ from 0), countFrom_0 in H3.
    rewrite (countFrom_S _ from 0), countFrom_0 in H4.
    repeat split; try lia; congruence.
  - intros ->. simpl. auto.
Qed.

(** One trial on one channel, the two stimuli being there. *)
Lemma countTrial_visual (n : Z) (stimuli : list Stimulus) (responses : gmap Z Response)
    (i : Z) (cur nBack : Stimulus) (r : option ModeResultMetrics) :
  n <= i →
  js_index stimuli i = Some cur →
  js_index stimuli (i - n) = Some nBack →
  ∃ r', countTrial visualPosition
          (bool_decide (r_visual (default blankResponse (responses !! i)) = Some true))
          (Some cur) (Some nBack) r = Ok r'
        ∧ tallied visual_response n stimuli responses i 1 r r'.
Proof.
  intros Hn Hcur Hnb. destruct r as [m|]; [|exists None; split; reflexivity].
  assert (Hm : matchAt visual_response n stimuli i ↔ sameValue visual_response cur nBack).
  { unfold matchAt. rewrite Hcur, Hnb. split.
    - intros (_ & c & b & [= <-] & [= <-] & Hs). exact Hs.
    - intros Hs. split; [exact Hn|]. eauto. }
  assert (Hd : differAt visual_response n stimuli i ↔ valuesDiffer visual_response cur nBack).
  { unfold differAt. rewrite Hcur, Hnb. split.
    - intros (_ & c & b & [= <-] & [= <-] & Hs). exact Hs.
    - intros Hs. split; [exact Hn|]. eauto. }
  unfold tallied. rewrite !(countFrom_S _ i 0), !countFrom_0.
  unfold hitAt, missAt, falseAlarmAt, pressedOn. simpl responseOn.
  set (p := r_visual (default blankResponse (responses !! i)) = Some true) in *.
  unfold countTrial. simpl. simpl in Hm, Hd.
  destruct (visualPosition cur) as [v|] eqn:Hv; simpl.
  - destruct (visualPosition nBack) as [w|] eqn:Hw; simpl.
    + destruct (decide (v = w)) as [->|Hne].
      * assert (HM : matchAt visual_response n stimuli i) by (apply Hm; eauto).
        assert (HD : ¬ differAt visual_response n stimuli i).
        { rewrite Hd. intros (a & b & [= <-] & [= <-] & Hab). contradiction. }
        destruct (bool_decide_reflect p) as [Hp|Hp]; eexists; (split; [reflexivity|]);
          eexists; (split; [reflexivity|]); simpl;
          repeat (destruct (decide _) as [?|?]; try tauto); repeat split; lia.
      * assert (HM : ¬ matchAt visual_response n stimuli i).
        { rewrite Hm. intros (a & [= <-] & [= <-]). contradiction. }
        assert (HD : differAt visual_response n stimuli i) by (apply Hd; eauto).
        destruct (bool_decide_reflect p) as [Hp|Hp]; eexists; (split; [reflexivity|]);
          eexists; (split; [reflexivity|]); simpl;
          repeat (destruct (decide _) as [?|?]; try tauto); repeat split; lia.
    + assert (HM : ¬ matchAt visual_response n stimuli i).
      { rewrite Hm. intros (a & _ & [=]). }
      assert (HD : ¬ differAt visual_response n stimuli i).
      { rewrite Hd. intros (a & b & _ & [=] & _). }
      eexists; (split; [reflexivity|]); eexists; (split; [reflexivity|]); simpl;
        repeat (destruct (decide _) as [?|?]; try tauto); repeat split; lia.
  - assert (HM : ¬ matchAt visual_response n stimuli i).
    { rewrite Hm. intros (a & [=] & _). }
    assert (HD : ¬ differAt visual_response n stimuli i).
    { rewrite Hd. intros (a & b & [=] & _). }
    eexists; (split; [reflexivity|]); eexists; (split; [reflexivity|]); simpl;
      repeat (destruct (decide _) as [?|?]; try tauto); repeat split; lia.
Qed.

Lemma countTrial_audio (n : Z) (stimuli : list Stimulus) (responses : gmap Z Response)
    (i : Z) (cur nBack : Stimulus) (r : option ModeResultMetrics) :
  n <= i →
  js_index stimuli i = Some cur →
  js_index stimuli (i - n) = Some nBack →
  ∃ r', countTrial audioLetter
          (bool_decide (r_audio (default blankResponse (responses !! i)) = Some true))
          (Some cur) (Some nBack) r = Ok r'
        ∧ tallied audio_response n stimuli responses i 1 r r'.
Proof.
  intros Hn Hcur Hnb. destruct r as [m|]; [|exists None; split; reflexivity].
  assert (Hm : matchAt audio_response n stimuli i ↔ sameValue audio_response cur nBack).
  { unfold matchAt. rewrite Hcur, Hnb. split.
    - intros (_ & c & b & [= <-] & [= <-] & Hs). exact Hs.
    - intros Hs. split; [exact Hn|]. eauto. }
  assert (Hd : differAt audio_response n stimuli i ↔ valuesDiffer audio_response cur nBack).
  { unfold differAt. rewrite Hcur, Hnb. split.
    - intros (_ & c & b & [= <-] & [= <-] & Hs). exact Hs.
    - intros Hs. split; [exact Hn|]. eauto. }
  unfold tallied. rewrite !(countFrom_S _ i 0), !countFrom_0.
  unfold hitAt, missAt, falseAlarmAt, pressedOn. simpl responseOn.
  set (p := r_audio (default blankResponse (responses !! i)) = Some true) in *.
  unfold countTrial. simpl. simpl in Hm, Hd.
  destruct (audioLetter cur) as [v|] eqn:Hv; simpl.
  - destruct (audioLetter nBack) as [w|] eqn:Hw; simpl.
    + destruct (decide (v = w)) as [->|Hne].
      * assert (HM : matchAt audio_response n stimuli i) by (apply Hm; eauto).
        assert (HD : ¬ differAt audio_response n stimuli i).
        { rewrite Hd. intros (a & b & [= <-] & [= <-] & Hab). contradiction. }
        destruct (bool_decide_reflect p) as [Hp|Hp]; eexists; (split; [reflexivity|]);
          eexists; (split; [reflexivity|]); simpl;
          repeat (destruct (decide _) as [?|?]; try tauto); repeat split; lia.
      * assert (HM : ¬ matchAt audio_response n stimuli i).
        { rewrite Hm. intros (a & [= <-] & [= <-]). contradiction. }
        assert (HD : differAt audio_response n stimuli i) by (apply Hd; eauto).
        destruct (bool_decide_reflect p) as [Hp|Hp]; eexists; (split; [reflexivity|]);
          eexists; (split; [reflexivity|]); simpl;
          repeat (destruct (decide _) as [?|?]; try tauto); repeat split; lia.
    + assert (HM : ¬ matchAt audio_response n stimuli i).
      { rewrite Hm. intros (a & _ & [=]). }
      assert (HD : ¬ differAt audio_response n stimuli i).
      { rewrite Hd. intros (a & b & _ & [=] & _). }
      eexists; (split; [reflexivity|]); eexists; (split; [reflexivity|]); simpl;
        repeat (destruct (decide _) as [?|?]; try tauto); repeat split; lia.
  - assert (HM : ¬ matchAt audio_response n stimuli i).
    { rewrite Hm. intros (a & [=] & _). }
    assert (HD : ¬ differAt audio_response n stimuli i).
    { rewrite Hd. intros (a & b & [=] & _). }
    eexists; (split; [reflexivity|]); eexists; (split; [reflexivity|]); simpl;
      repeat (destruct (decide _) as [?|?]; try tauto); repeat split; lia.
Qed.

(** The loop of [calculateResults] over trials that are all inside the
    sequence: it returns, and tallies each channel that has counters. *)
Lemma countTrials_tallied (n : Z) (stimuli : list Stimulus) (responses : gmap Z Response)
    (k : nat) (i : Z) (vr ar : option ModeResultMetrics) :
  0 <= n <= i → (k ≠ 0%nat → i + Z.of_nat k <= Z.of_nat (length stimuli)) →
  ∃ vr' ar', countTrials n stimuli responses k i vr ar = Ok (vr', ar')
             ∧ tallied visual_response n stimuli responses i k vr vr'
             ∧ tallied audio_response n stimuli responses i k ar ar'.
Proof.
  revert i vr ar. induction k as [|k IH]; intros i vr ar Hn Hlen.
  - exists vr, ar. split; [reflexivity|]. split; apply tallied_refl.
  - specialize (Hlen ltac:(lia)).
    destruct (js_index_is_Some stimuli i) as [cur Hcur]; [lia|].
    destruct (js_index_is_Some stimuli (i - n)) as [nBack Hnb]; [lia|].
    destruct (countTrial_visual n stimuli responses i cur nBack vr) as (vr1 & Hv & Tv);
      [lia|exact Hcur|exact Hnb|].
    destruct (countTrial_audio n stimuli responses i cur nBack ar) as (ar1 & Ha & Ta);
      [lia|exact Hcur|exact Hnb|].
    destruct (IH (i + 1) vr1 ar1) as (vr2 & ar2 & Hrest & Tv2 & Ta2); [lia|lia|].
    exists vr2, ar2. split; [|split; eapply tallied_step; eassumption].
    cbn [countTrials]. rewrite Hcur, Hnb, Hv. cbn [mbind outcome_bind].
    rewrite Ha. cbn [mbind outcome_bind]. exact Hrest.
Qed.

(** With a negative N the first trial of the loop is [stimulusSequence[N]],
    which is [undefined]. *)
Lemma countTrials_negative (n : Z) (stimuli : list Stimulus) (responses : gmap Z Response)
    (k : nat) (vr ar : option ModeResultMetrics) :
  n < 0 → is_Some vr ∨ is_Some ar →
  countTrials n stimuli responses (S k) n vr ar = TypeError.
Proof.
  intros Hn Hsome. cbn [countTrials].
  assert (Hnone : js_index stimuli n = None).
  { unfold js_index. case_decide; [lia|reflexivity]. }
  rewrite Hnone.
  destruct vr as [m|]; [reflexivity|].
  destruct ar as [m|]; [reflexivity|].
  destruct Hsome as [[? [=]]|[? [=]]].
Qed.

Lemma countFrom_window (P : Z → Prop) `{!∀ i, Decision (P i)} (n : Z) (len : nat) :
  0 <= n → (∀ i, P i → n <= i) →
  countFrom P n (Z.to_nat (Z.of_nat len - n)) = countFrom P 0 len.
Proof.
  intros Hn HP. destruct (decide (n <= Z.of_nat len)) as [Hle|Hgt].
  - replace len with (Z.to_nat n + Z.to_nat (Z.of_nat len - n))%nat at 2 by lia.
    rewrite countFrom_split, Z2Nat.id, Z.add_0_l by lia.
    rewrite (countFrom_none P 0); [lia|].
    intros i Hi HPi. apply HP in HPi. lia.
  - replace (Z.to_nat (Z.of_nat len - n)) with 0%nat by lia.
    rewrite countFrom_0. symmetry. apply countFrom_none.
    intros i Hi HPi. apply HP in HPi. lia.
Qed.

Lemma js_rate (total errs : Z) :
  (if decide (0 < total) then js_times100 (js_div (total - errs) total)
   else if decide (errs = 0) then Finite 100 else Finite 0)
  = Finite (rateOf total errs).
Proof.
  unfold rateOf, js_div. destruct (decide (0 < total)) as [Hpos|Hno].
  - destruct (decide (total = 0)); [lia|reflexivity].
  - destruct (decide (errs = 0)); reflexivity.
Qed.

Lemma tallied_scored (ch : ResponseType) (st : GameSettings) (s : GameReducerState)
    (r : option ModeResultMetrics) :
  0 <= nLevel st →
  tallied ch (nLevel st) (stimulusSequence s) (userResponses s) (nLevel st)
    (Z.to_nat (Z.of_nat (length (stimulusSequence s)) - nLevel st))
    (if decide (channelEnabled ch (gameMode st)) then Some initResultCounters else None) r →
  scored ch st s (deriveMetrics <$> r).
Proof.
  intros Hn. unfold scored, tallied.
  destruct (decide (channelEnabled ch (gameMode st))) as [Hen|Hdis].
  - intros (m & -> & H1 & H2 & H3 & H4 & H5 & H6). simpl in *.
    exists (deriveMetrics m). split; [reflexivity|]. unfold countAll. simpl.
    rewrite countFrom_window in H1, H2, H3, H4
      by (try exact Hn; unfold hitAt, missAt, falseAlarmAt, matchAt, differAt; tauto).
    rewrite js_rate. repeat split; lia.
  - intros ->. reflexivity.
Qed.

(** [calculateResults] returns whenever N is not negative, with the
    counters of each channel as [scored] has them. *)
Lemma calculateResults_scored (st : GameSettings) (s : GameReducerState) :
  0 <= nLevel st →
  ∃ res, calculateResults st s = Ok res
    ∧ results_settings res = st
    ∧ totalTrials res = Z.of_nat (length (stimulusSequence s))
    ∧ scored visual_response st s (visual res)
    ∧ scored audio_response st s (audio res)
    ∧ overallSuccessRate res
      = (let h := from_option hits 0 (visual res) + from_option hits 0 (audio res) in
         let t := from_option totalMatches 0 (visual res)
                  + from_option totalMatches 0 (audio res) in
         if decide (0 < t) then Finite (inject_Z h / inject_Z t * 100)%Q else Finite 0).
Proof.
  intros Hn. unfold calculateResults.
  destruct (countTrials_tallied (nLevel st) (stimulusSequence s) (userResponses s)
              (Z.to_nat (Z.of_nat (length (stimulusSequence s)) - nLevel st)) (nLevel st)
              (if decide (gameMode st ≠ Audio) then Some initResultCounters else None)
              (if decide (gameMode st ≠ Visual) then Some initResultCounters else None))
    as (vr & ar & Hrun & Tv & Ta); [lia|lia|].
  rewrite Hrun. cbn [mbind outcome_bind].
  eexists. split; [reflexivity|]. cbn [results_settings totalTrials visual audio
                                        overallSuccessRate].
  split; [reflexivity|]. split; [reflexivity|].
  split; [apply tallied_scored; assumption|].
  split; [apply tallied_scored; assumption|].
  cbv zeta. destruct (decide (0 < _)) as [Hpos|Hno]; [|reflexivity].
  unfold js_div. destruct (decide (_ = 0)); [lia|reflexivity].
Qed.

Lemma scored_metricsOn (st : GameSettings) (s : GameReducerState) (res : GameResults) :
  0 <= nLevel st → calculateResults st s = Ok res →
  ∀ ch, scored ch st s (metricsOn ch res).
Proof.
  intros Hn Hres ch.
  destruct (calculateResults_scored st s Hn) as (res' & Hres' & _ & _ & Hv & Ha & _).
  rewrite Hres in Hres'. injection Hres' as <-. destruct ch; assumption.
Qed.

Lemma calculateResults_negative (st : GameSettings) (s : GameReducerState) :
  nLevel st < 0 → calculateResults st s = TypeError.
Proof.
  intros Hn. unfold calculateResults.
  replace (Z.to_nat (Z.of_nat (length (stimulusSequence s)) - nLevel st))
    with (S (Z.to_nat (Z.of_nat (length (stimulusSequence s)) - nLevel st - 1))) by lia.
  rewrite countTrials_negative; [reflexivity|exact Hn|].
  destruct (gameMode st); simpl; eauto.
Qed.

Lemma calculateResults_returns_iff_aux (st : GameSettings) (s : GameReducerState) :
  0 <= nLevel st ↔ ∃ res, calculateResults st s = Ok res.
Proof.
  split.
  - intros Hn. destruct (calculateResults_scored st s Hn) as (res & Hres & _). eauto.
  - intros [res Hres]. destruct (decide (0 <= nLevel st)) as [|Hneg]; [assumption|].
    rewrite calculateResults_negative in Hres by lia. discriminate.
Qed.

(** X1. [calculateResults] returns results exactly when N is not negative;
    with a negative N it throws, whatever the sequence and the responses,
    the empty ones included. *)
Theorem calculateResults_returns_iff (st : GameSettings) (s : GameReducerState) :
  (0 <= nLevel st ↔ ∃ res, calculateResults st s = Ok res)
  ∧ (nLevel st < 0 ↔ calculateResults st s = TypeError).
Proof.
  split; split.
  - intros Hn. destruct (calculateResults_scored st s Hn) as (res & Hres & _). eauto.
  - intros [res Hres]. destruct (decide (0 <= nLevel st)) as [|Hneg]; [assumption|].
    rewrite calculateResults_negative in Hres by lia. discriminate.
  - apply calculateResults_negative.
  - intros Herr. destruct (decide (nLevel st < 0)) as [|Hpos]; [assumption|].
    destruct (calculateResults_scored st s ltac:(lia)) as (res & Hres & _).
    rewrite Hres in Herr. discriminate.
Qed.

Lemma countFrom_hit_miss (ch : ResponseType) (n : Z) (stimuli : list Stimulus)
    (responses : gmap Z Response) (from : Z) (k : nat) :
  countFrom (hitAt ch n stimuli responses) from k
  + countFrom (missAt ch n stimuli responses) from k
  = countFrom (matchAt ch n stimuli) from k.
Proof.
  revert from. induction k as [|k IH]; intros from; [reflexivity|].
  rewrite !countFrom_S, <- (IH (from + 1)). unfold hitAt, missAt.
  destruct (decide (matchAt ch n stimuli from)) as [Hm|Hm],
           (decide (pressedOn ch responses from)) as [Hp|Hp];
    repeat (destruct (decide _) as [?|?]; try tauto); lia.
Qed.

Lemma matchAt_differAt_exclusive (ch : ResponseType) (n : Z) (stimuli : list Stimulus)
    (i : Z) :
  matchAt ch n stimuli i → differAt ch n stimuli i → False.
Proof.
  intros (_ & c & b & Hc & Hb & Hs) (_ & c' & b' & Hc' & Hb' & Hd).
  rewrite Hc in Hc'. rewrite Hb in Hb'. injection Hc' as <-. injection Hb' as <-.
  destruct ch; simpl in *.
  - destruct Hs as (v & Hv & Hw). destruct Hd as (x & y & Hx & Hy & Hne). congruence.
  - destruct Hs as (v & Hv & Hw). destruct Hd as (x & y & Hx & Hy & Hne). congruence.
Qed.

Lemma countFrom_match_falseAlarm (ch : ResponseType) (n : Z) (stimuli : list Stimulus)
    (responses : gmap Z Response) (from : Z) (k : nat) :
  countFrom (matchAt ch n stimuli) from k
  + countFrom (falseAlarmAt ch n stimuli responses) from k
  <= Z.of_nat k.
Proof.
  revert from. induction k as [|k IH]; intros from; [rewrite !countFrom_0; lia|].
  rewrite !countFrom_S. specialize (IH (from + 1)).
  destruct (decide (matchAt ch n stimuli from)) as [Hm|Hm];
    destruct (decide (falseAlarmAt ch n stimuli responses from)) as [[Hd Hp]|Hd];
    try lia.
  exfalso. eapply matchAt_differAt_exclusive; eassumption.
Qed.

Lemma calculateResults_books_balance_aux (st : GameSettings) (s : GameReducerState)
    (res : GameResults) :
  0 <= nLevel st → calculateResults st s = Ok res →
  ∀ ch,
    (channelEnabled ch (gameMode st) ↔ is_Some (metricsOn ch res))
    ∧ ∀ m, metricsOn ch res = Some m →
        hits m + misses m = totalMatches m
        ∧ errors m = misses m + falseAlarms m
        ∧ 0 <= hits m ∧ 0 <= misses m ∧ 0 <= falseAlarms m
        ∧ totalMatches m + falseAlarms m
          <= Z.max 0 (Z.of_nat (length (stimulusSequence s)) - nLevel st).
Proof.
  intros Hn Hres ch. pose proof (scored_metricsOn st s res Hn Hres ch) as Hs.
  unfold scored in Hs.
  destruct (decide (channelEnabled ch (gameMode st))) as [Hen|Hdis].
  - destruct Hs as (m & Hm & H1 & H2 & H3 & H4 & H5 & H6). split.
    + split; [rewrite Hm; eauto | intros _; exact Hen].
    + intros m' Hm'. rewrite Hm in Hm'. injection Hm' as <-.
      unfold countAll in *.
      pose proof (countFrom_hit_miss ch (nLevel st) (stimulusSequence s) (userResponses s)
                    0 (length (stimulusSequence s))) as Hhm.
      pose proof (countFrom_nonneg (hitAt ch (nLevel st) (stimulusSequence s)
                    (userResponses s)) 0 (length (stimulusSequence s))).
      pose proof (countFrom_nonneg (missAt ch (nLevel st) (stimulusSequence s)
                    (userResponses s)) 0 (length (stimulusSequence s))).
      pose proof (countFrom_nonneg (falseAlarmAt ch (nLevel st) (stimulusSequence s)
                    (userResponses s)) 0 (length (stimulusSequence s))).
      pose proof (countFrom_match_falseAlarm ch (nLevel st) (stimulusSequence s)
                    (userResponses s) (nLevel st)
                    (Z.to_nat (Z.of_nat (length (stimulusSequence s)) - nLevel st))) as Hw.
      rewrite !countFrom_window in Hw
        by (try exact Hn; unfold falseAlarmAt, matchAt, differAt; tauto).
      repeat split; lia.
  - rewrite Hs. split.
    + split; [contradiction | intros [? [=]]].
    + intros m [=].
Qed.

(** X2. The books of [calculateResults] balance. Whenever it returns: the
    trial count is the length of the sequence; a channel has counters
    exactly when the game mode enables it; and on every channel with
    counters, hits and misses add up to the true matches, errors are the
    misses plus the false alarms, no counter is negative, and matches and
    false alarms together never exceed the number of trials at or past N. *)
Theorem calculateResults_books_balance (st : GameSettings) (s : GameReducerState)
    (res : GameResults) :
  calculateResults st s = Ok res →
  totalTrials res = Z.of_nat (length (stimulusSequence s))
  ∧ ∀ ch,
      (channelEnabled ch (gameMode st) ↔ is_Some (metricsOn ch res))
      ∧ ∀ m, metricsOn ch res = Some m →
          hits m + misses m = totalMatches m
          ∧ errors m = misses m + falseAlarms m
          ∧ 0 <= hits m ∧ 0 <= misses m ∧ 0 <= falseAlarms m
          ∧ totalMatches m + falseAlarms m
            <= Z.max 0 (Z.of_nat (length (stimulusSequence s)) - nLevel st).
Proof.
  intros Hres.
  assert (Hn : 0 <= nLevel st).
  { apply (calculateResults_returns_iff_aux st s). eauto. }
  destruct (calculateResults_scored st s Hn) as (res' & Hres' & _ & Hlen & _).
  rewrite Hres in Hres'. injection Hres' as <-. split; [exact Hlen|].
  apply calculateResults_books_balance_aux; assumption.
Qed.

Lemma calculateResults_books_balance_witness :
  ∃ res, calculateResults scenarioSettings scenarioState = Ok res
    ∧ totalTrials res = 5
    ∧ ∀ ch,
        (channelEnabled ch Visual ↔ is_Some (metricsOn ch res))
        ∧ ∀ m, metricsOn ch res = Some m →
            hits m + misses m = totalMatches m
            ∧ errors m = misses m + falseAlarms m
            ∧ 0 <= hits m ∧ 0 <= misses m ∧ 0 <= falseAlarms m
            ∧ totalMatches m + falseAlarms m <= Z.max 0 (5 - 2).
Proof.
  eexists. split; [vm_compute; reflexivity|].
  refine (calculateResults_books_balance scenarioSettings scenarioState _ _).
  vm_compute. reflexivity.
Defined.

Lemma rateOf_all_missed (total : Z) :
  0 <= total → (rateOf total total == if decide (0 < total)%Z then 0 else 100)%Q.
Proof.
  intros Hnn. unfold rateOf. destruct (decide (0 < total)) as [Hpos|Hno].
  - rewrite Z.sub_diag. destruct total as [|p|p]; try lia. reflexivity.
  - destruct (decide (total = 0)); [reflexivity|lia].
Qed.

Lemma rateOf_no_error (total : Z) : 0 <= total → (rateOf total 0 == 100)%Q.
Proof.
  intros Hnn. unfold rateOf. destruct (decide (0 < total)) as [Hpos|Hno].
  - rewrite Z.sub_0_r. destruct total as [|p|p]; try lia.
    unfold Qeq, Qdiv, Qmult, Qinv, inject_Z. simpl. lia.
  - destruct (decide (0 = 0)); [reflexivity|lia].
Qed.

Lemma rateOf_bounds (total errs : Z) :
  0 <= total → 0 <= errs →
  (rateOf total errs <= 100)%Q
  ∧ ((rateOf total errs < 0)%Q ↔ 0 < total < errs).
Proof.
  intros Ht He. unfold rateOf. destruct (decide (0 < total)) as [Hpos|Hno].
  - destruct total as [|p|p]; try lia.
    unfold Qle, Qlt, Qdiv, Qmult, Qinv, inject_Z. simpl. split; [nia|].
    split; intros H; nia.
  - destruct (decide (errs = 0)); (split; [unfold Qle; simpl; lia|]);
      (split; [unfold Qlt; simpl; lia | lia]).
Qed.

Lemma overall_rate_bounds (h t : Z) :
  0 <= h <= t → 0 < t → (0 <= inject_Z h / inject_Z t * 100 <= 100)%Q.
Proof.
  intros Hh Ht. destruct t as [|p|p]; try lia.
  unfold Qle, Qdiv, Qmult, Qinv, inject_Z. simpl. split; nia.
Qed.

Lemma scored_totals (st : GameSettings) (s : GameReducerState) (res : GameResults)
    (ch : ResponseType) :
  0 <= nLevel st → calculateResults st s = Ok res →
  0 <= from_option hits 0 (metricsOn ch res)
       <= from_option totalMatches 0 (metricsOn ch res).
Proof.
  intros Hn Hres. pose proof (scored_metricsOn st s res Hn Hres ch) as Hs.
  unfold scored in Hs. destruct (decide _) as [Hen|Hdis].
  - destruct Hs as (m & -> & H1 & H2 & _ & H4 & _). simpl. unfold countAll in *.
    pose proof (countFrom_hit_miss ch (nLevel st) (stimulusSequence s) (userResponses s)
                  0 (length (stimulusSequence s))).
    pose proof (countFrom_nonneg (hitAt ch (nLevel st) (stimulusSequence s)
                  (userResponses s)) 0 (length (stimulusSequence s))).
    pose proof (countFrom_nonneg (missAt ch (nLevel st) (stimulusSequence s)
                  (userResponses s)) 0 (length (stimulusSequence s))).
    lia.
  - rewrite Hs. simpl. lia.
Qed.

(** X3. The rates that [calculateResults] reports are finite numbers. A
    channel's rate is at most 100 and is negative exactly when the errors
    outnumber the true matches (false alarms are not bounded by the
    matches); the overall success rate lies between 0 and 100. *)
Theorem calculateResults_rate_bounds (st : GameSettings) (s : GameReducerState)
    (res : GameResults) :
  calculateResults st s = Ok res →
  (∀ ch m, metricsOn ch res = Some m →
     ∃ q, rate m = Finite q ∧ (q <= 100)%Q
          ∧ ((q < 0)%Q ↔ 0 < totalMatches m < errors m))
  ∧ ∃ q, overallSuccessRate res = Finite q ∧ (0 <= q <= 100)%Q.
Proof.
  intros Hres.
  assert (Hn : 0 <= nLevel st).
  { apply (calculateResults_returns_iff_aux st s). eauto. }
  split.
  - intros ch m Hm.
    destruct (proj2 (calculateResults_books_balance_aux st s res Hn Hres ch) m Hm)
      as (Hhm & Herr & Hh & Hmi & Hfa & _).
    pose proof (scored_metricsOn st s res Hn Hres ch) as Hs. unfold scored in Hs.
    destruct (decide _) as [Hen|Hdis]; [|rewrite Hs in Hm; discriminate].
    destruct Hs as (m' & Hm' & _ & _ & _ & _ & _ & Hrate).
    rewrite Hm in Hm'. injection Hm' as <-.
    exists (rateOf (totalMatches m) (errors m)). split; [exact Hrate|].
    apply rateOf_bounds; lia.
  - destruct (calculateResults_scored st s Hn) as (res' & Hres' & _ & _ & _ & _ & Ho).
    rewrite Hres in Hres'. injection Hres' as <-. rewrite Ho. cbv zeta.
    pose proof (scored_totals st s res visual_response Hn Hres) as Hv.
    pose proof (scored_totals st s res audio_response Hn Hres) as Ha.
    simpl in Hv, Ha.
    destruct (decide (0 < _)) as [Hpos|Hno].
    + eexists. split; [reflexivity|]. apply overall_rate_bounds; lia.
    + exists 0%Q. split; [reflexivity|]. unfold Qle. simpl. lia.
Qed.

Lemma calculateResults_rate_bounds_witness :
  ∃ res, calculateResults scenarioSettings scenarioState = Ok res
    ∧ (∀ ch m, metricsOn ch res = Some m →
         ∃ q, rate m = Finite q ∧ (q <= 100)%Q
              ∧ ((q < 0)%Q ↔ 0 < totalMatches m < errors m))
    ∧ ∃ q, overallSuccessRate res = Finite q ∧ (0 <= q <= 100)%Q.
Proof.
  eexists. split; [vm_compute; reflexivity|].
  refine (calculateResults_rate_bounds scenarioSettings scenarioState _ _).
  vm_compute. reflexivity.
Defined.

(** X4. The number of true matches in the results is the number of true
    matches of the sequence, counted on the sequence alone: it does not
    depend on the responses. *)
Theorem totalMatches_counts_the_sequence (st : GameSettings) (s : GameReducerState)
    (res : GameResults) (ch : ResponseType) :
  calculateResults st s = Ok res →
  channelEnabled ch (gameMode st) →
  ∃ m, metricsOn ch res = Some m
       ∧ totalMatches m
         = Z.of_nat (countMatches ch (nLevel st) (stimulusSequence s)).
Proof.
  intros Hres Hen.
  assert (Hn : 0 <= nLevel st).
  { apply (calculateResults_returns_iff_aux st s). eauto. }
  pose proof (scored_metricsOn st s res Hn Hres ch) as Hs. unfold scored in Hs.
  destruct (decide _) as [_|Hdis]; [|contradiction].
  destruct Hs as (m & Hm & _ & _ & _ & Htm & _). exists m. split; [exact Hm|].
  rewrite countMatches_countAll. exact Htm.
Qed.

Lemma totalMatches_counts_the_sequence_witness :
  ∃ res m, calculateResults scenarioSettings scenarioState = Ok res
    ∧ metricsOn visual_response res = Some m
    ∧ totalMatches m
      = Z.of_nat (countMatches visual_response 2 (stimulusSequence scenarioState)).
Proof.
  destruct (totalMatches_counts_the_sequence scenarioSettings scenarioState
              {| results_settings := scenarioSettings; totalTrials := 5;
                 visual := Some {| hits := 1; misses := 1; falseAlarms := 0; errors := 1;
                                   totalMatches := 2;
                                   rate := Finite (rateOf 2 1) |};
                 audio := None; overallSuccessRate := Finite (inject_Z 1 / inject_Z 2 * 100) |}
              visual_response) as (m & Hm & Htm).
  - vm_compute. reflexivity.
  - simpl. discriminate.
  - eexists _, m. split; [vm_compute; reflexivity|]. split; assumption.
Defined.

(** X5. A session without a single press: on every channel with counters
    there is no hit and no false alarm, every true match is a miss, and
    the rate is 0 when there was a match and 100 when there was none; the
    overall success rate is 0. *)
Theorem calculateResults_without_presses (st : GameSettings) (s : GameReducerState)
    (res : GameResults) :
  calculateResults st s = Ok res →
  (∀ ch i, ¬ pressedOn ch (userResponses s) i) →
  (∀ ch m, metricsOn ch res = Some m →
     hits m = 0 ∧ falseAlarms m = 0 ∧ misses m = totalMatches m
     ∧ ∃ q, rate m = Finite q
            ∧ (q == if decide (0 < totalMatches m)%Z then 0 else 100)%Q)
  ∧ ∃ q, overallSuccessRate res = Finite q ∧ (q == 0)%Q.
Proof.
  intros Hres Hno.
  assert (Hn : 0 <= nLevel st).
  { apply (calculateResults_returns_iff_aux st s). eauto. }
  assert (Hch : ∀ ch m, metricsOn ch res = Some m →
            hits m = 0 ∧ falseAlarms m = 0 ∧ misses m = totalMatches m
            ∧ errors m = totalMatches m ∧ 0 <= totalMatches m
            ∧ rate m = Finite (rateOf (totalMatches m) (errors m))).
  { intros ch m Hm.
    pose proof (scored_metricsOn st s res Hn Hres ch) as Hs. unfold scored in Hs.
    destruct (decide _) as [Hen|Hdis]; [|rewrite Hs in Hm; discriminate].
    destruct Hs as (m' & Hm' & H1 & H2 & H3 & H4 & H5 & H6).
    rewrite Hm in Hm'. injection Hm' as <-. unfold countAll in *.
    rewrite countFrom_none in H1 by (intros i _ [_ Hp]; exact (Hno ch i Hp)).
    rewrite countFrom_none in H3 by (intros i _ [_ Hp]; exact (Hno ch i Hp)).
    pose proof (countFrom_hit_miss ch (nLevel st) (stimulusSequence s) (userResponses s)
                  0 (length (stimulusSequence s))) as Hhm.
    rewrite (countFrom_none (hitAt _ _ _ _)) in Hhm
      by (intros i _ [_ Hp]; exact (Hno ch i Hp)).
    pose proof (countFrom_nonneg (matchAt ch (nLevel st) (stimulusSequence s)) 0
                  (length (stimulusSequence s))).
    repeat split; try lia. exact H6. }
  split.
  - intros ch m Hm. destruct (Hch ch m Hm) as (Hh & Hf & Hmi & He & Ht & Hr).
    do 3 (split; [assumption|]). eexists. split; [exact Hr|].
    rewrite He. apply rateOf_all_missed. exact Ht.
  - destruct (calculateResults_scored st s Hn) as (res' & Hres' & _ & _ & _ & _ & Ho).
    rewrite Hres in Hres'. injection Hres' as <-. rewrite Ho. cbv zeta.
    assert (Hh : ∀ ch, from_option hits 0 (metricsOn ch res) = 0).
    { intros ch. destruct (metricsOn ch res) as [m|] eqn:Hm; [|reflexivity].
      simpl. apply (Hch ch m Hm). }
    pose proof (Hh visual_response) as Hv. pose proof (Hh audio_response) as Ha.
    simpl in Hv, Ha. rewrite Hv, Ha.
    set (t := from_option totalMatches 0 (visual res)
              + from_option totalMatches 0 (audio res)).
    destruct (decide (0 < t)) as [Hpos|Hnone]; eexists; (split; [reflexivity|]).
    + destruct t as [|p|p]; try lia. reflexivity.
    + reflexivity.
Qed.

Lemma calculateResults_without_presses_witness :
  ∃ res, calculateResults demoSettings (demoState finished 3) = Ok res
    ∧ (∀ ch m, metricsOn ch res = Some m →
         hits m = 0 ∧ falseAlarms m = 0 ∧ misses m = totalMatches m
         ∧ ∃ q, rate m = Finite q
                ∧ (q == if decide (0 < totalMatches m)%Z then 0 else 100)%Q)
    ∧ ∃ q, overallSuccessRate res = Finite q ∧ (q == 0)%Q.
Proof.
  eexists. split; [vm_compute; reflexivity|].
  refine (calculateResults_without_presses demoSettings (demoState finished 3) _ _ _).
  - vm_compute. reflexivity.
  - intros ch i Hp. unfold pressedOn in Hp. simpl in Hp.
    rewrite blankResponses_lookup in Hp.
    destruct (decide _), ch; discriminate.
Defined.

(** X6. A flawless session, where on every enabled channel the presses are
    exactly at the true matches: every match is a hit, there is no miss,
    no false alarm and no error, and every rate is 100; the overall
    success rate is 100 when there was a match at all and 0 otherwise. *)
Theorem calculateResults_flawless (st : GameSettings) (s : GameReducerState)
    (res : GameResults) :
  calculateResults st s = Ok res →
  (∀ ch i, channelEnabled ch (gameMode st) →
     (pressedOn ch (userResponses s) i
      ↔ matchAt ch (nLevel st) (stimulusSequence s) i)) →
  (∀ ch m, metricsOn ch res = Some m →
     hits m = totalMatches m ∧ misses m = 0 ∧ falseAlarms m = 0 ∧ errors m = 0
     ∧ ∃ q, rate m = Finite q ∧ (q == 100)%Q)
  ∧ ∃ q, overallSuccessRate res = Finite q
         ∧ (q == if decide (0 < from_option totalMatches 0 (visual res)
                             + from_option totalMatches 0 (audio res))%Z
                 then 100 else 0)%Q.
Proof.
  intros Hres Hplay.
  assert (Hn : 0 <= nLevel st).
  { apply (calculateResults_returns_iff_aux st s). eauto. }
  assert (Hch : ∀ ch m, metricsOn ch res = Some m →
            hits m = totalMatches m ∧ misses m = 0 ∧ falseAlarms m = 0 ∧ errors m = 0
            ∧ 0 <= totalMatches m
            ∧ rate m = Finite (rateOf (totalMatches m) (errors m))).
  { intros ch m Hm.
    pose proof (scored_metricsOn st s res Hn Hres ch) as Hs. unfold scored in Hs.
    destruct (decide _) as [Hen|Hdis]; [|rewrite Hs in Hm; discriminate].
    destruct Hs as (m' & Hm' & H1 & H2 & H3 & H4 & H5 & H6).
    rewrite Hm in Hm'. injection Hm' as <-. unfold countAll in *.
    rewrite countFrom_none in H2
      by (intros i _ [Hma Hp]; apply Hp; apply Hplay; assumption).
    rewrite countFrom_none in H3
      by (intros i _ [Hd Hp]; apply (Hplay ch i Hen) in Hp;
          eapply matchAt_differAt_exclusive; eassumption).
    pose proof (countFrom_hit_miss ch (nLevel st) (stimulusSequence s) (userResponses s)
                  0 (length (stimulusSequence s))) as Hhm.
    rewrite (countFrom_none (missAt _ _ _ _)) in Hhm
      by (intros i _ [Hma Hp]; apply Hp; apply Hplay; assumption).
    pose proof (countFrom_nonneg (matchAt ch (nLevel st) (stimulusSequence s)) 0
                  (length (stimulusSequence s))).
    repeat split; try lia. exact H6. }
  split.
  - intros ch m Hm. destruct (Hch ch m Hm) as (Hh & Hmi & Hf & He & Ht & Hr).
    do 4 (split; [assumption|]). eexists. split; [exact Hr|].
    rewrite He. apply rateOf_no_error. exact Ht.
  - destruct (calculateResults_scored st s Hn) as (res' & Hres' & _ & _ & _ & _ & Ho).
    rewrite Hres in Hres'. injection Hres' as <-. rewrite Ho. cbv zeta.
    assert (Hh : ∀ ch, from_option hits 0 (metricsOn ch res)
                       = from_option totalMatches 0 (metricsOn ch res)).
    { intros ch. destruct (metricsOn ch res) as [m|] eqn:Hm; [|reflexivity].
      simpl. apply (Hch ch m Hm). }
    pose proof (Hh visual_response) as Hv. pose proof (Hh audio_response) as Ha.
    simpl in Hv, Ha. rewrite Hv, Ha.
    set (t := from_option totalMatches 0 (visual res)
              + from_option totalMatches 0 (audio res)).
    destruct (decide (0 < t)) as [Hpos|Hnone]; eexists; (split; [reflexivity|]).
    + destruct t as [|p|p]; try lia.
      unfold Qeq, Qdiv, Qmult, Qinv, inject_Z. simpl. lia.
    + reflexivity.
Qed.

Lemma calculateResults_flawless_witness :
  ∃ res, calculateResults scenarioSettings flawlessState = Ok res
    ∧ (∀ ch m, metricsOn ch res = Some m →
         hits m = totalMatches m ∧ misses m = 0 ∧ falseAlarms m = 0 ∧ errors m = 0
         ∧ ∃ q, rate m = Finite q ∧ (q == 100)%Q)
    ∧ ∃ q, overallSuccessRate res = Finite q
           ∧ (q == if decide (0 < from_option totalMatches 0 (visual res)
                               + from_option totalMatches 0 (audio res))%Z
                   then 100 else 0)%Q.
Proof.
  eexists. split; [vm_compute; reflexivity|].
  refine (calculateResults_flawless scenarioSettings flawlessState _ _ _).
  - vm_compute. reflexivity.
  - intros ch i Hen. destruct ch; [|simpl in Hen; congruence].
    destruct (decide (0 <= i < 5)) as [Hi|Hi].
    + assert (E : bool_decide (pressedOn visual_response (userResponses flawlessState) i)
                  = bool_decide (matchAt visual_response (nLevel scenarioSettings)
                                   (stimulusSequence flawlessState) i)).
      { assert (i = 0 ∨ i = 1 ∨ i = 2 ∨ i = 3 ∨ i = 4) as [->|[->|[->|[->| ->]]]] by lia;
          vm_compute; reflexivity. }
      split; intros H; pose proof (bool_decide_pack _ H) as H';
        [rewrite E in H' | rewrite <- E in H']; exact (bool_decide_unpack _ H').
    + split.
      * intros Hp. exfalso. unfold pressedOn, flawlessState, scenarioState in Hp.
        simpl in Hp. rewrite !lookup_insert_ne in Hp by lia.
        rewrite blankResponses_lookup in Hp.
        destruct (decide _); discriminate.
      * intros (_ & c & b & Hc & _). apply js_index_Some in Hc. simpl in Hc. lia.
Defined.

(** ** More on the sequence generator *)

(** Where the values of a new stimulus come from: a decided match copies
    the N-back stimulus, anything else was drawn by the channel's helper. *)
Lemma trial_values (rand : nat → Q) (fuel : nat) (st : GameSettings) (numTrials i : Z)
    (g g' : GenState) :
  trial rand fuel st numTrials i g = Ok g' →
  ∃ stim d,
    sequence g' = sequence g ++ [stim]
    ∧ decisions g' = decisions g ++ [d]
    ∧ ((d.1 = true ∧ gameMode st ≠ Audio
        ∧ ∃ nBack, js_index (sequence g) (i - nLevel st) = Some nBack
                   ∧ visualPosition stim = visualPosition nBack)
       ∨ (d.1 = false
          ∧ ∃ c, visualPosition stim = (getRandomVisual rand (gameMode st) c).1))
    ∧ ((d.2 = true ∧ gameMode st ≠ Visual
        ∧ ∃ nBack, js_index (sequence g) (i - nLevel st) = Some nBack
                   ∧ audioLetter stim = audioLetter nBack)
       ∨ (d.2 = false
          ∧ ∃ c, audioLetter stim = (getRandomAudio rand (gameMode st) c).1)).
Proof.
  unfold trial.
  match goal with
  | |- context [channel_value rand ?e visualPosition ?gr ?b ?n ?i ?f ?force ?c] =>
      destruct (channel_value rand e visualPosition gr b n i f force c)
        as [[[vp vb] c1]| |] eqn:Hv; simpl; try discriminate;
      pose proof (channel_value_inv rand _ _ _ _ _ _ _ _ _ _ _ _ Hv) as (Hv1 & Hv2 & _)
  end.
  match goal with
  | |- context [channel_value rand ?e audioLetter ?gr ?b ?n ?i ?f ?force ?c] =>
      destruct (channel_value rand e audioLetter gr b n i f force c)
        as [[[al ab] c2]| |] eqn:Ha; simpl; try discriminate;
      pose proof (channel_value_inv rand _ _ _ _ _ _ _ _ _ _ _ _ Ha) as (Ha1 & Ha2 & _)
  end.
  clear Hv Ha. intros [= <-]. simpl.
  exists (mkStimulus vp al), (vb, ab).
  split; [reflexivity|]. split; [reflexivity|]. simpl.
  rewrite live_iff in Hv1, Ha1. split.
  - destruct vb.
    + left. destruct (Hv1 eq_refl) as ((_ & Hen) & nBack & Hnb & Heq). eauto 6.
    + right. destruct (Hv2 eq_refl) as ((c & Hc) & _). eauto.
  - destruct ab.
    + left. destruct (Ha1 eq_refl) as ((_ & Hen) & nBack & Hnb & Heq). eauto 6.
    + right. destruct (Ha2 eq_refl) as ((c & Hc) & _). eauto.
Qed.

(** A property of values that holds of everything the two helpers draw
    holds of every value in the generated sequence. *)
Lemma generated_values (rand : nat → Q) (fuel : nat) (st : GameSettings) (g : GenState)
    (Pv : option Z → Prop) (Pa : option string → Prop) :
  (∀ c, Pv (getRandomVisual rand (gameMode st) c).1) →
  (∀ c, Pa (getRandomAudio rand (gameMode st) c).1) →
  generateTrace rand fuel st = Ok g →
  ∀ i stim, js_index (sequence g) i = Some stim →
            Pv (visualPosition stim) ∧ Pa (audioLetter stim).
Proof.
  intros HPv HPa. unfold generateTrace.
  set (P := λ (_ : Z) (g : GenState),
         ∀ i stim, js_index (sequence g) i = Some stim →
                   Pv (visualPosition stim) ∧ Pa (audioLetter stim)).
  assert (Hinit : P 0 initialGenState).
  { intros i stim Hi. apply js_index_Some in Hi. simpl in Hi. lia. }
  case_decide; [intros [= <-]; exact Hinit|].
  intros Hrun.
  apply (trials_ind rand fuel st (numTrialsOf st)
           (0 + Z.of_nat (Z.to_nat (numTrialsOf st))) P) in Hrun;
    [exact Hrun| |lia|exact Hinit].
  clear Hrun. intros i g0 g1 _ Hold Ht.
  destruct (trial_values _ _ _ _ _ _ _ Ht) as (stim & d & Hseq & _ & Hvis & Haud).
  intros j s Hj. rewrite Hseq in Hj.
  destruct (js_index_snoc_inv _ _ _ _ Hj) as [[_ Hin]|[_ ->]]; [exact (Hold j s Hin)|].
  split.
  - destruct Hvis as [(_ & _ & nBack & Hnb & ->)|(_ & c & ->)]; [|apply HPv].
    apply (Hold _ _ Hnb).
  - destruct Haud as [(_ & _ & nBack & Hnb & ->)|(_ & c & ->)]; [|apply HPa].
    apply (Hold _ _ Hnb).
Qed.

Lemma elem_of_js_index {A : Type} (arr : list A) (x : A) :
  x ∈ arr → ∃ i, js_index arr i = Some x.
Proof.
  intros Hx. apply list_elem_of_lookup in Hx as [k Hk].
  exists (Z.of_nat k). apply js_index_Some. rewrite Nat2Z.id.
  split; [|exact Hk]. apply lookup_lt_Some in Hk. lia.
Qed.

(** X7. generateSequence: every stimulus of a generated sequence carries
    exactly the channels of the game mode. Its position is null exactly in
    Audio mode; its letter is null in Visual mode, and, when Math.random
    stays in [0, 1), only in Visual mode. *)
Theorem stimuli_follow_the_mode (rand : nat → Q) (fuel : nat) (st : GameSettings)
    (stimuli : list Stimulus) (stim : Stimulus) :
  generateSequence rand fuel st = Ok stimuli →
  stim ∈ stimuli →
  (visualPosition stim = None ↔ gameMode st = Audio)
  ∧ (gameMode st = Visual → audioLetter stim = None)
  ∧ (unitInterval rand → audioLetter stim = None → gameMode st = Visual).
Proof.
  intros Hgen Hin. apply generateSequence_Ok in Hgen as (g & Hg & <-).
  apply elem_of_js_index in Hin as [i Hi].
  split; [|split].
  - refine (proj1 (generated_values rand fuel st g
                     (λ v, v = None ↔ gameMode st = Audio) (λ _, True) _ _ Hg i stim Hi)).
    + intros c. unfold getRandomVisual. case_decide; simpl; [tauto|].
      split; [discriminate|contradiction].
    + done.
  - refine (proj2 (generated_values rand fuel st g
                     (λ _, True) (λ a, gameMode st = Visual → a = None) _ _ Hg i stim Hi)).
    + done.
    + intros c Hm. unfold getRandomAudio. case_decide; [reflexivity|contradiction].
  - intros Hu.
    refine (proj2 (generated_values rand fuel st g
                     (λ _, True) (λ a, a = None → gameMode st = Visual) _ _ Hg i stim Hi)).
    + done.
    + intros c Hnone. destruct (decide (gameMode st = Visual)) as [|Hm]; [done|].
      exfalso. exact (getRandomAudio_hasValue rand _ c Hu Hm Hnone).
Qed.

Lemma stimuli_follow_the_mode_witness :
  ∃ stimuli stim,
    generateSequence cycle4 10 scenarioSettings = Ok stimuli ∧ stim ∈ stimuli
    ∧ visualPosition stim ≠ None.
Proof.
  eexists _, _. split; [vm_compute; reflexivity|]. split; [apply list_elem_of_here|].
  intros Hnone.
  pose proof (stimuli_follow_the_mode cycle4 10 scenarioSettings _ _
                ltac:(vm_compute; reflexivity) ltac:(apply list_elem_of_here)) as (H & _).
  apply H in Hnone. discriminate Hnone.
Defined.

(** X8. generateSequence: when Math.random stays in [0, 1), every position
    of a generated sequence is a cell index of the 3 x 3 grid and every
    letter is one of AUDIO_LETTERS. *)
Theorem generated_values_in_range (rand : nat → Q) (fuel : nat) (st : GameSettings)
    (stimuli : list Stimulus) (stim : Stimulus) :
  unitInterval rand →
  generateSequence rand fuel st = Ok stimuli →
  stim ∈ stimuli →
  (∀ v, visualPosition stim = Some v → 0 <= v < GRID_SIZE * GRID_SIZE)
  ∧ (∀ l, audioLetter stim = Some l → l ∈ AUDIO_LETTERS).
Proof.
  intros Hu Hgen Hin. apply generateSequence_Ok in Hgen as (g & Hg & <-).
  apply elem_of_js_index in Hin as [i Hi].
  refine (generated_values rand fuel st g
            (λ p, ∀ v, p = Some v → 0 <= v < GRID_SIZE * GRID_SIZE)
            (λ a, ∀ l, a = Some l → l ∈ AUDIO_LETTERS) _ _ Hg i stim Hi).
  - intros c v. unfold getRandomVisual. case_decide; simpl; [discriminate|].
    intros [= <-]. destruct (Hu c) as [H0 H1].
    apply (scaled_floor_range (rand c) 9); [lia|exact H0|exact H1].
  - intros c l. unfold getRandomAudio. case_decide; simpl; [discriminate|].
    intros Hl. apply js_index_Some in Hl as [_ Hl].
    eapply list_elem_of_lookup_2. exact Hl.
Qed.

Lemma generated_values_in_range_witness :
  ∃ stimuli stim,
    generateSequence cycle4 10 scenarioSettings = Ok stimuli ∧ stim ∈ stimuli
    ∧ (∀ v, visualPosition stim = Some v → 0 <= v < GRID_SIZE * GRID_SIZE).
Proof.
  eexists _, _. split; [vm_compute; reflexivity|]. split; [apply list_elem_of_here|].
  apply (generated_values_in_range cycle4 10 scenarioSettings _ _ cycle4_unitInterval
           ltac:(vm_compute; reflexivity) ltac:(apply list_elem_of_here)).
Defined.

(** With a positive N, a new stimulus changes no earlier match. *)
Lemma matchAt_snoc_inv (ch : ResponseType) (n : Z) (stimuli : list Stimulus)
    (x : Stimulus) (j : Z) :
  0 < n → j < Z.of_nat (length stimuli) →
  matchAt ch n (stimuli ++ [x]) j → matchAt ch n stimuli j.
Proof.
  intros Hn Hj (Hnj & cur & nBack & Hcur & Hnb & Hs). split; [exact Hnj|].
  exists cur, nBack. split; [|split; [|exact Hs]].
  - rewrite js_index_app_l in Hcur; [exact Hcur|lia].
  - rewrite js_index_app_l in Hnb; [exact Hnb|lia].
Qed.

Lemma countMatches_snoc_eq (ch : ResponseType) (n : Z) (stimuli : list Stimulus)
    (x : Stimulus) :
  0 < n →
  countMatches ch n (stimuli ++ [x])
  = (countMatches ch n stimuli
     + (if decide (matchAt ch n (stimuli ++ [x]) (Z.of_nat (length stimuli)))
        then 1 else 0))%nat.
Proof.
  intros Hn. apply Nat2Z.inj. rewrite Nat2Z.inj_add, !countMatches_countAll.
  unfold countAll. rewrite length_app. simpl. rewrite Nat.add_1_r, countFrom_snoc.
  rewrite Z.add_0_l.
  rewrite (countFrom_ext (matchAt ch n (stimuli ++ [x])) (matchAt ch n stimuli)).
  - destruct (decide (matchAt ch n (stimuli ++ [x]) (Z.of_nat (length stimuli))));
      reflexivity.
  - intros i Hi. split; [apply matchAt_snoc_inv; lia|apply matchAt_app].
Qed.

Lemma decidedInv_step (rand : nat → Q) (fuel : nat) (st : GameSettings)
    (numTrials : Z) (ch : ResponseType) (i : Z) (g g' : GenState) :
  channelEnabled ch (gameMode st) →
  genInv st ch i g → decidedInv st ch g →
  trial rand fuel st numTrials i g = Ok g' →
  decidedInv st ch g'.
Proof.
  intros Hen (Hi & Hlen & Hval & _ & _) [Hdec Hcnt] Ht.
  destruct (trial_inv _ _ _ _ _ _ _ Ht) as (stim & d & Hseq & Hdecs & Hch).
  destruct (Hch ch) as (Hcr & Hyes & Hno & _). clear Hch.
  assert (Hpos : nLevel st <= i → 0 < nLevel st).
  { intros Hn. destruct (decidedMatch ch d) eqn:Hd.
    - destruct (Hyes eq_refl) as (_ & _ & nBack & Hnb & _).
      apply js_index_Some in Hnb. lia.
    - destruct (Hno eq_refl Hen) as [_ Hne].
      destruct (Hne Hn) as (nBack & Hnb & _). apply js_index_Some in Hnb. lia. }
  assert (Hnew : decidedMatch ch d = true
                 ↔ matchAt ch (nLevel st) (sequence g ++ [stim]) i).
  { split.
    - intros Hd. destruct (Hyes Hd) as (Hn & _ & nBack & Hnb & Hsame).
      specialize (Hsame (Hval _ _ Hnb)). split; [exact Hn|]. exists stim, nBack.
      split; [rewrite Hi; apply js_index_app_last|]. split; [|exact Hsame].
      rewrite js_index_app_l; [exact Hnb|]. apply js_index_Some in Hnb. lia.
    - intros (Hn & cur & nBack & Hcur & Hnb & Hsame).
      destruct (decidedMatch ch d) eqn:Hd; [reflexivity|]. exfalso.
      destruct (Hno eq_refl Hen) as [_ Hne].
      destruct (Hne Hn) as (nBack' & Hnb' & Hns). apply Hns.
      rewrite Hi, js_index_app_last in Hcur. injection Hcur as <-.
      rewrite js_index_app_l in Hnb by (apply js_index_Some in Hnb'; lia).
      rewrite Hnb' in Hnb. injection Hnb as <-. exact Hsame. }
  unfold decidedInv. rewrite Hseq, Hdecs. split.
  - intros j d0 Hj Hd0.
    destruct (js_index_snoc_inv _ _ _ _ Hj) as [[_ Hold]|[Hjeq ->]].
    + apply matchAt_app. exact (Hdec j d0 Hold Hd0).
    + replace j with i by lia. apply Hnew. exact Hd0.
  - rewrite Hcr. destruct (decide (nLevel st <= i)) as [Hn|Hn].
    + rewrite countMatches_snoc_eq by exact (Hpos Hn). rewrite <- Hi.
      destruct (decide (matchAt ch (nLevel st) (sequence g ++ [stim]) i)) as [Hm|Hm].
      * apply Hnew in Hm. rewrite Hm. simpl. lia.
      * destruct (decidedMatch ch d); simpl; lia.
    + rewrite countMatches_snoc_eq by lia. rewrite <- Hi.
      destruct (decide (matchAt ch (nLevel st) (sequence g ++ [stim]) i)) as [Hm|Hm].
      * destruct Hm as [Hm _]. lia.
      * destruct (decidedMatch ch d); simpl; lia.
Qed.

Lemma generateTrace_decidedInv (rand : nat → Q) (fuel : nat) (st : GameSettings)
    (ch : ResponseType) (g : GenState) :
  channelEnabled ch (gameMode st) → unitInterval rand →
  generateTrace rand fuel st = Ok g →
  ∃ i, genInv st ch i g ∧ decidedInv st ch g.
Proof.
  intros Hen Hu. unfold generateTrace.
  assert (Hinit : genInv st ch 0 initialGenState ∧ decidedInv st ch initialGenState).
  { split; [apply genInv_init; exact Hen|]. split.
    - intros j d Hj. apply js_index_Some in Hj. simpl in Hj. lia.
    - destruct ch; simpl; reflexivity. }
  case_decide; [intros [= <-]; exists 0; exact Hinit|].
  intros Hrun.
  exists (0 + Z.of_nat (Z.to_nat (numTrialsOf st))).
  apply (trials_ind rand fuel st (numTrialsOf st)
           (0 + Z.of_nat (Z.to_nat (numTrialsOf st)))
           (λ i g, genInv st ch i g ∧ decidedInv st ch g)) in Hrun;
    [exact Hrun| |lia|exact Hinit].
  clear Hrun. intros i g0 g1 _ [Hg Hd] Ht. split.
  - eapply genInv_step; eassumption.
  - eapply decidedInv_step; eassumption.
Qed.

(** X9. generateSequence: on an enabled channel the generator leaves no
    accidental match. A trial of the final sequence is an N-back match
    exactly when the loop decided to make it one, and the counter of
    created matches equals the number of true matches of the sequence. *)
Theorem no_accidental_matches (rand : nat → Q) (fuel : nat) (st : GameSettings)
    (ch : ResponseType) (g : GenState) :
  channelEnabled ch (gameMode st) → unitInterval rand →
  generateTrace rand fuel st = Ok g →
  (∀ j, matchAt ch (nLevel st) (sequence g) j
        ↔ ∃ d, js_index (decisions g) j = Some d ∧ decidedMatch ch d = true)
  ∧ created ch g = Z.of_nat (countMatches ch (nLevel st) (sequence g)).
Proof.
  intros Hen Hu Hg.
  destruct (generateTrace_decidedInv _ _ _ _ _ Hen Hu Hg)
    as (i & (Hi & Hlen & Hval & Hdiff & Hc0 & Hle) & Hdec & Hge).
  split; [|lia]. intros j. split.
  - intros (Hn & cur & nBack & Hcur & Hnb & Hsame).
    destruct (js_index_is_Some (decisions g) j) as [d Hd].
    { apply js_index_Some in Hcur. lia. }
    exists d. split; [exact Hd|].
    destruct (decidedMatch ch d) eqn:Hdm; [reflexivity|]. exfalso.
    destruct (Hdiff j d Hn Hd Hdm) as (cur' & nBack' & Hcur' & Hnb' & Hvd).
    rewrite Hcur in Hcur'. injection Hcur' as <-.
    rewrite Hnb in Hnb'. injection Hnb' as <-.
    destruct ch; simpl in Hsame, Hvd;
      destruct Hsame as (v & Ha & Hb), Hvd as (v1 & v2 & Ha' & Hb' & Hne); congruence.
  - intros (d & Hd & Hdm). exact (Hdec j d Hd Hdm).
Qed.

Lemma no_accidental_matches_witness :
  ∃ g, generateTrace cycle4 10 scenarioSettings = Ok g
       ∧ created visual_response g
         = Z.of_nat (countMatches visual_response 2 (sequence g)).
Proof.
  eexists. split; [vm_compute; reflexivity|].
  apply (no_accidental_matches cycle4 10 scenarioSettings visual_response _
           ltac:(discriminate) cycle4_unitInterval ltac:(vm_compute; reflexivity)).
Defined.

(** X10. generateSequence: the forced matches suffice whenever the session
    has room for them. If twice the minimum of a channel is at most the
    number of trials from N on plus one, every sequence generated from a
    random stream within [0, 1) has at least the minimum number of true
    matches on that channel, when the channel is enabled. *)
Theorem minimum_reached_when_room (rand : nat → Q) (fuel : nat) (st : GameSettings)
    (ch : ResponseType) (stimuli : list Stimulus) :
  0 < stimulusDuration st + interStimulusInterval st →
  2 * Z.max 0 (minMatchesOn ch st) <= numTrialsOf st - Z.max 0 (nLevel st) + 1 →
  channelEnabled ch (gameMode st) → unitInterval rand →
  generateSequence rand fuel st = Ok stimuli →
  minMatchesOn ch st <= Z.of_nat (countMatches ch (nLevel st) stimuli).
Proof.
  intros Htd Hroom Hen Hu Hrun. apply generateSequence_Ok in Hrun as (g & Hg & <-).
  unfold generateTrace in Hg.
  destruct (decide (stimulusDuration st + interStimulusInterval st <= 0)); [lia|].
  destruct (decide (0 <= numTrialsOf st)) as [HT|HT]; [|lia].
  destruct (trials_invariants rand fuel st (numTrialsOf st) ch Hen Hu g HT Hroom Hg)
    as [(_ & _ & _ & _ & Hc0 & Hcnt) Hforce].
  unfold forceInv in Hforce. lia.
Qed.

Lemma minimum_reached_when_room_witness :
  ∃ stimuli, generateSequence cycle4 10 scenarioSettings = Ok stimuli
             ∧ 2 <= Z.of_nat (countMatches visual_response 2 stimuli).
Proof.
  eexists. split; [vm_compute; reflexivity|].
  apply (minimum_reached_when_room cycle4 10 scenarioSettings visual_response _
           ltac:(vm_compute; reflexivity) ltac:(vm_compute; discriminate)
           ltac:(discriminate) cycle4_unitInterval ltac:(vm_compute; reflexivity)).
Defined.

(** A sequence has no match before index N. *)
Lemma countMatches_upper (ch : ResponseType) (n : Z) (stimuli : list Stimulus) :
  0 <= n →
  Z.of_nat (countMatches ch n stimuli) <= Z.max 0 (Z.of_nat (length stimuli) - n).
Proof.
  intros Hn. rewrite countMatches_countAll. unfold countAll.
  rewrite <- (countFrom_window (matchAt ch n stimuli) n (length stimuli) Hn)
    by (intros i [Hi _]; exact Hi).
  pose proof (countFrom_nonneg (matchAt ch n stimuli) n
                (Z.to_nat (Z.of_nat (length stimuli) - n))).
  lia.
Qed.

(** X11. generateSequence: a session too short for its minimum never reaches
    it. The generator makes numTrials trials, and no trial before index N
    can be a match; so when the minimum of a channel exceeds numTrials - N,
    every generated sequence stays below the minimum on that channel. *)
Theorem minimum_out_of_reach (rand : nat → Q) (fuel : nat) (st : GameSettings)
    (ch : ResponseType) (stimuli : list Stimulus) :
  0 < stimulusDuration st + interStimulusInterval st →
  0 <= nLevel st <= numTrialsOf st →
  numTrialsOf st - nLevel st < minMatchesOn ch st →
  generateSequence rand fuel st = Ok stimuli →
  Z.of_nat (countMatches ch (nLevel st) stimuli) < minMatchesOn ch st.
Proof.
  intros Htd HN Hshort Hrun. apply generateSequence_Ok in Hrun as (g & Hg & <-).
  unfold generateTrace in Hg.
  destruct (decide (stimulusDuration st + interStimulusInterval st <= 0)); [lia|].
  apply trials_length in Hg. simpl in Hg.
  pose proof (countMatches_upper ch (nLevel st) (sequence g) ltac:(lia)). lia.
Qed.

Lemma minimum_out_of_reach_witness :
  ∃ stimuli, generateSequence cycle4 10 slowSettings = Ok stimuli
             ∧ Z.of_nat (countMatches visual_response 1 stimuli) < 3.
Proof.
  eexists. split; [vm_compute; reflexivity|].
  apply (minimum_out_of_reach cycle4 10 slowSettings visual_response _
           ltac:(vm_compute; reflexivity)
           ltac:(vm_compute; split; discriminate)
           ltac:(vm_compute; reflexivity) ltac:(vm_compute; reflexivity)).
Defined.

(** ** The settings form *)

(** X12. Settings.tsx, handleChange: a number typed into one of the four
    numeric fields is stored within the range of that field, unchanged
    when it already lies in the range, and storing the stored value again
    changes nothing; what parseInt could not read (NaN) passes every clamp
    and is stored as it is. *)
Theorem handleChange_clamps (name : string) (lo hi x : Z) :
  formRange name = Some (lo, hi) →
  handleChangeNumber name None = None
  ∧ ∃ y, handleChangeNumber name (Some x) = Some y
         ∧ lo <= y <= hi
         ∧ (lo <= x <= hi → y = x)
         ∧ handleChangeNumber name (Some y) = Some y.
Proof.
  unfold formRange, handleChangeNumber, clampNumber.
  repeat case_decide; subst; try discriminate; intros [= <- <-];
    (split; [reflexivity|]); simpl; eexists; (split; [reflexivity|]);
    unfold MIN_N_LEVEL, MAX_N_LEVEL, MIN_STIMULUS_DURATION, MAX_STIMULUS_DURATION,
      MIN_ISI, MAX_ISI, MIN_SESSION_DURATION, MAX_SESSION_DURATION;
    (split; [lia|]); (split; [lia|]); f_equal; lia.
Qed.

Lemma handleChange_clamps_witness :
  ∃ y, handleChangeNumber "nLevel" (Some 9) = Some y ∧ 1 <= y <= 5.
Proof.
  destruct (handleChange_clamps "nLevel" 1 5 9 eq_refl) as (_ & y & Hy & Hr & _).
  exists y. split; [exact Hy|exact Hr].
Defined.

Lemma numTrialsOf_form_range (st : GameSettings) :
  inFormRange st → 3 <= numTrialsOf st <= 600.
Proof.
  unfold inFormRange, numTrialsOf, MIN_N_LEVEL, MAX_N_LEVEL, MIN_STIMULUS_DURATION,
    MAX_STIMULUS_DURATION, MIN_ISI, MAX_ISI, MIN_SESSION_DURATION, MAX_SESSION_DURATION.
  intros (_ & Hs & Hi & Hd). split.
  - apply Z.div_le_lower_bound; lia.
  - apply Z.div_le_upper_bound; lia.
Qed.

(** X13. Settings.tsx and generateSequence together: for settings within
    the ranges of the form, and a random stream within [0, 1) that is
    never stuck, the generator returns; and what it returns has between 3
    and 600 trials, as many as trial periods fit into the session. *)
Theorem form_settings_generate (rand : nat → Q) (st : GameSettings) :
  inFormRange st → unitInterval rand →
  (neverStuck rand → ∃ fuel stimuli, generateSequence rand fuel st = Ok stimuli)
  ∧ ∀ fuel stimuli, generateSequence rand fuel st = Ok stimuli →
      Z.of_nat (length stimuli) = numTrialsOf st
      ∧ (3 <= length stimuli <= 600)%nat.
Proof.
  intros Hform Hu. pose proof (numTrialsOf_form_range st Hform) as HT.
  destruct Hform as (HN & Hs & Hi & _).
  unfold MIN_N_LEVEL, MIN_STIMULUS_DURATION, MIN_ISI in *. split.
  - intros Hfair.
    destruct (generateTrace_total rand Hu Hfair st ltac:(lia)) as (fuel & g & Hg).
    exists fuel, (sequence g). apply generateSequence_Ok. eauto.
  - intros fuel stimuli Hrun. apply generateSequence_Ok in Hrun as (g & Hg & <-).
    unfold generateTrace in Hg.
    destruct (decide (stimulusDuration st + interStimulusInterval st <= 0)); [lia|].
    apply trials_length in Hg. simpl in Hg. lia.
Qed.

Lemma form_settings_generate_witness :
  ∃ stimuli, generateSequence cycle4 10 slowSettings = Ok stimuli
             ∧ (3 <= length stimuli <= 600)%nat.
Proof.
  eexists. split; [vm_compute; reflexivity|].
  refine (proj2 (proj2 (form_settings_generate cycle4 slowSettings _ cycle4_unitInterval)
                   10%nat _ _)).
  - vm_compute. intuition discriminate.
  - vm_compute. reflexivity.
Defined.

(** ** Sessions of the reducer *)

(** One action of a session on a state of that session. *)
Lemma session_step (now : Z) (st : GameSettings) (s : GameReducerState) (a : GameAction) :
  0 <= nLevel st → wellFormed s → settings s = Some st → sessionAction st a →
  ∃ s', gameReducer now s a = Ok s' ∧ settings s' = Some st.
Proof.
  intros HN Hwf Hst Ha. pose proof Hwf as [Hcur Hslots].
  destruct a; simpl in Ha; simpl.
  - subst. eauto.
  - destruct (status s); eauto.
  - eauto.
  - destruct (status s); eauto.
  - destruct (status s); eauto.
  - subst st0. case_decide as Hend; [eauto|].
    destruct (js_index_is_Some (stimulusSequence s) (currentTrial s + 1)) as [cur Hc];
      [lia|].
    rewrite Hc. simpl.
    destruct (decide (nLevel st <= currentTrial s)) as [Hn|Hn].
    + destruct (wellFormed_trial_data s (nLevel st) Hwf ltac:(lia))
        as (prev & nb & r & -> & -> & ->).
      rewrite missFeedbackOf_visual, missFeedbackOf_audio.
      destruct (decide (gameMode st ≠ Audio)), (decide (gameMode st ≠ Visual));
        simpl; eauto.
    + simpl. eauto.
  - rewrite Hst. simpl. case_decide as Hn; [eauto|].
    destruct (wellFormed_trial_data s (nLevel st) Hwf ltac:(lia))
      as (cur & nb & r & -> & -> & ->).
    rewrite isMatchOf_visual, isMatchOf_audio.
    repeat (match goal with
            | |- context [if ?b then _ else _] => destruct b eqn:?
            | |- context [determineFeedback ?b _] => destruct b eqn:?
            end; simpl; eauto).
  - eauto.
  - case_decide; eauto.
  - eauto.
  - rewrite Hst. destruct (calculateResults_scored st s HN) as (res & -> & _).
    simpl. eauto.
  - eauto.
Qed.

(** X14. useGameReducer.ts and Game.tsx: a session never throws. From a
    well-formed state that holds the settings of the session, with N not
    negative, every run of actions that carry these settings returns a
    state, which is again well formed and holds the same settings. *)
Theorem session_never_throws (st : GameSettings) (s : GameReducerState)
    (events : list (Z * GameAction)) :
  0 <= nLevel st → wellFormed s → settings s = Some st →
  Forall (λ e, sessionAction st e.2) events →
  ∃ s', runTimed s events = Ok s' ∧ wellFormed s' ∧ settings s' = Some st.
Proof.
  intros HN Hwf Hst Hev. revert s Hwf Hst.
  induction Hev as [|[now a] events Ha _ IH]; intros s Hwf Hst; simpl.
  - eauto.
  - destruct (session_step now st s a HN Hwf Hst Ha) as (s1 & Hs1 & Hst1).
    rewrite Hs1. simpl. apply IH; [|exact Hst1].
    eapply gameReducer_wellFormed; eassumption.
Qed.

Lemma session_never_throws_witness :
  ∃ s', runTimed scenarioState
          [(0, NEXT_TRIAL 0 scenarioSettings);
           (10, REGISTER_RESPONSE visual_response 10 scenarioSettings);
           (20, PAUSE_GAME); (30, END_SESSION)] = Ok s'
        ∧ settings s' = Some scenarioSettings.
Proof.
  destruct (session_never_throws scenarioSettings scenarioState
              [(0, NEXT_TRIAL 0 scenarioSettings);
               (10, REGISTER_RESPONSE visual_response 10 scenarioSettings);
               (20, PAUSE_GAME); (30, END_SESSION)])
    as (s' & Hrun & _ & Hst).
  - vm_compute. discriminate.
  - split; [vm_compute; split; [discriminate|reflexivity]|].
    intros i Hi. change (Z.of_nat (length (stimulusSequence scenarioState))) with 5 in Hi.
    assert (i = 0 ∨ i = 1 ∨ i = 2 ∨ i = 3 ∨ i = 4) as [->|[->|[->|[->| ->]]]] by lia;
      vm_compute; eauto.
  - reflexivity.
  - repeat constructor.
  - exists s'. split; [exact Hrun|exact Hst].
Defined.

Lemma set_status_round_trip (s : GameReducerState) (x : Status) :
  set_status (set_status s x) (status s) = s.
Proof. destruct s; reflexivity. Qed.

(** X15. useGameReducer.ts and Game.tsx: pausing freezes the game. PAUSE_GAME
    on a running state gives a paused state on which the game tick and
    every key press do nothing, and from which RESUME_GAME gives back
    exactly the state that was paused. *)
Theorem pause_freezes (toLowerCase : string → string) (now : Z) (s : GameReducerState)
    (st : GameSettings) :
  status s = running →
  ∃ p, gameReducer now s PAUSE_GAME = Ok p
       ∧ status p = paused
       ∧ (∀ now' currentTime, gameTick now' p st currentTime = Ok p)
       ∧ (∀ now' currentTime eventKey,
            keyDown toLowerCase now' p st eventKey currentTime = Ok p)
       ∧ ∀ now', gameReducer now' p RESUME_GAME = Ok s.
Proof.
  intros Hrun. exists (set_status s paused). simpl. rewrite Hrun.
  split; [reflexivity|]. split; [reflexivity|]. split; [|split].
  - intros now' t. unfold gameTick. simpl. reflexivity.
  - intros now' t key. unfold keyDown, handleKeyDown. simpl. reflexivity.
  - intros now'. f_equal. rewrite <- Hrun at 1. apply set_status_round_trip.
Qed.

Lemma pause_freezes_witness :
  ∃ p, gameReducer 0 scenarioState PAUSE_GAME = Ok p
       ∧ gameReducer 5 p RESUME_GAME = Ok scenarioState.
Proof.
  destruct (pause_freezes id 0 scenarioState scenarioSettings eq_refl)
    as (p & Hp & _ & _ & _ & Hres).
  exists p. split; [exact Hp|apply Hres].
Defined.

(** X16. REGISTER_RESPONSE: a second press on the same channel in the same
    trial changes nothing. Whatever state a REGISTER_RESPONSE returns, the
    same response registered again, at any time, returns that state. *)
Theorem second_press_changes_nothing (now now' : Z) (s s' : GameReducerState)
    (responseType : ResponseType) (t t' : Z) (st0 st1 : GameSettings) :
  gameReducer now s (REGISTER_RESPONSE responseType t st0) = Ok s' →
  gameReducer now' s' (REGISTER_RESPONSE responseType t' st1) = Ok s'.
Proof.
  simpl. destruct (settings s) as [st|] eqn:Hst; simpl; [|discriminate].
  destruct (decide (currentTrial s < nLevel st)) as [Hn|Hn].
  { intros [= Heq]; subst s'. rewrite Hst. simpl. rewrite decide_True by exact Hn. reflexivity. }
  destruct (bool_decide (responseType = visual_response)
            && notNull (userResponses s !! currentTrial s) r_visual) eqn:Hv.
  { intros [= Heq]; subst s'. rewrite Hst. simpl. rewrite decide_False by exact Hn.
    rewrite Hv. reflexivity. }
  destruct (bool_decide (responseType = audio_response)
            && notNull (userResponses s !! currentTrial s) r_audio) eqn:Ha.
  { intros [= Heq]; subst s'. rewrite Hst. simpl. rewrite decide_False by exact Hn.
    rewrite Hv, Ha. reflexivity. }
  destruct (userResponses s !! currentTrial s) as [r|] eqn:Hslot;
    [|destruct responseType; simpl in Hv, Ha; discriminate].
  intros Hs'. apply bind_Ok in Hs' as ([[[upd fb] show] delta] & Hch & [= <-]).
  simpl. rewrite decide_False by exact Hn.
  rewrite lookup_insert_eq.
  destruct responseType; simpl in Hv, Ha |- *.
  - destruct (bool_decide (gameMode st ≠ Audio)) eqn:Hen; simpl in Hch.
    + apply bind_Ok in Hch as (isMatch & _ & Hch).
      destruct (determineFeedback isMatch (Some true)); injection Hch as <- <- <- <-;
        reflexivity.
    + injection Hch as <- <- <- <-. simpl.
      apply bool_decide_eq_false in Hv. rewrite bool_decide_eq_false_2 by exact Hv.
      simpl. rewrite insert_insert_eq, Z.add_0_r. reflexivity.
  - destruct (bool_decide (gameMode st ≠ Visual)) eqn:Hen; simpl in Hch.
    + apply bind_Ok in Hch as (isMatch & _ & Hch).
      destruct (determineFeedback isMatch (Some true)); injection Hch as <- <- <- <-;
        reflexivity.
    + injection Hch as <- <- <- <-. simpl.
      apply bool_decide_eq_false in Ha. rewrite bool_decide_eq_false_2 by exact Ha.
      simpl. rewrite insert_insert_eq, Z.add_0_r. reflexivity.
Qed.

Lemma second_press_changes_nothing_witness :
  ∃ s', gameReducer 0 scenarioState
          (REGISTER_RESPONSE visual_response 10 scenarioSettings) = Ok s'
        ∧ score s' = 2
        ∧ gameReducer 1 s' (REGISTER_RESPONSE visual_response 20 scenarioSettings) = Ok s'.
Proof.
  eexists. split; [vm_compute; reflexivity|]. split; [reflexivity|].
  apply (second_press_changes_nothing 0 1 scenarioState _ visual_response 10 20
           scenarioSettings scenarioSettings).
  vm_compute. reflexivity.
Defined.

(** ** Feedback *)

(** X17. useGameReducer.ts: feedback never sticks. If every feedback on
    display has a positive expiry time, which is what makes the component
    schedule CLEAR_FEEDBACK, then so it is after any action that carries no
    time before the epoch. *)
Theorem feedback_always_expires (now : Z) (s s' : GameReducerState) (a : GameAction) :
  feedbackExpires s → afterEpoch now a →
  gameReducer now s a = Ok s' →
  feedbackExpires s'.
Proof.
  unfold feedbackExpires. intros Hinv Ha.
  destruct a; simpl in Ha |- *.
  - intros [= <-]. left. reflexivity.
  - destruct (status s); intros [= <-]; exact Hinv.
  - intros [= <-]. left. reflexivity.
  - destruct (status s); intros [= <-]; exact Hinv.
  - destruct (status s); intros [= <-]; exact Hinv.
  - case_decide; [intros [= <-]; exact Hinv|].
    intros Hs'. apply bind_Ok in Hs' as (mf & _ & Hs').
    apply bind_Ok in Hs' as (cur & _ & [= <-]). simpl.
    destruct (bool_decide (f_visual mf ≠ None ∨ f_audio mf ≠ None));
      [right; unfold FEEDBACK_DURATION_MS; lia|left; reflexivity].
  - intros Hs'. apply bind_Ok in Hs' as (st' & _ & Hs').
    case_decide; [injection Hs' as <-; exact Hinv|].
    destruct (_ && _); [injection Hs' as <-; exact Hinv|].
    destruct (_ && _); [injection Hs' as <-; exact Hinv|].
    apply bind_Ok in Hs' as ([[[upd fb'] show] delta] & _ & [= <-]). simpl.
    destruct show; [right; unfold FEEDBACK_DURATION_MS; lia|exact Hinv].
  - intros [= <-]. right. exact Ha.
  - case_decide; intros [= <-]; [left; reflexivity|exact Hinv].
  - intros [= <-]. exact Hinv.
  - destruct (settings s); [|intros [= <-]; exact Hinv].
    intros Hs'. apply bind_Ok in Hs' as (res & _ & [= <-]). left. reflexivity.
  - intros [= <-]. exact Hinv.
Qed.

Lemma feedback_always_expires_witness :
  ∃ s', gameReducer 0 scenarioState
          (REGISTER_RESPONSE visual_response 10 scenarioSettings) = Ok s'
        ∧ feedback s' ≠ noFeedback ∧ feedbackExpires s'.
Proof.
  eexists. split; [vm_compute; reflexivity|]. split; [discriminate|].
  apply (feedback_always_expires 0 scenarioState _
           (REGISTER_RESPONSE visual_response 10 scenarioSettings)).
  - left. reflexivity.
  - simpl. lia.
  - vm_compute. reflexivity.
Defined.

(** ** The end of a session *)

(** X18. useGameReducer.ts and Game.tsx: both endings report the same
    results. A session ends by END_SESSION, when its time is up, or by a
    NEXT_TRIAL past the last trial. With N not negative both return a
    finished state; the component hands the same results to onGameEnd from
    either, and they are the results that END_SESSION stored, while the
    NEXT_TRIAL ending stored none. *)
Theorem both_endings_report_the_same (now currentTime : Z) (st : GameSettings)
    (s : GameReducerState) :
  settings s = Some st → 0 <= nLevel st →
  Z.of_nat (length (stimulusSequence s)) <= currentTrial s + 1 →
  ∃ res byTrial byTime,
    gameReducer now s (NEXT_TRIAL currentTime st) = Ok byTrial
    ∧ gameReducer now s END_SESSION = Ok byTime
    ∧ gameEndResults st byTrial = Some (Ok res)
    ∧ gameEndResults st byTime = Some (Ok res)
    ∧ results byTime = Some res
    ∧ results byTrial = results s.
Proof.
  intros Hst HN Hend.
  destruct (calculateResults_scored st s HN) as (res & Hres & _).
  exists res. simpl. rewrite Hst, Hres. simpl.
  rewrite decide_True by exact Hend.
  eexists _, _. split; [reflexivity|]. split; [reflexivity|].
  unfold gameEndResults. simpl.
  split; [|split; [|split; reflexivity]].
  - rewrite <- Hres. reflexivity.
  - rewrite <- Hres. reflexivity.
Qed.

Lemma both_endings_report_the_same_witness :
  ∃ res byTime,
    gameReducer 0 scenarioState END_SESSION = Ok byTime
    ∧ gameEndResults scenarioSettings byTime = Some (Ok res)
    ∧ results byTime = Some res.
Proof.
  destruct (both_endings_report_the_same 0 0 scenarioSettings scenarioState eq_refl
              ltac:(vm_compute; discriminate) ltac:(vm_compute; discriminate))
    as (res & byTrial & byTime & _ & H1 & _ & H2 & H3 & _).
  exists res, byTime. split; [exact H1|]. split; [exact H2|exact H3].
Defined.

(** ** Key presses *)

(** X19. Game.tsx, handleKeyDown: a key press dispatches a response only
    while the game is running, only for a channel that the game mode
    enables, and only when the key is, up to case, the match key of that
    channel. When the two match keys do not conflict, that is all: on a
    running game the key of an enabled channel dispatches that channel. *)
Theorem handleKeyDown_dispatch (toLowerCase : string → string) (statusNow : Status)
    (st : GameSettings) (eventKey : string) (ch : ResponseType) :
  (handleKeyDown toLowerCase statusNow st eventKey = Some ch →
   statusNow = running ∧ channelEnabled ch (gameMode st)
   ∧ toLowerCase eventKey = toLowerCase (matchKey ch st))
  ∧ (hasKeyConflict toLowerCase st = false →
     statusNow = running → channelEnabled ch (gameMode st) →
     toLowerCase eventKey = toLowerCase (matchKey ch st) →
     handleKeyDown toLowerCase statusNow st eventKey = Some ch).
Proof.
  unfold handleKeyDown, hasKeyConflict. split.
  - destruct (decide (statusNow ≠ running)) as [Hs|Hs]; [discriminate|].
    apply dec_stable in Hs. revert Hs.
    destruct (gameMode st) eqn:Hm; simpl;
      repeat (match goal with
              | |- context [bool_decide ?P] =>
                  destruct (bool_decide_reflect P); simpl
              end);
      intros Hs [= <-]; simpl; (split; [exact Hs|]); (split; [discriminate|]);
      assumption.
  - intros Hnc -> Hen Hkey. apply bool_decide_eq_false in Hnc.
    rewrite decide_False by (intros H; apply H; reflexivity).
    destruct ch; simpl in Hen, Hkey; rewrite Hkey;
      destruct (gameMode st) eqn:Hm; try contradiction; simpl;
      repeat (match goal with
              | |- context [bool_decide ?P] =>
                  destruct (bool_decide_reflect P); simpl
              end);
      try reflexivity; try congruence.
Qed.

(** X20. Game.tsx, handleKeyDown: in Dual mode, two match keys that are
    equal up to case hide a channel. If the keys as stored are equal, no
    key press ever dispatches an audio response; if they differ in case
    only, none ever dispatches a visual response. *)
Theorem key_conflict_hides_a_channel (toLowerCase : string → string)
    (statusNow : Status) (st : GameSettings) (eventKey : string) :
  gameMode st = Dual → hasKeyConflict toLowerCase st = true →
  handleKeyDown toLowerCase statusNow st eventKey
  ≠ Some (if decide (visualMatchKey st = audioMatchKey st)
          then audio_response else visual_response).
Proof.
  unfold handleKeyDown, hasKeyConflict. intros Hm Hc.
  apply bool_decide_eq_true in Hc. rewrite Hm, <- Hc.
  destruct (decide (statusNow ≠ running)); [discriminate|]. simpl.
  destruct (bool_decide_reflect (toLowerCase eventKey = toLowerCase (visualMatchKey st)));
    simpl; [|case_decide; discriminate].
  destruct (decide (visualMatchKey st = audioMatchKey st)) as [Heq|Hne].
  - rewrite bool_decide_eq_true_2 by exact Heq. discriminate.
  - rewrite bool_decide_eq_false_2 by exact Hne. discriminate.
Qed.

Lemma handleKeyDown_dispatch_witness :
  handleKeyDown id running scenarioSettings "a" = Some visual_response
  ∧ channelEnabled visual_response (gameMode scenarioSettings).
Proof.
  split; [reflexivity|].
  apply (handleKeyDown_dispatch id running scenarioSettings "a" visual_response).
  reflexivity.
Defined.

Lemma key_conflict_hides_a_channel_witness :
  handleKeyDown id running conflictSettings "a" ≠ Some audio_response.
Proof.
  apply (key_conflict_hides_a_channel id running conflictSettings "a"); reflexivity.
Defined.

(** ** The live score *)

(** REGISTER_RESPONSE on a state of a session: the response is ignored, or
    it is a first press on an enabled channel at a trial at or past N. *)
Lemma register_cases (now : Z) (s s' : GameReducerState) (st a : GameSettings)
    (ch : ResponseType) (t : Z) :
  wellFormed s → settings s = Some st → 0 <= nLevel st →
  gameReducer now s (REGISTER_RESPONSE ch t a) = Ok s' →
  stimulusSequence s' = stimulusSequence s
  ∧ currentTrial s' = currentTrial s
  ∧ settings s' = settings s
  ∧ ((userResponses s' = userResponses s ∧ score s' = score s)
     ∨ (nLevel st <= currentTrial s ∧ channelEnabled ch (gameMode st)
        ∧ ∃ r cur nBack,
            userResponses s !! currentTrial s = Some r
            ∧ responseOn ch r = None
            ∧ js_index (stimulusSequence s) (currentTrial s) = Some cur
            ∧ js_index (stimulusSequence s) (currentTrial s - nLevel st) = Some nBack
            ∧ userResponses s' = <[currentTrial s := press ch r]> (userResponses s)
            ∧ score s' = score s + (if decide (sameValue ch cur nBack) then 1 else -1))).
Proof.
  intros Hwf Hst HN. simpl. rewrite Hst. simpl.
  destruct (decide (currentTrial s < nLevel st)) as [Hn|Hn].
  { intros [= <-]. do 3 (split; [first [reflexivity|exact Hst]|]). left. split; reflexivity. }
  destruct (bool_decide (ch = visual_response)
            && notNull (userResponses s !! currentTrial s) r_visual) eqn:Hv.
  { intros [= <-]. do 3 (split; [first [reflexivity|exact Hst]|]). left. split; reflexivity. }
  destruct (bool_decide (ch = audio_response)
            && notNull (userResponses s !! currentTrial s) r_audio) eqn:Ha.
  { intros [= <-]. do 3 (split; [first [reflexivity|exact Hst]|]). left. split; reflexivity. }
  destruct (wellFormed_trial_data s (nLevel st) Hwf ltac:(lia))
    as (cur & nb & r & Hcur & Hnb & Hr).
  rewrite Hcur, Hnb, Hr in *. simpl in Hv, Ha |- *.
  rewrite isMatchOf_visual, isMatchOf_audio.
  destruct (bool_decide_reflect (sameValue visual_response cur nb)) as [Hmv|Hmv],
           (bool_decide_reflect (sameValue audio_response cur nb)) as [Hma|Hma];
    destruct ch; simpl in Hv, Ha |- *;
    try (apply bool_decide_eq_false, dec_stable in Hv);
    try (apply bool_decide_eq_false, dec_stable in Ha);
    match goal with
    | |- context [bool_decide (gameMode st ≠ ?m)] =>
        destruct (bool_decide_reflect (gameMode st ≠ m)) as [Hen|Hen]
    end; simpl; intros [= <-]; simpl; (do 3 (split; [reflexivity|]));
    try (left; split; [apply insert_id; exact Hr|lia]);
    right; (split; [lia|]); (split; [exact Hen|]); exists r, cur, nb;
    rewrite ?decide_True by assumption; rewrite ?decide_False by assumption;
    auto 10.
Qed.

(** A match, a press and a miss at a trial whose data are at hand. *)
Lemma matchAt_here (ch : ResponseType) (n : Z) (stimuli : list Stimulus) (i : Z)
    (cur nBack : Stimulus) :
  n <= i → js_index stimuli i = Some cur → js_index stimuli (i - n) = Some nBack →
  matchAt ch n stimuli i ↔ sameValue ch cur nBack.
Proof.
  intros Hn Hcur Hnb. split.
  - intros (_ & c & b & Hc & Hb & Hs). congruence.
  - intros Hs. split; [exact Hn|]. eauto.
Qed.

Lemma differAt_here (ch : ResponseType) (n : Z) (stimuli : list Stimulus) (i : Z)
    (cur nBack : Stimulus) :
  n <= i → js_index stimuli i = Some cur → js_index stimuli (i - n) = Some nBack →
  differAt ch n stimuli i ↔ valuesDiffer ch cur nBack.
Proof.
  intros Hn Hcur Hnb. split.
  - intros (_ & c & b & Hc & Hb & Hs). congruence.
  - intros Hs. split; [exact Hn|]. eauto.
Qed.

Lemma pressedOn_here (ch : ResponseType) (responses : gmap Z Response) (i : Z)
    (r : Response) :
  responses !! i = Some r → pressedOn ch responses i ↔ responseOn ch r = Some true.
Proof. intros Hr. unfold pressedOn. rewrite Hr. reflexivity. Qed.

Lemma miss_charge (ch : ResponseType) (n : Z) (stimuli : list Stimulus)
    (responses : gmap Z Response) (i : Z) (prev nBack : Stimulus) (r : Response) :
  n <= i → js_index stimuli i = Some prev → js_index stimuli (i - n) = Some nBack →
  responses !! i = Some r →
  (if decide (determineMissFeedback (bool_decide (sameValue ch prev nBack))
                (responseOn ch r) = Some miss)
   then -1 else 0)
  = - (if decide (missAt ch n stimuli responses i) then 1 else 0).
Proof.
  intros Hn Hprev Hnb Hr. unfold determineMissFeedback.
  pose proof (matchAt_here ch n stimuli i prev nBack Hn Hprev Hnb) as Hm.
  pose proof (pressedOn_here ch responses i r Hr) as Hp.
  destruct (decide (missAt ch n stimuli responses i)) as [Hd|Hd]; unfold missAt in Hd;
    destruct (bool_decide_reflect (sameValue ch prev nBack)) as [Hs|Hs]; simpl;
    try destruct (bool_decide_reflect (responseOn ch r ≠ Some true)) as [Hx|Hx];
    simpl; try reflexivity; exfalso; tauto.
Qed.

(** NEXT_TRIAL on a state of a session: past the last trial it changes the
    status only; before, it moves to the next trial and charges the
    misses of the trial left behind. *)
Lemma next_trial_cases (now : Z) (s s' : GameReducerState) (st : GameSettings) (t : Z) :
  wellFormed s → 0 <= nLevel st →
  gameReducer now s (NEXT_TRIAL t st) = Ok s' →
  stimulusSequence s' = stimulusSequence s
  ∧ userResponses s' = userResponses s
  ∧ settings s' = settings s
  ∧ ((currentTrial s' = currentTrial s ∧ score s' = score s)
     ∨ (currentTrial s' = currentTrial s + 1
        ∧ score s'
          = score s
            - (if decide (channelEnabled visual_response (gameMode st)
                          ∧ missAt visual_response (nLevel st) (stimulusSequence s)
                              (userResponses s) (currentTrial s))
               then 1 else 0)
            - (if decide (channelEnabled audio_response (gameMode st)
                          ∧ missAt audio_response (nLevel st) (stimulusSequence s)
                              (userResponses s) (currentTrial s))
               then 1 else 0))).
Proof.
  intros Hwf HN. pose proof Hwf as [Hct _]. simpl.
  case_decide as Hend.
  { intros [= <-]. simpl. do 3 (split; [reflexivity|]). left. split; reflexivity. }
  destruct (js_index_is_Some (stimulusSequence s) (currentTrial s + 1)) as [cur Hc];
    [lia|].
  rewrite Hc. simpl.
  destruct (decide (nLevel st <= currentTrial s)) as [Hn|Hn].
  - destruct (wellFormed_trial_data s (nLevel st) Hwf ltac:(lia))
      as (prev & nb & r & Hprev & Hnb & Hr).
    rewrite Hprev, Hnb, Hr, missFeedbackOf_visual, missFeedbackOf_audio.
    pose proof (miss_charge visual_response _ _ _ _ _ _ _ Hn Hprev Hnb Hr) as Hcv.
    pose proof (miss_charge audio_response _ _ _ _ _ _ _ Hn Hprev Hnb Hr) as Hca.
    simpl in Hcv, Hca.
    destruct (decide (gameMode st ≠ Audio)) as [Hv|Hv],
             (decide (gameMode st ≠ Visual)) as [Ha|Ha];
      simpl; intros [= <-]; simpl; (do 3 (split; [reflexivity|])); right;
      (split; [reflexivity|]);
      repeat match goal with
             | |- context [decide (?A ∧ ?B)] =>
                 destruct (decide (A ∧ B)) as [[? ?]|?]
             end;
      repeat match goal with
             | H : context [decide (missAt ?c ?n ?l ?m ?i)] |- _ =>
                 destruct (decide (missAt c n l m i))
             end;
      try contradiction; try tauto; lia.
  - simpl. intros [= <-]. simpl. do 3 (split; [reflexivity|]). right.
    split; [reflexivity|].
    repeat match goal with
           | |- context [decide (?A ∧ ?B)] =>
               destruct (decide (A ∧ B)) as [[_ [[? _] _]]|_]; [lia|]
           end.
    lia.
Qed.

(** Two predicates that agree everywhere but at [j] have counts that
    differ by what they say at [j], if [j] is counted at all. *)
Lemma countFrom_point (P Q : Z → Prop) `{!∀ i, Decision (P i)} `{!∀ i, Decision (Q i)}
    (from : Z) (k : nat) (j : Z) :
  (∀ i, i ≠ j → (P i ↔ Q i)) → from <= j < from + Z.of_nat k →
  countFrom Q from k + (if decide (P j) then 1 else 0)
  = countFrom P from k + (if decide (Q j) then 1 else 0).
Proof.
  intros Hext Hj.
  replace k with (Z.to_nat (j - from) + (1 + Z.to_nat (from + Z.of_nat k - j - 1)))%nat
    by lia.
  rewrite !countFrom_split.
  replace (from + Z.of_nat (Z.to_nat (j - from))) with j by lia.
  rewrite (countFrom_ext Q P from) by (intros i Hi; symmetry; apply Hext; lia).
  rewrite (countFrom_ext Q P (j + Z.of_nat 1))
    by (intros i Hi; symmetry; apply Hext; lia).
  change 1%nat with (S 0). rewrite !countFrom_S, !countFrom_0.
  destruct (decide (P j)), (decide (Q j)); lia.
Qed.

Lemma liveScoreOn_same (ch : ResponseType) (st : GameSettings) (s s' : GameReducerState) :
  stimulusSequence s' = stimulusSequence s → userResponses s' = userResponses s →
  currentTrial s' = currentTrial s →
  liveScoreOn ch st s' = liveScoreOn ch st s.
Proof. intros Hseq Hresp Hct. unfold liveScoreOn. rewrite Hseq, Hresp, Hct. reflexivity. Qed.

Lemma pressedOn_insert (ch c : ResponseType) (responses : gmap Z Response) (j i : Z)
    (r : Response) :
  responses !! j = Some r →
  pressedOn c (<[j := press ch r]> responses) i
  ↔ (i = j ∧ c = ch) ∨ pressedOn c responses i.
Proof.
  intros Hr. unfold pressedOn. destruct (decide (i = j)) as [->|Hne].
  - rewrite lookup_insert_eq, Hr. simpl.
    destruct c, ch; simpl; split; try tauto; try (intros [[_ [=]]|H]; exact H);
      intros _; left; split; reflexivity.
  - rewrite lookup_insert_ne by congruence. split; [tauto|]. intros [[? _]|H]; tauto.
Qed.

(** A first press on an enabled channel at the current trial is worth 1
    at a match and -1 otherwise, on that channel only. *)
Lemma liveScoreOn_press (st : GameSettings) (s s' : GameReducerState) (ch : ResponseType)
    (r : Response) (cur nBack : Stimulus) :
  nLevel st <= currentTrial s → channelEnabled ch (gameMode st) →
  allValued st (stimulusSequence s) →
  userResponses s !! currentTrial s = Some r → responseOn ch r = None →
  js_index (stimulusSequence s) (currentTrial s) = Some cur →
  js_index (stimulusSequence s) (currentTrial s - nLevel st) = Some nBack →
  stimulusSequence s' = stimulusSequence s → currentTrial s' = currentTrial s →
  userResponses s' = <[currentTrial s := press ch r]> (userResponses s) →
  ∀ c, liveScoreOn c st s'
       = liveScoreOn c st s
         + (if decide (c = ch) then if decide (sameValue ch cur nBack) then 1 else -1
            else 0).
Proof.
  intros Hn Hen Hval Hr Hnone Hcur Hnb Hseq Hct Hresp c.
  unfold liveScoreOn. rewrite Hseq, Hct, Hresp.
  destruct (decide (channelEnabled c (gameMode st))) as [Hc|Hc];
    [|rewrite decide_False by (intros ->; contradiction); lia].
  assert (Hnp : ¬ pressedOn ch (userResponses s) (currentTrial s)).
  { rewrite (pressedOn_here _ _ _ _ Hr), Hnone. discriminate. }
  assert (Hrange : 0 <= currentTrial s
                        < 0 + Z.of_nat (length (stimulusSequence s))).
  { apply js_index_Some in Hcur. lia. }
  (* the misses of the trials left behind are as they were *)
  rewrite (countFrom_ext
             (missAt c (nLevel st) (stimulusSequence s)
                (<[currentTrial s := press ch r]> (userResponses s)))
             (missAt c (nLevel st) (stimulusSequence s) (userResponses s)) 0).
  2:{ intros i Hi. unfold missAt. rewrite (pressedOn_insert ch c _ _ i r Hr).
      split; [tauto|]. intros [Hm Hp]. split; [exact Hm|]. intros [[? _]|?]; [lia|tauto]. }
  destruct (decide (c = ch)) as [->|Hne].
  - pose proof (countFrom_point
                  (hitAt ch (nLevel st) (stimulusSequence s) (userResponses s))
                  (hitAt ch (nLevel st) (stimulusSequence s)
                     (<[currentTrial s := press ch r]> (userResponses s)))
                  0 (length (stimulusSequence s)) (currentTrial s)) as Hh.
    pose proof (countFrom_point
                  (falseAlarmAt ch (nLevel st) (stimulusSequence s) (userResponses s))
                  (falseAlarmAt ch (nLevel st) (stimulusSequence s)
                     (<[currentTrial s := press ch r]> (userResponses s)))
                  0 (length (stimulusSequence s)) (currentTrial s)) as Hf.
    specialize (Hh ltac:(intros i Hi; unfold hitAt;
                         rewrite (pressedOn_insert ch ch _ _ i r Hr); tauto) Hrange).
    specialize (Hf ltac:(intros i Hi; unfold falseAlarmAt;
                         rewrite (pressedOn_insert ch ch _ _ i r Hr); tauto) Hrange).
    pose proof (matchAt_here ch _ _ _ _ _ Hn Hcur Hnb) as Hm.
    pose proof (differAt_here ch _ _ _ _ _ Hn Hcur Hnb) as Hd.
    pose proof (pressedOn_insert ch ch _ _ (currentTrial s) r Hr) as Hp.
    assert (Hnew : sameValue ch cur nBack ∨ valuesDiffer ch cur nBack).
    { destruct (decide (sameValue ch cur nBack)) as [Hs|Hs]; [left; exact Hs|right].
      apply not_same_differ; [eapply Hval; eassumption..|exact Hs]. }
    assert (Hexcl : sameValue ch cur nBack → valuesDiffer ch cur nBack → False).
    { intros Hs Hv. apply (matchAt_differAt_exclusive ch (nLevel st)
                             (stimulusSequence s) (currentTrial s)); tauto. }
    unfold countAll.
    destruct (decide (hitAt ch (nLevel st) (stimulusSequence s) (userResponses s)
                        (currentTrial s))) as [[_ Hx]|_]; [contradiction|].
    destruct (decide (falseAlarmAt ch (nLevel st) (stimulusSequence s) (userResponses s)
                        (currentTrial s))) as [[_ Hx]|_]; [contradiction|].
    destruct (decide (hitAt ch (nLevel st) (stimulusSequence s)
                        (<[currentTrial s := press ch r]> (userResponses s))
                        (currentTrial s))) as [[Hx _]|Hx];
      destruct (decide (falseAlarmAt ch (nLevel st) (stimulusSequence s)
                          (<[currentTrial s := press ch r]> (userResponses s))
                          (currentTrial s))) as [[Hy _]|Hy];
      destruct (decide (sameValue ch cur nBack)) as [Hs|Hs];
      try lia; exfalso; unfold hitAt, falseAlarmAt in *; tauto.
  - unfold countAll.
    rewrite (countFrom_ext
               (hitAt c (nLevel st) (stimulusSequence s)
                  (<[currentTrial s := press ch r]> (userResponses s)))
               (hitAt c (nLevel st) (stimulusSequence s) (userResponses s)) 0)
      by (intros i Hi; unfold hitAt; rewrite (pressedOn_insert ch c _ _ i r Hr); tauto).
    rewrite (countFrom_ext
               (falseAlarmAt c (nLevel st) (stimulusSequence s)
                  (<[currentTrial s := press ch r]> (userResponses s)))
               (falseAlarmAt c (nLevel st) (stimulusSequence s) (userResponses s)) 0)
      by (intros i Hi; unfold falseAlarmAt;
          rewrite (pressedOn_insert ch c _ _ i r Hr); tauto).
    lia.
Qed.

(** Moving to the next trial charges the misses of the trial left behind. *)
Lemma liveScoreOn_tick (st : GameSettings) (s s' : GameReducerState) (c : ResponseType) :
  0 <= nLevel st → -1 <= currentTrial s →
  stimulusSequence s' = stimulusSequence s → userResponses s' = userResponses s →
  currentTrial s' = currentTrial s + 1 →
  liveScoreOn c st s'
  = liveScoreOn c st s
    - (if decide (channelEnabled c (gameMode st)
                  ∧ missAt c (nLevel st) (stimulusSequence s) (userResponses s)
                      (currentTrial s))
       then 1 else 0).
Proof.
  intros HN Hct Hseq Hresp Hnext. unfold liveScoreOn. rewrite Hseq, Hresp, Hnext.
  destruct (decide (channelEnabled c (gameMode st))) as [Hc|Hc];
    [|rewrite decide_False by tauto; lia].
  destruct (decide (currentTrial s = -1)) as [Hm1|Hm1].
  - rewrite Hm1. change (Z.to_nat (-1 + 1)) with 0%nat.
    change (Z.to_nat (-1)) with 0%nat. rewrite decide_False; [lia|].
    intros [_ [[Hn _] _]]. lia.
  - replace (Z.to_nat (currentTrial s + 1)) with (S (Z.to_nat (currentTrial s))) by lia.
    rewrite countFrom_snoc.
    replace (0 + Z.of_nat (Z.to_nat (currentTrial s))) with (currentTrial s) by lia.
    destruct (decide (missAt c (nLevel st) (stimulusSequence s) (userResponses s)
                        (currentTrial s))) as [Hm|Hm].
    + rewrite decide_True by tauto. lia.
    + rewrite decide_False by tauto. lia.
Qed.

(** The live score is kept by every action of play. *)
Lemma liveScore_step (now : Z) (st : GameSettings) (s s' : GameReducerState)
    (a : GameAction) :
  0 <= nLevel st → playAction st a →
  wellFormed s → settings s = Some st → allValued st (stimulusSequence s) →
  pressesInPlay st s →
  score s = liveScoreOn visual_response st s + liveScoreOn audio_response st s →
  gameReducer now s a = Ok s' →
  settings s' = Some st ∧ allValued st (stimulusSequence s')
  ∧ pressesInPlay st s'
  ∧ score s' = liveScoreOn visual_response st s' + liveScoreOn audio_response st s'.
Proof.
  intros HN Ha Hwf Hst Hval Hpr Hsc Hs'.
  assert (Hsame : stimulusSequence s' = stimulusSequence s →
                  userResponses s' = userResponses s →
                  currentTrial s' = currentTrial s →
                  settings s' = settings s → score s' = score s →
                  settings s' = Some st ∧ allValued st (stimulusSequence s')
                  ∧ pressesInPlay st s'
                  ∧ score s' = liveScoreOn visual_response st s'
                               + liveScoreOn audio_response st s').
  { intros Hseq Hresp Hct Hset Hscore.
    rewrite !(liveScoreOn_same _ st s s' Hseq Hresp Hct).
    unfold pressesInPlay. rewrite Hseq, Hresp, Hct, Hset, Hscore. auto. }
  destruct a; simpl in Ha; try contradiction.
  - (* RUN_GAME *)
    simpl in Hs'. destruct (status s); injection Hs' as <-; apply Hsame; reflexivity.
  - (* PAUSE_GAME *)
    simpl in Hs'. destruct (status s); injection Hs' as <-; apply Hsame; reflexivity.
  - (* RESUME_GAME *)
    simpl in Hs'. destruct (status s); injection Hs' as <-; apply Hsame; reflexivity.
  - (* NEXT_TRIAL *)
    subst st0. pose proof Hwf as [Hct _].
    destruct (next_trial_cases now s s' st currentTime Hwf HN Hs')
      as (Hseq & Hresp & Hset & [[Hc Hscore]|[Hc Hscore]]).
    + apply Hsame; assumption.
    + rewrite !(liveScoreOn_tick st s s' _ HN ltac:(lia) Hseq Hresp Hc).
      unfold pressesInPlay. rewrite Hseq, Hresp, Hc, Hset, Hscore.
      split; [exact Hst|]. split; [exact Hval|]. split; [|lia].
      intros ch i Hp. destruct (Hpr ch i Hp). split; [assumption|lia].
  - (* REGISTER_RESPONSE *)
    destruct (register_cases now s s' st st0 responseType currentTime Hwf Hst HN Hs')
      as (Hseq & Hct & Hset & [[Hresp Hscore]|Hpress]).
    + apply Hsame; assumption.
    + destruct Hpress as (Hn & Hen & r & cur & nb & Hr & Hnone & Hcur & Hnb & Hresp
                          & Hscore).
      pose proof (liveScoreOn_press st s s' responseType r cur nb Hn Hen Hval Hr Hnone
                    Hcur Hnb Hseq Hct Hresp) as Hlive.
      rewrite !Hlive. unfold pressesInPlay. rewrite Hseq, Hresp, Hct, Hset, Hscore.
      split; [exact Hst|]. split; [exact Hval|]. split.
      * intros ch i Hp. apply (pressedOn_insert responseType ch _ _ i r Hr) in Hp.
        destruct Hp as [[-> ->]|Hp]; [split; [exact Hen|lia]|exact (Hpr ch i Hp)].
      * destruct responseType; simpl;
          destruct (decide (sameValue _ cur nb)); lia.
  - (* SHOW_FEEDBACK *)
    simpl in Hs'. injection Hs' as <-. apply Hsame; reflexivity.
  - (* CLEAR_FEEDBACK *)
    simpl in Hs'. case_decide; injection Hs' as <-; apply Hsame; reflexivity.
  - (* UPDATE_ELAPSED_TIME *)
    simpl in Hs'. injection Hs' as <-. apply Hsame; reflexivity.
  - (* END_SESSION *)
    simpl in Hs'. rewrite Hst in Hs'.
    apply bind_Ok in Hs' as (res & _ & [= <-]). apply Hsame; try reflexivity.
    simpl. symmetry. exact Hst.
  - (* CLEAR_VISUAL_STIMULUS *)
    simpl in Hs'. injection Hs' as <-. apply Hsame; reflexivity.
Qed.

Lemma blank_not_pressed (len : nat) (ch : ResponseType) (i : Z) :
  ¬ pressedOn ch (blankResponses len) i.
Proof.
  unfold pressedOn. rewrite blankResponses_lookup.
  case_decide; destruct ch; simpl; discriminate.
Qed.

Lemma freshSession_liveScore (st : GameSettings) (s : GameReducerState) :
  freshSession st s →
  pressesInPlay st s
  ∧ score s = liveScoreOn visual_response st s + liveScoreOn audio_response st s.
Proof.
  intros (_ & _ & Hct & Hsc & Hnp). split.
  - intros ch i Hp. destruct (Hnp ch i Hp).
  - assert (H0 : ∀ c, liveScoreOn c st s = 0).
    { intros c. unfold liveScoreOn, countAll. case_decide; [|reflexivity].
      rewrite Hct. change (Z.to_nat (-1)) with 0%nat. rewrite countFrom_0.
      rewrite !countFrom_none; [lia| |].
      - intros i _ [_ Hp]. exact (Hnp c i Hp).
      - intros i _ [_ Hp]. exact (Hnp c i Hp). }
    rewrite !H0, Hsc. reflexivity.
Qed.

Lemma liveScore_run (st : GameSettings) (events : list (Z * GameAction)) :
  0 <= nLevel st → Forall (λ e, playAction st e.2) events →
  ∀ s s', wellFormed s → settings s = Some st → allValued st (stimulusSequence s) →
    pressesInPlay st s →
    score s = liveScoreOn visual_response st s + liveScoreOn audio_response st s →
    runTimed s events = Ok s' →
    wellFormed s'
    ∧ score s' = liveScoreOn visual_response st s' + liveScoreOn audio_response st s'.
Proof.
  intros HN Hev. induction Hev as [|[now a] events Ha _ IH];
    intros s s' Hwf Hst Hval Hpr Hsc; simpl.
  - intros [= <-]. split; assumption.
  - intros Hrun. apply bind_Ok in Hrun as (s1 & Hs1 & Hrest).
    destruct (liveScore_step now st s s1 a HN Ha Hwf Hst Hval Hpr Hsc Hs1)
      as (Hst1 & Hval1 & Hpr1 & Hsc1).
    apply (IH s1 s'); try assumption.
    eapply gameReducer_wellFormed; eassumption.
Qed.

(** What the live score of a channel is in terms of its final counters. *)
Lemma liveScoreOn_results (ch : ResponseType) (st : GameSettings) (s : GameReducerState)
    (r : option ModeResultMetrics) :
  wellFormed s → scored ch st s r →
  liveScoreOn ch st s = netScore r + pendingMisses ch st s.
Proof.
  intros [Hct _]. unfold scored, liveScoreOn, pendingMisses, netScore.
  case_decide; [|intros ->; reflexivity].
  intros (m & -> & Hh & Hm & Hf & _ & He & _). simpl.
  rewrite He, Hh, Hm, Hf. unfold countAll.
  pose proof (countFrom_split
                (missAt ch (nLevel st) (stimulusSequence s) (userResponses s)) 0
                (Z.to_nat (currentTrial s))
                (Z.to_nat (Z.of_nat (length (stimulusSequence s))
                           - Z.max 0 (currentTrial s)))) as Hsplit.
  replace (Z.to_nat (currentTrial s)
           + Z.to_nat (Z.of_nat (length (stimulusSequence s))
                       - Z.max 0 (currentTrial s)))%nat
    with (length (stimulusSequence s)) in Hsplit by lia.
  replace (0 + Z.of_nat (Z.to_nat (currentTrial s))) with (Z.max 0 (currentTrial s))
    in Hsplit by lia.
  lia.
Qed.

(** X21. useGameReducer.ts and calculateResults: the live score is the
    final tally less the misses still open. Start from a session before
    its first trial, with N not negative and a sequence that carries a
    value on every enabled channel, and play any actions but START_GAME and
    STOP_GAME. Then calculateResults returns on the state reached, and the
    score of that state is, summed over the channels, hits minus errors of
    the results plus the misses that the results count at the current
    trial and after it. *)
Theorem live_score_accounts (st : GameSettings) (s s' : GameReducerState)
    (events : list (Z * GameAction)) :
  0 <= nLevel st → freshSession st s → allValued st (stimulusSequence s) →
  Forall (λ e, playAction st e.2) events →
  runTimed s events = Ok s' →
  ∃ res, calculateResults st s' = Ok res
         ∧ score s'
           = netScore (visual res) + netScore (audio res)
             + pendingMisses visual_response st s'
             + pendingMisses audio_response st s'.
Proof.
  intros HN Hfresh Hval Hev Hrun.
  destruct (freshSession_liveScore st s Hfresh) as [Hpr Hsc].
  destruct Hfresh as (Hwf & Hst & _).
  destruct (liveScore_run st events HN Hev s s' Hwf Hst Hval Hpr Hsc Hrun)
    as [Hwf' Hsc'].
  destruct (calculateResults_scored st s' HN) as (res & Hres & _ & _ & Hv & Ha & _).
  exists res. split; [exact Hres|].
  rewrite Hsc'.
  rewrite (liveScoreOn_results visual_response st s' (visual res) Hwf' Hv).
  rewrite (liveScoreOn_results audio_response st s' (audio res) Hwf' Ha).
  lia.
Qed.

Lemma live_score_accounts_witness :
  ∃ s' res,
    runTimed scenarioStart scenarioPlay = Ok s'
    ∧ calculateResults scenarioSettings s' = Ok res
    ∧ score s' = 0
    ∧ score s'
      = netScore (visual res) + netScore (audio res)
        + pendingMisses visual_response scenarioSettings s'
        + pendingMisses audio_response scenarioSettings s'.
Proof.
  destruct (runTimed scenarioStart scenarioPlay) as [s'| |] eqn:Hrun;
    [|vm_compute in Hrun; discriminate Hrun..].
  destruct (live_score_accounts scenarioSettings scenarioStart s' scenarioPlay)
    as (res & Hres & Hscore).
  - vm_compute. discriminate.
  - split; [|split; [reflexivity|split; [reflexivity|split; [reflexivity|]]]].
    + split; [vm_compute; split; [discriminate|reflexivity]|].
      intros i Hi. unfold scenarioStart. simpl. rewrite blankResponses_lookup.
      rewrite decide_True by exact Hi. eauto.
    + intros ch i. apply blank_not_pressed.
  - intros ch i stim Hen Hi. destruct ch; [|exfalso; apply Hen; reflexivity].
    apply js_index_Some in Hi as [Hi Hs].
    change (Z.of_nat (length (stimulusSequence scenarioStart))) with 5 in Hi.
    assert (i = 0 ∨ i = 1 ∨ i = 2 ∨ i = 3 ∨ i = 4) as [->|[->|[->|[->| ->]]]] by lia;
      vm_compute in Hs; injection Hs as <-; discriminate.
  - repeat constructor.
  - exact Hrun.
  - exists s', res. split; [reflexivity|]. split; [exact Hres|]. split; [|exact Hscore].
    vm_compute in Hrun. injection Hrun as <-. reflexivity.
Defined.

(** ** The start of a session *)

(** X22. Game.tsx, the start of a session: whatever state the reducer was
    in, generateSequence, START_GAME and RUN_GAME together leave a running
    session before its first trial: a well-formed state with the settings
    and the generated sequence, a score of 0, no press, no results and no
    feedback; nothing of the earlier state survives. When Math.random
    stays in [0, 1), its sequence carries a value on every enabled
    channel. *)
Theorem startSession_fresh (rand : nat → Q) (fuel : nat) (now : Z)
    (s s' : GameReducerState) (st : GameSettings) :
  startSession rand fuel now s st = Ok s' →
  generateSequence rand fuel st = Ok (stimulusSequence s')
  ∧ status s' = running
  ∧ freshSession st s'
  ∧ elapsedTime s' = 0 ∧ results s' = None ∧ feedback s' = noFeedback
  ∧ (unitInterval rand → allValued st (stimulusSequence s'))
  ∧ ∀ now2 s2, startSession rand fuel now2 s2 st = Ok s'.
Proof.
  unfold startSession.
  destruct (generateSequence rand fuel st) as [stimuli| |] eqn:Hgen; simpl;
    try discriminate.
  intros [= <-]. simpl. do 2 (split; [reflexivity|]).
  split; [|do 3 (split; [reflexivity|]); split; [|reflexivity]].
  - split; [|do 3 (split; [reflexivity|]); intros ch i; apply blank_not_pressed].
    split; simpl; [lia|]. intros i Hi. rewrite blankResponses_lookup.
    rewrite decide_True by exact Hi. eauto.
  - intros Hu ch i stim Hen Hi.
    apply generateSequence_Ok in Hgen as (g & Hg & <-).
    destruct (generateTrace_genInv rand fuel st ch g Hen Hu Hg)
      as (j & _ & _ & Hval & _).
    exact (Hval i stim Hi).
Qed.

Lemma startSession_fresh_witness :
  ∃ s', startSession cycle4 10 0 flawlessState scenarioSettings = Ok s'
        ∧ status s' = running ∧ freshSession scenarioSettings s'.
Proof.
  eexists. split; [vm_compute; reflexivity|].
  pose proof (startSession_fresh cycle4 10 0 flawlessState _ scenarioSettings
                ltac:(vm_compute; reflexivity)) as (_ & H1 & H2 & _).
  split; [exact H1|exact H2].
Defined.

(** ** When the generator throws *)

Lemma redraw_no_throw {A : Type} `{EqDecision A} (enabled : bool)
    (field : Stimulus → option A) (getRandom : nat → option A * nat)
    (built : list Stimulus) (n i : Z) (fuel c : nat) :
  ((n <=? i) && enabled = true → is_Some (js_index built (i - n))) →
  redraw enabled field getRandom built n i fuel c ≠ TypeError.
Proof.
  intros Hnb. revert c. induction fuel as [|fuel IH]; intros c; [discriminate|].
  rewrite redraw_S. destruct (getRandom c) as [v c'].
  destruct ((n <=? i) && enabled) eqn:Hlive; [|discriminate].
  destruct (Hnb eq_refl) as [nBack ->]. simpl.
  destruct (bool_decide (v = field nBack) && bool_decide (v ≠ None));
    [apply IH|discriminate].
Qed.

Lemma channel_value_no_throw {A : Type} `{EqDecision A} (rand : nat → Q)
    (enabled : bool) (field : Stimulus → option A) (getRandom : nat → option A * nat)
    (built : list Stimulus) (n i : Z) (fuel : nat) (force : bool) (c : nat) :
  ((n <=? i) && enabled = true → is_Some (js_index built (i - n))) →
  channel_value rand enabled field getRandom built n i fuel force c ≠ TypeError.
Proof.
  intros Hnb. unfold channel_value.
  destruct ((n <=? i) && enabled) eqn:Hlive.
  - destruct (Hnb eq_refl) as [nBack Hb].
    destruct (if force then (true, c)
              else (Qlt_bool (rand c) targetMatchProbability, S c)) as [take c1].
    destruct take.
    + rewrite Hb. discriminate.
    + pose proof (redraw_no_throw enabled field getRandom built n i fuel c1) as Hr.
      rewrite Hlive in Hr. specialize (Hr Hnb).
      destruct (redraw enabled field getRandom built n i fuel c1) as [[v c2]| |];
        [discriminate|contradiction|discriminate].
  - pose proof (redraw_no_throw enabled field getRandom built n i fuel c) as Hr.
    rewrite Hlive in Hr. specialize (Hr Hnb).
    destruct (redraw enabled field getRandom built n i fuel c) as [[v c2]| |];
      [discriminate|contradiction|discriminate].
Qed.

Lemma trial_no_throw (rand : nat → Q) (fuel : nat) (st : GameSettings)
    (numTrials i : Z) (g : GenState) :
  1 <= nLevel st → i = Z.of_nat (length (sequence g)) →
  trial rand fuel st numTrials i g ≠ TypeError.
Proof.
  intros HN Hi.
  assert (Hnb : ∀ e : bool, (nLevel st <=? i) && e = true →
                            is_Some (js_index (sequence g) (i - nLevel st))).
  { intros e He. apply andb_true_iff in He as [Hle _]. apply Z.leb_le in Hle.
    destruct (js_index_is_Some (sequence g) (i - nLevel st)) as [x Hx]; [lia|].
    rewrite Hx. eauto. }
  unfold trial.
  match goal with
  | |- context [channel_value rand ?e visualPosition ?gr ?b ?n ?i ?f ?force ?c] =>
      pose proof (channel_value_no_throw rand e visualPosition gr b n i f force c
                    (Hnb e)) as Hv;
      destruct (channel_value rand e visualPosition gr b n i f force c)
        as [[[vp vb] c1]| |]; simpl; [|contradiction|discriminate]
  end.
  match goal with
  | |- context [channel_value rand ?e audioLetter ?gr ?b ?n ?i ?f ?force ?c] =>
      pose proof (channel_value_no_throw rand e audioLetter gr b n i f force c
                    (Hnb e)) as Ha;
      destruct (channel_value rand e audioLetter gr b n i f force c)
        as [[[al ab] c2]| |]; simpl; [discriminate|contradiction|discriminate]
  end.
Qed.

Lemma trials_no_throw (rand : nat → Q) (fuel : nat) (st : GameSettings)
    (numTrials : Z) (k : nat) (i : Z) (g : GenState) :
  1 <= nLevel st → i = Z.of_nat (length (sequence g)) →
  trials rand fuel st numTrials k i g ≠ TypeError.
Proof.
  intros HN. revert i g. induction k as [|k IH]; intros i g Hi; [discriminate|].
  rewrite trials_S.
  pose proof (trial_no_throw rand fuel st numTrials i g HN Hi) as Ht.
  destruct (trial rand fuel st numTrials i g) as [g1| |] eqn:Hg1; simpl;
    [|contradiction|discriminate].
  apply IH. destruct (trial_inv _ _ _ _ _ _ _ Hg1) as (stim & d & Hseq & _).
  rewrite Hseq, length_app. simpl. lia.
Qed.

(** A channel that must read an N-back stimulus which is not there. *)
Lemma channel_value_throws {A : Type} `{EqDecision A} (rand : nat → Q)
    (field : Stimulus → option A) (getRandom : nat → option A * nat)
    (built : list Stimulus) (n i : Z) (fuel : nat) (force : bool) (c : nat) :
  n <= i → js_index built (i - n) = None →
  channel_value rand true field getRandom built n i (S fuel) force c = TypeError.
Proof.
  intros Hn Hnone. unfold channel_value.
  assert (Hle : (n <=? i) = true) by (apply Z.leb_le; exact Hn).
  rewrite Hle, Hnone. simpl.
  destruct force; simpl; [reflexivity|].
  destruct (Qlt_bool (rand c) targetMatchProbability); simpl; [reflexivity|].
  destruct (getRandom (S c)). rewrite Hle, Hnone. reflexivity.
Qed.

Lemma channel_value_disabled {A : Type} `{EqDecision A} (rand : nat → Q)
    (field : Stimulus → option A) (getRandom : nat → option A * nat)
    (built : list Stimulus) (n i : Z) (fuel : nat) (force : bool) (c : nat) :
  channel_value rand false field getRandom built n i (S fuel) force c
  = Ok ((getRandom c).1, false, (getRandom c).2).
Proof.
  unfold channel_value. rewrite redraw_S, andb_false_r.
  destruct (getRandom c); reflexivity.
Qed.

(** With N below 1 the first trial reads an element that the empty array
    does not have. *)
Lemma first_trial_throws (rand : nat → Q) (fuel : nat) (st : GameSettings)
    (numTrials : Z) :
  nLevel st <= 0 →
  trial rand (S fuel) st numTrials 0 initialGenState = TypeError.
Proof.
  intros HN. unfold trial. cbn [sequence initialGenState cursor].
  assert (Hnone : js_index (@nil Stimulus) (0 - nLevel st) = None).
  { unfold js_index. case_decide; reflexivity. }
  destruct (bool_decide_reflect (gameMode st ≠ Audio)) as [Hv|Hv].
  - rewrite channel_value_throws by assumption. reflexivity.
  - rewrite channel_value_disabled. cbn [mbind outcome_bind].
    rewrite (bool_decide_eq_true_2 (gameMode st ≠ Visual))
      by (apply dec_stable in Hv; rewrite Hv; discriminate).
    rewrite channel_value_throws by assumption. reflexivity.
Qed.

(** X23. generateSequence throws exactly when N is below 1 and there is a
    trial to generate, that is, when the trial period is positive and at
    least one period fits into the session: its first trial then reads an
    element that the empty array does not have. With N at least 1, with no
    trial or with a trial period that is not positive it never throws. *)
Theorem generateSequence_throws_iff (rand : nat → Q) (fuel : nat) (st : GameSettings) :
  generateSequence rand (S fuel) st = TypeError
  ↔ 0 < stimulusDuration st + interStimulusInterval st
    ∧ nLevel st <= 0 ∧ 1 <= numTrialsOf st.
Proof.
  unfold generateSequence, generateTrace.
  destruct (decide (stimulusDuration st + interStimulusInterval st <= 0)) as [Htd|Htd].
  { simpl. split; [discriminate|lia]. }
  split.
  - intros Hthrow.
    destruct (decide (1 <= nLevel st)) as [HN|HN].
    + exfalso.
      pose proof (trials_no_throw rand (S fuel) st (numTrialsOf st)
                    (Z.to_nat (numTrialsOf st)) 0 initialGenState HN eq_refl) as Hno.
      destruct (trials rand (S fuel) st (numTrialsOf st) (Z.to_nat (numTrialsOf st)) 0
                  initialGenState); [discriminate Hthrow|contradiction|discriminate Hthrow].
    + destruct (decide (1 <= numTrialsOf st)) as [HT|HT]; [lia|].
      replace (Z.to_nat (numTrialsOf st)) with 0%nat in Hthrow by lia.
      discriminate Hthrow.
  - intros (_ & HN & HT).
    replace (Z.to_nat (numTrialsOf st)) with (S (Z.to_nat (numTrialsOf st - 1))) by lia.
    rewrite trials_S, first_trial_throws by exact HN. reflexivity.
Qed.

(** ** The game loop *)

(** NEXT_TRIAL on a well-formed state returns: past the last trial it
    finishes the session, before it shows the next trial. *)
Lemma next_trial_progress (now : Z) (s : GameReducerState) (st : GameSettings) (t : Z) :
  wellFormed s → 0 <= nLevel st →
  ∃ s', gameReducer now s (NEXT_TRIAL t st) = Ok s'
        ∧ stimulusSequence s' = stimulusSequence s
        ∧ ((Z.of_nat (length (stimulusSequence s)) <= currentTrial s + 1
            ∧ status s' = finished ∧ currentTrial s' = currentTrial s)
           ∨ (currentTrial s + 1 < Z.of_nat (length (stimulusSequence s))
              ∧ status s' = status s ∧ currentTrial s' = currentTrial s + 1)).
Proof.
  intros Hwf HN. pose proof Hwf as [Hct _]. simpl.
  case_decide as Hend.
  { eexists. split; [reflexivity|]. split; [reflexivity|]. left. auto. }
  destruct (js_index_is_Some (stimulusSequence s) (currentTrial s + 1)) as [cur Hc];
    [lia|].
  rewrite Hc. simpl.
  destruct (decide (nLevel st <= currentTrial s)) as [Hn|Hn].
  - destruct (wellFormed_trial_data s (nLevel st) Hwf ltac:(lia))
      as (prev & nb & r & -> & -> & ->).
    rewrite missFeedbackOf_visual, missFeedbackOf_audio.
    destruct (decide (gameMode st ≠ Audio)), (decide (gameMode st ≠ Visual)); simpl;
      (eexists; split; [reflexivity|]; split; [reflexivity|]; right; simpl;
       split; [lia|split; reflexivity]).
  - simpl. eexists. split; [reflexivity|]. split; [reflexivity|]. right. simpl.
    split; [lia|split; reflexivity].
Qed.

(** Once the game is not running the loop does nothing. *)
Lemma runTicks_idle (st : GameSettings) (s : GameReducerState) (times : list Z) :
  status s ≠ running → runTicks st s times = Ok s.
Proof.
  intros Hs. induction times as [|t rest IH]; [reflexivity|].
  simpl. unfold gameTick. rewrite decide_True by exact Hs. simpl. exact IH.
Qed.

(** X24. Game.tsx, gameTick, and NEXT_TRIAL: the game loop walks the
    sequence and then finishes. On a running, well-formed state with N not
    negative, k ticks return a state with the same sequence; while trials
    are left the game is still running and has moved on by k trials, and
    the first tick past the last trial finishes it, after which further
    ticks change nothing. *)
Theorem ticks_walk_the_sequence (st : GameSettings) (s : GameReducerState)
    (times : list Z) :
  0 <= nLevel st → wellFormed s → status s = running →
  ∃ s', runTicks st s times = Ok s'
        ∧ stimulusSequence s' = stimulusSequence s
        ∧ currentTrial s'
          = Z.min (currentTrial s + Z.of_nat (length times))
              (Z.of_nat (length (stimulusSequence s)) - 1)
        ∧ status s'
          = if decide (currentTrial s + Z.of_nat (length times)
                       < Z.of_nat (length (stimulusSequence s)))
            then running else finished.
Proof.
  intros HN. revert s. induction times as [|t rest IH]; intros s Hwf Hrun.
  - pose proof Hwf as [Hct _]. exists s. simpl.
    split; [reflexivity|]. split; [reflexivity|]. split; [lia|].
    rewrite decide_True by lia. exact Hrun.
  - pose proof Hwf as [Hct _].
    destruct (next_trial_progress t s st t Hwf HN)
      as (s1 & Hs1 & Hseq & [(Hend & Hfin & Hc)|(Hmore & Hst & Hc)]).
    + exists s1. cbn [runTicks]. unfold gameTick.
      rewrite decide_False by (intros H; apply H; exact Hrun).
      rewrite Hs1. cbn [mbind outcome_bind].
      rewrite runTicks_idle by (rewrite Hfin; discriminate).
      split; [reflexivity|]. split; [exact Hseq|]. cbn [length].
      split; [lia|]. rewrite decide_False by lia. exact Hfin.
    + destruct (IH s1) as (s' & Hs' & Hseq' & Hc' & Hst').
      { eapply gameReducer_wellFormed; eassumption. }
      { rewrite Hst. exact Hrun. }
      exists s'. cbn [runTicks]. unfold gameTick.
      rewrite decide_False by (intros H; apply H; exact Hrun).
      rewrite Hs1. cbn [mbind outcome_bind].
      split; [exact Hs'|]. split; [congruence|]. cbn [length].
      rewrite Hseq, Hc in *. split.
      * rewrite Hc'. lia.
      * rewrite Hst'. repeat case_decide; try reflexivity; lia.
Qed.

Lemma ticks_walk_the_sequence_witness :
  ∃ s', runTicks scenarioSettings scenarioStart [0; 4000; 8000; 12000; 16000; 20000] = Ok s'
        ∧ currentTrial s' = 4 ∧ status s' = finished.
Proof.
  destruct (ticks_walk_the_sequence scenarioSettings scenarioStart
              [0; 4000; 8000; 12000; 16000; 20000])
    as (s' & Hs' & _ & Hc & Hst).
  - vm_compute. discriminate.
  - split; [vm_compute; split; [discriminate|reflexivity]|].
    intros i Hi. unfold scenarioStart. simpl. rewrite blankResponses_lookup.
    rewrite decide_True by exact Hi. eauto.
  - reflexivity.
  - exists s'. split; [exact Hs'|]. split; [exact Hc|exact Hst].
Defined.
